(* ===== verification/_CoqProject ===== *)
-Q . S2P
Prelude.v
Buffers.v
SqlAst.v
RustNum.v
Chrono.v
Json.v
Validators.v
DataDescriptor.v
Codec.v
Executor.v
Main.v
