(* ===== verification/Prelude.v ===== *)
(** * A Rocq model of [rust_sql_db], the execution core of an in-memory SQL store

    ** The program

    The repository is a small Rust crate ([src/src]) plus a helper crate
    ([src/buffers_unsafe_copy]).  An external parser ([sqlparser]) turns SQL
    text into statements; [main.rs] feeds them one at a time to
    [Execute::execute] ([executor.rs]), which drives a [DataBase]
    ([data_descriptor.rs]): a directory [HashMap<String, Arc<Mutex<TableInfo>>>]
    of tables, each with its schema (primary keys, indexes, a
    [HashMap<String, ColumnInfo>] of columns) and a row store
    [HashMap<String, Arc<TableRowData>>] keyed by the composite primary key.
    Before a value is stored, [ColumnInfo::validate_value] asks the value
    validator ([validators.rs]) whether the literal fits the column's declared
    type.  [raw_inner_value.rs] extracts the text stored for a literal.

    ** The development, file by file (in dependency order)

    - [Prelude] (this file): the [outcome] type (Rust's [Result] plus a
      panic) with stdpp's monad notation, string helpers that the Rust
      standard library provides ([str::len], [str::split], [Vec::contains]),
      the [sqldb] hint database and the shared Ltac.
    - [Buffers]: [buffers_unsafe_copy] with its memory made explicit
      (allocation, [ptr::copy], [set_len]) and, for [vector::unsafe_copy],
      the heap allocations its elements own ([Owns]) and the destructors
      that free them ([drop_vec]): the string copies are sound, while a
      vector copy shares its elements' allocations with its source.
    - [SqlAst]: the part of [sqlparser]'s AST the program matches on
      ([Value], [DataType], [CharacterLength], [ExactNumberInfo], [Expr],
      [ColumnOption], [Statement], ...), one constructor per variant used by
      the code, the others gathered in a catch-all constructor.
    - [RustNum]: [str::parse::<f64>], [str::parse::<i64>] and
      [str::parse::<u64>] as the Rust core library defines them (grammar and
      range), used by the numeric validators.
    - [Chrono]: [NaiveDate/NaiveTime/NaiveDateTime::parse_from_str] for the
      four format strings of [validators.rs], through chrono's two phases:
      the format string is tokenised into items ([StrftimeItems]) and the
      input is parsed against the items, then the parsed fields are checked
      as a calendar date or a time of day.
    - [Json]: [serde_json::from_str::<Value>] as a recogniser of JSON text
      (RFC 8259 grammar, serde_json's nesting limit of 128).
    - [Validators]: every function of [validators.rs], [validate_value_for_col]
      with one branch per [DataType] case of the source.
    - [DataDescriptor]: [raw_inner_value.rs] (the trait [InnerRawValue] as
      a typeclass with its instance for [Value]) and [data_descriptor.rs]:
      [ColumnProperties], [ColumnInfo::validate_value], [TableRowData],
      [TableData::find_all], [TableInfo::insert_values] (its column check,
      its per-row loop that builds the composite key and drops invalid
      columns, its early returns), [DataBase::create_table],
      [table_exists], [get_table_ref].
    - [Codec]: the serialisation of [find_all]'s result ([bitcode::encode] in
      the source) behind an interface ([RowCodec], a typeclass with its
      round-trip law) and one implementation with LEB128 length prefixes.
    - [Executor]: the trait [Execute] as a typeclass, with its instance for
      [Statement]: [Execute::execute] for [CreateTable], [Insert], [Query]
      and the unsupported statements, as a function from a database and a
      statement to the new database and an [outcome]; [main]'s statement
      loop [run], written against the trait; the reachable states as an
      inductive relation.
    - [Main]: [main.rs]: the SQL text it builds ([build_sql], with the
      loop [push_rows], the overflow-checked [i32] addition [i32_add] and
      the decimal [Display] of an [i32], [i32_to_string]), the parse with
      its [unwrap] (the parser is an argument of [main_with]), and the run
      of the statements.

    ** Modelling choices

    - Rust [String]s are byte strings: a Rocq [string] is a list of 8-bit
      [ascii] characters, so [String.length] is Rust's [len()].
    - A [HashMap<String, V>] is a [gmap string V].  Rust does not specify a
      [HashMap]'s iteration order: the model iterates in [map_to_list]'s
      order, and a theorem about what a query returns either speaks of the
      order [find_all] produces, whatever it is, or is stated up to
      permutation ([≡ₚ]); no theorem fixes the model's own order.
    - [main] is compiled in debug mode in the sense that [i32] addition
      checks for overflow ([Main.i32_add]); [rows_to_insert] is a
      parameter of [main_with] so that the theorems cover every value in
      the [i32] range, [main] being its instance at 1000000.
    - [Arc<Mutex<TableInfo>>]: the database owns each table; a statement
      touches one table and runs to completion under its lock, so a
      statement is one atomic step of the model ([execute]), and writing
      through the handle is [DataBase.put_table].  [insert_values] never
      panics (lemma [insert_values_no_panic]), so the lock is never
      poisoned and [lock().unwrap()] is modelled as success.
    - A method that mutates [self] and returns a [Result] returns the new
      state and the [outcome]; the state changes made before an early
      return are kept, as in the code.
    - Unsigned machine integers ([u64], [usize]) are [N] or [nat]; the only
      arithmetic on them in the source is length comparisons, which cannot
      overflow for lengths of real strings.  The checked [i64]/[u64]
      accumulation of [str::parse] is modelled at its width, with the
      overflow checks written out ([RustNum.digits_loop]).
    - [unsafe_copy] of [buffers_unsafe_copy] is modelled in [Buffers],
      where [unsafe_copy_sound] shows that the string copy returns its
      argument in a buffer of its own; the other files therefore use the
      copied strings directly (the crate uses only the string copies).

    ** What is proved

    - [Executor]: the databases reachable from [DataBase::new] are well
      formed ([reachable_wf], by induction on [reachable]); [CREATE TABLE]
      builds the schema from the column options only
      ([create_table_schema]) and panics exactly on malformed options
      ([create_table_panics]); [INSERT] reports [DataInserted] whatever
      [insert_values] returned ([insert_reports_success]), errs on a
      missing table ([insert_missing_table]) and does nothing for a
      non-[VALUES] source ([insert_non_values_noop]); a [SELECT *] payload
      decodes with the codec's law to the rows of each table
      ([select_wildcard_payload]) and any other projection is rejected
      ([select_rejects_projection]); statements on different tables
      commute ([execute_commute], from a frame and a locality lemma), which
      justifies the per-table locks; rows returned have at most as many
      values as the table has columns ([reachable_row_width]); every
      stored value is the text of a literal its column's validator
      accepted ([reachable_typed]); an [INSERT] whose row has the wrong
      arity stores nothing and is still answered [DataInserted]
      ([insert_wrong_arity_silent]).
    - [Main]: the text [main] builds, for every [rows_to_insert] in the
      [i32] range, is the [VALUES] list of rows [1 .. rows_to_insert - 1]
      closed by [;], or keeps a dangling comma when the loop is empty
      ([build_sql_text]); whenever the parser reads that text as the
      statements it spells, [main] inserts every row and its [SELECT]
      returns exactly [rows_to_insert - 1] rows, the inserted literals up
      to [HashMap] order ([main_inserts_all_rows]).  The decimal text of
      an id parses back to the id ([parse_u64_i32_to_string]), so the ids
      are distinct keys.
    - [DataDescriptor]: the exact acceptance condition of the column check
      ([insert_values_column_check]); a refinement of [insert_values] by an
      abstract upsert of each row under its key ([insert_values_refines]),
      with last-write-wins, the key's shape ([row_key_composite]), the
      dropping of invalid columns, that only validated values are
      stored ([insert_values_typed]), the rows kept before an error, the
      single-key behaviour of a table without primary keys, collisions of
      composite keys for all key texts ([composite_key_collision]), the
      nullable rule of a
      column ([column_accepts_null]), an insert/[find_all] round trip, and
      the panic of [find_all] with named fields on incomplete rows
      ([find_all_named_fields]).
    - [Validators]: per type family, the exact set of accepted literals
      (characters, integers, decimals and floats, booleans, enums, JSON),
      that a date or time printed in its format's shape is judged by the
      calendar ([iso_datetime_roundtrip]), that no [TIMESTAMP] literal is
      ever accepted, and that integer widths are not enforced: every
      value with as many digits as the type's default precision is
      accepted ([integer_width_not_enforced]).
    - [Buffers]: the unsafe copies read in bounds, expose no uninitialised
      memory and return their argument ([unsafe_copy_sound]); the
      vector copy owns what its source owns, so dropping both is a double
      free whenever an element owns an allocation, and is harmless only
      for element types that own nothing
      ([vector_unsafe_copy_double_free]).
    - [RustNum]: the checked digit loop of [from_str_radix] equals the
      mathematical value with its range check ([from_str_radix10_spec]).
    - [Codec]: the LEB128 codec satisfies the round-trip law of
      [RowCodec].

    ** Bounds and fuel

    - [Codec.leb128]: the encoder gets one step per bit of the number plus
      one, and [leb128_enough_fuel] shows that [n < 128 ^ (bits + 1)], so
      the encoding is complete; the decoder gets as many steps as it has
      input bytes, which [leb128_dec_enc] shows is enough.
    - [Json.parse_value]: the fuel is twice the input's length plus one.
      Entering an array or object costs two units and consumes one
      character, and every further element consumes at least two, so a
      call on [n] characters with more than [2n] units never runs out:
      [parse_value_fuel_enough] shows that more fuel gives the same
      result, and [json_from_str_ok_spec] that the validator accepts
      exactly what some run of the recogniser accepts.  A string body gets
      one unit per character ([parse_str_body_fuel]).

    ** What is not modelled

    - SQL tokenising and parsing ([sqlparser], an external crate): its AST
      types are transcribed in [SqlAst] as the input of the model.
    - [main.rs]: the timing ([Instant]) and the printing of each result
      only observe the run and are not modelled.
    - [Main.i32_to_string] gives the digits [format!] writes, computed by
      repeated division rather than by the core library's two-digit
      table; [dec_fuel] (one step per bit) bounds the number of digits.
    - The bit-level format of [bitcode::encode]: the spec makes the codec
      pluggable and fixes only the logical shape, which [Codec] states as an
      interface.
    - Ownership and [Drop] outside [Buffers]: the rest of the program
      moves and clones its [String]s and [Vec]s through safe code only,
      so they are modelled as values.
    - Concurrency between threads: the program is single-threaded, and a
      statement is atomic under its table's lock.
    - [TableRowData::get_named_fields] and [find_all] with named fields are
      modelled but no statement reaches them (the executor rejects named
      projections).
*)

From stdpp Require Export base list gmap strings.
From Stdlib Require Export ZArith.
From Stdlib Require Import Ascii.

Declare Scope sql_scope.
Delimit Scope sql_scope with sql.

(** ** Outcomes: [Result<T, E>] with a panic *)

(** A Rust function returning [Result<T, E>] either returns [Ok] ([Ret]),
    returns [Err] with a message, or panics ([unwrap]/[expect] on a missing
    value). *)
Inductive outcome (A : Type) : Type :=
| Ret (a : A)
| Err (msg : string)
| Panic (msg : string).
Arguments Ret {_} _.
Arguments Err {_} _.
Arguments Panic {_} _.

#[global] Instance outcome_ret : MRet outcome := λ A a, Ret a.
#[global] Instance outcome_bind : MBind outcome :=
  λ A B f m, match m with
             | Ret a => f a
             | Err e => Err e
             | Panic e => Panic e
             end.

(** [opt.expect(msg)] *)
Definition expect {A} (o : option A) (msg : string) : outcome A :=
  match o with Some a => Ret a | None => Panic msg end.

(** [r.is_ok()] for a parse result modelled as an [option]. *)
Definition is_ok {A} (o : option A) : bool :=
  match o with Some _ => true | None => false end.

Definition is_panic {A} (o : outcome A) : bool :=
  match o with Panic _ => true | _ => false end.

(** ** Strings as Rust byte strings *)

(** [s.len()]: the number of bytes. *)
Abbreviation rust_len := String.length.

(** [v.contains(&s)] on a [Vec<String>]. *)
Definition str_contains (l : list string) (s : string) : bool :=
  existsb (String.eqb s) l.

(** [s.split(c)] for a one-character separator, collected into a [Vec]. *)
Fixpoint str_split (c : ascii) (s : string) : list string :=
  match s with
  | EmptyString => [EmptyString]
  | String a s' =>
      let parts := str_split c s' in
      if Ascii.eqb a c then EmptyString :: parts
      else match parts with
           | p :: ps => String a p :: ps
           | [] => [String a EmptyString]
           end
  end.

Fixpoint count_char (c : ascii) (s : string) : nat :=
  match s with
  | EmptyString => 0
  | String a s' => (if Ascii.eqb a c then 1 else 0) + count_char c s'
  end.

Definition is_digit (a : ascii) : bool :=
  let n := nat_of_ascii a in (48 <=? n) && (n <=? 57).

Definition digit_value (a : ascii) : Z := Z.of_nat (nat_of_ascii a) - 48.

Definition all_digits (s : string) : bool :=
  forallb is_digit (String.list_ascii_of_string s).

(** ** Shared lemmas *)

Create HintDb sqldb discriminated.
Create Rewrite HintDb sqldb_rw.

Lemma str_contains_spec l s : str_contains l s = true ↔ s ∈ l.
Proof.
  unfold str_contains. rewrite existsb_exists. split.
  - intros (x & Hx & Heq). apply String.eqb_eq in Heq. subst.
    by apply list_elem_of_In.
  - intros Hin. exists s. split; [by apply list_elem_of_In|].
    apply String.eqb_refl.
Qed.

Lemma str_split_nonempty c s : str_split c s ≠ [].
Proof. destruct s as [|a s]; simpl; [done|]. destruct (Ascii.eqb a c); [done|].
  by destruct (str_split c s). Qed.

Lemma length_str_split c s : length (str_split c s) = S (count_char c s).
Proof.
  induction s as [|a s IH]; simpl; [done|].
  destruct (Ascii.eqb a c); simpl; [by rewrite IH|].
  pose proof (str_split_nonempty c s).
  destruct (str_split c s); simpl in *; [done|]. lia.
Qed.

Lemma rust_len_app a b : String.length (a +:+ b) = (String.length a + String.length b)%nat.
Proof. induction a as [|x a IH]; simpl; [done|]. by rewrite IH. Qed.

(** [String.append] is [simpl never] in stdpp: its two equations. *)
Lemma str_app_nil_l b : "" +:+ b = b.
Proof. reflexivity. Qed.

Lemma str_app_cons x a b : String x a +:+ b = String x (a +:+ b).
Proof. reflexivity. Qed.

Lemma str_app_assoc a b c : (a +:+ b) +:+ c = a +:+ (b +:+ c).
Proof. induction a as [|x a IH]; rewrite ?str_app_nil_l, ?str_app_cons; congruence. Qed.

Lemma count_char_app c a b : count_char c (a +:+ b) = (count_char c a + count_char c b)%nat.
Proof. induction a as [|x a IH]; simpl; [done|]. rewrite IH. lia. Qed.

Lemma str_split_no_sep c s : count_char c s = 0%nat → str_split c s = [s].
Proof.
  induction s as [|a s IH]; simpl; [done|]. intros H.
  destruct (Ascii.eqb a c); [lia|]. by rewrite IH.
Qed.

Lemma str_split_app_sep c a b :
  count_char c a = 0%nat → str_split c (a +:+ String c b) = a :: str_split c b.
Proof.
  induction a as [|x a IH]; simpl; intros H.
  - by rewrite Ascii.eqb_refl.
  - destruct (Ascii.eqb x c); [lia|]. by rewrite IH.
Qed.

Lemma outcome_bind_ret {A B} (m : outcome A) (f : A → outcome B) b :
  (m ≫= f) = Ret b ↔ ∃ a, m = Ret a ∧ f a = Ret b.
Proof. destruct m; simpl; split; naive_solver. Qed.

Lemma expect_ret {A} (o : option A) msg a : expect o msg = Ret a ↔ o = Some a.
Proof. destruct o; simpl; naive_solver. Qed.

(** [iter().map(g).collect::<Result<..>>]-style loops where each step
    either succeeds with [h x] or panics with one message. *)
Lemma mapM_outcome {A B} (g : A → outcome B) (P : A → Prop) `{∀ x, Decision (P x)}
    (h : A → B) msg (l : list A) :
  (∀ x, g x = if bool_decide (P x) then Ret (h x) else Panic msg) →
  mapM g l = if bool_decide (Forall P l) then Ret (map h l) else Panic msg.
Proof.
  intros Hg. induction l as [|x l IH]; cbn [mapM]; [by rewrite bool_decide_true|].
  rewrite Hg. destruct (decide (P x)) as [Hx|Hx].
  - rewrite bool_decide_true by done. cbn [mbind outcome_bind].
    rewrite IH. destruct (decide (Forall P l)) as [Hl|Hl].
    + rewrite !bool_decide_true by (done || by constructor). reflexivity.
    + rewrite !bool_decide_false by (done || by inversion 1). reflexivity.
  - rewrite !bool_decide_false by (done || by inversion 1). reflexivity.
Qed.

Lemma outcome_bind_not_panic {A B} (m : outcome A) (f : A → outcome B) :
  is_panic m = false → (∀ a, is_panic (f a) = false) → is_panic (m ≫= f) = false.
Proof. destruct m; simpl; auto. Qed.

(** Inserting the pairs of a list one after the other, left to right. *)
Lemma foldl_insert_union {V} (l : list (string * V)) (m0 : gmap string V) :
  NoDup l.*1 → foldl (λ m kv, <[kv.1 := kv.2]> m) m0 l = list_to_map l ∪ m0.
Proof.
  revert m0. induction l as [|[k v] l IH]; intros m0 Hnd.
  { simpl. by rewrite map_empty_union. }
  cbn [foldl fst snd fmap list_fmap] in *.
  apply NoDup_cons in Hnd as [Hk Hnd]. rewrite IH by done.
  rewrite list_to_map_cons, <- insert_union_l, insert_union_r; [done|].
  by apply not_elem_of_list_to_map_1.
Qed.

(** After inserting [g x] under [f x] for every [x] of a list in order,
    a key holds the value of the last element mapped to it. *)
Lemma lookup_foldl_insert {A V} (f : A → string) (g : A → V) (xs : list A)
    (m0 : gmap string V) k :
  foldl (λ m x, <[f x := g x]> m) m0 xs !! k =
  match last (filter (λ x, f x = k) xs) with
  | Some x => Some (g x)
  | None => m0 !! k
  end.
Proof.
  induction xs as [|x xs IH] using rev_ind; simpl; [done|].
  rewrite foldl_app, filter_app, filter_cons, filter_nil. simpl.
  destruct (decide (f x = k)) as [<-|Hne].
  - rewrite last_snoc. by rewrite lookup_insert_eq.
  - rewrite app_nil_r, lookup_insert_ne by done. apply IH.
Qed.

(** Inserting under pairwise distinct keys, starting from the empty map,
    gives a map that lists exactly the inserted pairs (in some order). *)
Lemma map_to_list_foldl_insert {A V} (f : A → string) (g : A → V) (xs : list A) :
  NoDup (f <$> xs) →
  map_to_list (foldl (λ m x, <[f x := g x]> m) (∅ : gmap string V) xs) ≡ₚ (λ x, (f x, g x)) <$> xs.
Proof.
  intros Hnd.
  rewrite <- (foldl_fmap (λ m (kv : string * V), <[kv.1 := kv.2]> m) ∅ xs (λ x, (f x, g x))).
  rewrite foldl_insert_union, map_union_empty, map_to_list_to_map; [done|..];
    by rewrite <- list_fmap_compose.
Qed.

Lemma length_string_of_list_ascii l : String.length (String.string_of_list_ascii l) = length l.
Proof. induction l as [|a l IH]; simpl; [done|]. by rewrite IH. Qed.

(** [s.as_bytes().len() = s.len()] *)
Lemma length_list_byte_of_string s : length (String.list_byte_of_string s) = String.length s.
Proof.
  unfold String.list_byte_of_string. rewrite length_map.
  induction s as [|a s IH]; simpl; [done|]. by rewrite IH.
Qed.

#[export] Hint Rewrite length_str_split rust_len_app count_char_app str_app_nil_l str_app_cons : sqldb_rw.
#[export] Hint Resolve outcome_bind_not_panic : sqldb.

(** Split binds equal to [Ret] in hypotheses, then invert constructor
    equations. *)
Ltac outcome_inv :=
  repeat match goal with
  | H : (_ ≫= _) = Ret _ |- _ => apply outcome_bind_ret in H as (? & ? & ?)
  | H : expect _ _ = Ret _ |- _ => apply expect_ret in H
  end; simplify_eq/=.

(** Case on every [Z.leb] test of the goal. *)
Ltac zleb_cases :=
  repeat match goal with
  | |- context [(?a <=? ?b)%Z] => destruct (Z.leb_spec a b)
  end.

(** Prove a decidable proposition on concrete data by evaluating its
    decision procedure. *)
Ltac by_decide := apply (bool_decide_unpack _); vm_compute; exact I.
