(* ===== verification/Buffers.v ===== *)
(** * The byte-copy helper crate ([src/buffers_unsafe_copy/src/lib.rs])

    [unsafe_copy] duplicates a [String] (or a [Vec<T>]) by hand: it
    allocates a buffer with [with_capacity(len)], copies [len] elements
    from the source pointer with [ptr::copy], then declares them
    initialised with [set_len(len)].  The model keeps the memory explicit:

    - the source buffer is the list of the source's elements;
    - a freshly allocated buffer of capacity [n] is [n] uninitialised
      cells ([None]);
    - [ptr::copy(src, dst, n)] writes the first [n] source elements into
      the first [n] cells, bit for bit;
    - [set_len(n)] exposes the first [n] cells as the contents; it is
      undefined behaviour if one of them is uninitialised, which the model
      reports as [None].

    A bitwise copy of an element duplicates whatever heap allocations the
    element owns.  The typeclass [Owns] gives the allocations a value owns
    (none for a [Copy] type such as [u8]; its buffer for a [String], a
    [Vec] or a [Box]); [drop_vec] runs the destructors of a vector's
    elements on a set of live allocations, a double free being undefined
    behaviour ([None]).

    The theorems show that the string copies never expose uninitialised
    memory, read only within the source and return a new [String] equal to
    the source (bytes own nothing), which is why the other files use the
    copied strings directly; and that [vector::unsafe_copy], a safe
    function, returns a vector that owns the same allocations as its
    source, so that dropping both frees every owned allocation twice
    whenever the element type owns one. *)

From S2P Require Import Prelude.
From Stdlib Require Import Strings.Byte.

(** [Vec::with_capacity(n)]: [n] uninitialised cells. *)
Definition with_capacity {T} (n : nat) : list (option T) := replicate n None.

(** [ptr::copy(src, dst, n)]: [n] elements read from [src], written to the
    front of [dst]; [None] when [src] has fewer than [n] elements (a read
    out of bounds). *)
Definition ptr_copy {T} (src : list T) (dst : list (option T)) (n : nat) : option (list (option T)) :=
  if bool_decide (n ≤ length src ∧ n ≤ length dst)
  then Some ((Some <$> take n src) ++ drop n dst)
  else None.

(** [set_len(n)]: the first [n] cells become the contents; [None] when one
    of them is uninitialised or [n] exceeds the capacity. *)
Definition set_len {T} (dst : list (option T)) (n : nat) : option (list T) :=
  if bool_decide (n ≤ length dst) then mapM id (take n dst) else None.

Module string.

(** Lines 20-27. *)
Definition from_buf_raw (src : list byte) (elts : nat) : option (list byte) :=
  dst ← ptr_copy src (with_capacity elts) elts; set_len dst elts.

(** Lines 4-8: [from_buf_raw(string.as_ptr(), string.len())]; [None] is
    undefined behaviour. *)
Definition unsafe_copy (s : string) : option string :=
  String.string_of_list_byte <$> from_buf_raw (String.list_byte_of_string s) (String.length s).

(** Lines 10-18. *)
Definition unsafe_copy_option_str (string_o : option string) : option (option string) :=
  match string_o with
  | Some s => Some <$> unsafe_copy s
  | None => Some None
  end.

End string.

Module vector.

(** Lines 38-49. *)
Definition from_buf_raw {T} (src : list T) (elts : nat) : option (list T) :=
  dst ← ptr_copy src (with_capacity elts) elts; set_len dst elts.

(** Lines 32-36. *)
Definition unsafe_copy {T} (vec : list T) : option (list T) := from_buf_raw vec (length vec).

End vector.

(** ** Ownership and [Drop] *)

(** The heap allocations a value owns, which its destructor frees. *)
Class Owns (T : Type) := owned_blocks : T → list positive.

(** Freeing an allocation that is not live is a double free: undefined
    behaviour, [None]. *)
Definition free_block (live : gset positive) (b : positive) : option (gset positive) :=
  if bool_decide (b ∈ live) then Some (live ∖ {[b]}) else None.

Fixpoint free_blocks (live : gset positive) (bs : list positive) : option (gset positive) :=
  match bs with
  | [] => Some live
  | b :: bs' => live' ← free_block live b; free_blocks live' bs'
  end.

(** Dropping a [Vec<T>] drops its elements in order. *)
Fixpoint drop_vec `{Owns T} (live : gset positive) (xs : list T) : option (gset positive) :=
  match xs with
  | [] => Some live
  | x :: xs' => live' ← free_blocks live (owned_blocks x); drop_vec live' xs'
  end.

(** A caller of [vector::unsafe_copy(&vec)] holds the copy and the
    original; at the end of its scope both are dropped, the copy first. *)
Definition copy_then_drop_both `{Owns T} (live : gset positive) (vec : list T) : option (gset positive) :=
  c ← vector.unsafe_copy vec; d ← drop_vec live c; drop_vec d vec.

(** ** Lemmas *)

Lemma mapM_id_Some {T} (l : list T) : mapM id (Some <$> l) = Some l.
Proof.
  induction l as [|x l IH]; [done|].
  change (Some <$> x :: l) with (Some x :: (Some <$> l)). cbn [mapM]. by rewrite IH.
Qed.

(** Copying [elts] elements out of a buffer that has at least that many
    gives exactly its first [elts] elements, and exposes no uninitialised
    cell. *)
Lemma from_buf_raw_in_bounds {T} (src : list T) elts :
  elts ≤ length src →
  (dst ← ptr_copy src (with_capacity elts) elts; set_len dst elts) = Some (take elts src).
Proof.
  intros Hl. unfold ptr_copy, with_capacity.
  rewrite bool_decide_true by (rewrite length_replicate; lia). simpl.
  rewrite drop_replicate, Nat.sub_diag, app_nil_r. unfold set_len.
  rewrite bool_decide_true by (rewrite length_fmap, length_take; lia).
  rewrite take_ge by (rewrite length_fmap, length_take; lia). apply mapM_id_Some.
Qed.

(** Asking for more elements than the buffer holds is a read out of
    bounds. *)
Lemma from_buf_raw_out_of_bounds {T} (src : list T) elts :
  length src < elts → (dst ← ptr_copy src (with_capacity elts) elts; set_len dst elts) = None.
Proof. intros Hl. unfold ptr_copy. rewrite bool_decide_false by lia. done. Qed.

Lemma free_blocks_sub live bs live' :
  free_blocks live bs = Some live' → live' ⊆ live ∧ Forall (λ b, b ∉ live') bs.
Proof.
  revert live. induction bs as [|b bs IH]; intros live H; simpl in H; [simplify_eq; set_solver|].
  unfold free_block in H. case_bool_decide; [|done]. simpl in H.
  destruct (IH _ H) as [Hs Hf]. split; [set_solver|]. constructor; [set_solver|done].
Qed.

Lemma free_blocks_dead live bs b : b ∉ live → b ∈ bs → free_blocks live bs = None.
Proof.
  revert live. induction bs as [|b' bs IH]; intros live Hb Hin; [by apply elem_of_nil in Hin|].
  simpl. unfold free_block. case_bool_decide as Hl; [|done]. simpl.
  apply elem_of_cons in Hin as [->|Hin]; [done|]. apply IH; [set_solver|done].
Qed.

Lemma drop_vec_sub `{Owns T} live (xs : list T) live' :
  drop_vec live xs = Some live' → live' ⊆ live.
Proof.
  revert live. induction xs as [|x xs IH]; intros live Hd; simpl in Hd; [by simplify_eq|].
  destruct (free_blocks live _) as [l1|] eqn:Hf; [|done]. simpl in Hd.
  apply free_blocks_sub in Hf as [Hs _]. specialize (IH _ Hd). set_solver.
Qed.

Lemma drop_vec_frees `{Owns T} live (xs : list T) live' x b :
  drop_vec live xs = Some live' → x ∈ xs → b ∈ owned_blocks x → b ∉ live'.
Proof.
  revert live. induction xs as [|y xs IH]; intros live Hd Hx Hb; [by apply elem_of_nil in Hx|].
  simpl in Hd. destruct (free_blocks live _) as [l1|] eqn:Hf; [|done]. simpl in Hd.
  apply elem_of_cons in Hx as [->|Hx]; [|by eapply IH].
  apply free_blocks_sub in Hf as [_ Hf]. apply drop_vec_sub in Hd.
  rewrite Forall_forall in Hf. specialize (Hf b Hb). set_solver.
Qed.

Lemma drop_vec_dead `{Owns T} live (xs : list T) x b :
  b ∉ live → x ∈ xs → b ∈ owned_blocks x → drop_vec live xs = None.
Proof.
  revert live. induction xs as [|y xs IH]; intros live Hl Hx Hb; [by apply elem_of_nil in Hx|].
  simpl. apply elem_of_cons in Hx as [->|Hx].
  - by rewrite (free_blocks_dead live _ b).
  - destruct (free_blocks live _) as [l1|] eqn:Hf; [|done]. simpl.
    apply free_blocks_sub in Hf as [Hs _]. apply IH; [set_solver|done..].
Qed.

Lemma drop_vec_nothing_owned `{Owns T} live (xs : list T) :
  (∀ x, x ∈ xs → owned_blocks x = []) → drop_vec live xs = Some live.
Proof.
  induction xs as [|x xs IH]; intros Hx; simpl; [done|].
  rewrite (Hx x) by set_solver. simpl. apply IH. set_solver.
Qed.

Lemma vector_unsafe_copy_bitwise {T} (vec : list T) : vector.unsafe_copy vec = Some vec.
Proof.
  unfold vector.unsafe_copy, vector.from_buf_raw.
  rewrite from_buf_raw_in_bounds by done. by rewrite take_ge.
Qed.

(** C9. The string copies are sound: copying a string or an optional
    string reads only the source's own bytes, exposes no uninitialised
    memory (no undefined behaviour), and returns a string equal to the
    source in a buffer of its own (bytes own nothing on the heap). *)
Theorem unsafe_copy_sound (s : string) (string_o : option string) :
  string.unsafe_copy s = Some s ∧ string.unsafe_copy_option_str string_o = Some string_o.
Proof.
  assert (Hs : ∀ s, string.unsafe_copy s = Some s).
  { intros s'. unfold string.unsafe_copy, string.from_buf_raw.
    rewrite from_buf_raw_in_bounds by (by rewrite length_list_byte_of_string).
    rewrite take_ge by (by rewrite length_list_byte_of_string). simpl.
    by rewrite String.string_of_list_byte_of_string. }
  split; [apply Hs|]. destruct string_o as [s'|]; simpl; [by rewrite Hs|done].
Qed.

(** C14. [vector::unsafe_copy] is a safe function that copies the
    elements bit for bit: the copy owns the very allocations the source
    owns.  Whenever an element owns one (a [Vec<String>], say), dropping
    the copy and the source frees it twice, which is undefined behaviour;
    only when no element owns anything (a [Copy] element type) do both
    drops succeed and leave the heap as it was. *)
Theorem vector_unsafe_copy_double_free `{Owns T} (live : gset positive) (vec : list T) :
  vector.unsafe_copy vec = Some vec
  ∧ ((∃ x b, x ∈ vec ∧ b ∈ owned_blocks x) → copy_then_drop_both live vec = None)
  ∧ ((∀ x, x ∈ vec → owned_blocks x = []) → copy_then_drop_both live vec = Some live).
Proof.
  unfold copy_then_drop_both. rewrite vector_unsafe_copy_bitwise. simpl.
  split; [done|]. split.
  - intros (x & b & Hx & Hb). destruct (drop_vec live vec) as [d|] eqn:Hd; [|done]. simpl.
    apply (drop_vec_dead d vec x b); [by eapply drop_vec_frees|done..].
  - intros Hx. rewrite drop_vec_nothing_owned by done. simpl. by apply drop_vec_nothing_owned.
Qed.

Lemma vector_unsafe_copy_double_free_witness :
  (∃ x b, x ∈ [1%positive] ∧ b ∈ [x])
  ∧ copy_then_drop_both (H := λ p, [p]) {[1%positive]} [1%positive] = None.
Proof.
  assert (Hown : ∃ x b, x ∈ [1%positive] ∧ b ∈ [x]) by (exists 1%positive, 1%positive; split; constructor).
  split; [exact Hown|].
  exact (proj1 (proj2 (vector_unsafe_copy_double_free (H := λ p : positive, [p]) {[1%positive]} [1%positive])) Hown).
Defined.
