(* ===== verification/SqlAst.v ===== *)
(** * The [sqlparser] AST consumed by the engine

    The statements the engine executes come from the external [sqlparser]
    crate.  This file transcribes the part of its AST that the source matches
    on.  Each Rust enum is a Rocq [Module] holding an [Inductive t], so that
    a constructor is written as in Rust: [Value::Number] is [Value.Number],
    [DataType::Varchar] is [DataType.Varchar] ([DataType::Set] is
    [DataType.Set_], [Set] being a keyword).  Every variant the source
    names has its own constructor with the source's fields; the variants the
    source only reaches through a [_ =>] arm are gathered in a constructor
    [Other] that carries a description.

    An [Ident] is its [value] string and an [ObjectName] the list of its
    identifiers' values. *)

From S2P Require Import Prelude.

Abbreviation Ident := string.
Abbreviation ObjectName := (list string).

(** [sqlparser::ast::Value] *)
Module Value.
Inductive t : Type :=
| Number (s : string) (long : bool)
| SingleQuotedString (s : string)
| DollarQuotedString (value : string) (tag : option string)
| EscapedStringLiteral (s : string)
| SingleQuotedByteStringLiteral (s : string)
| DoubleQuotedByteStringLiteral (s : string)
| RawStringLiteral (s : string)
| NationalStringLiteral (s : string)
| HexStringLiteral (s : string)
| DoubleQuotedString (s : string)
| Boolean (b : bool)
| Null
| Placeholder (s : string)
| UnQuotedString (s : string).
End Value.

(** [CharLengthUnits] and [CharacterLength] *)
Module CharLengthUnits.
Inductive t : Type := Characters | Octets.
End CharLengthUnits.

Module CharacterLength.
Inductive t : Type :=
| IntegerLength (length : N) (unit : option CharLengthUnits.t)
| Max.
End CharacterLength.

(** [ExactNumberInfo]: the precision and scale of [DECIMAL(p, s)]. *)
Module ExactNumberInfo.
Inductive t : Type :=
| None
| Precision (p : N)
| PrecisionAndScale (p s : N).
End ExactNumberInfo.

Module TimezoneInfo.
Inductive t : Type := None | WithTimeZone | WithoutTimeZone | Tz.
End TimezoneInfo.

(** [sqlparser::ast::DataType]: the variants [validate_value_for_col]
    matches, then [Other] for the rest ([Interval], [Regclass], [Array],
    [Custom], [Struct], ...). *)
Module DataType.
Inductive t : Type :=
| Character (len : option CharacterLength.t)
| Char (len : option CharacterLength.t)
| CharacterVarying (len : option CharacterLength.t)
| CharVarying (len : option CharacterLength.t)
| Varchar (len : option CharacterLength.t)
| Nvarchar (len : option N)
| Uuid
| CharacterLargeObject (len : option N)
| CharLargeObject (len : option N)
| Clob (len : option N)
| Binary (len : option N)
| Varbinary (len : option N)
| Blob (len : option N)
| Bytes (len : option N)
| Numeric (info : ExactNumberInfo.t)
| Decimal (info : ExactNumberInfo.t)
| BigNumeric (info : ExactNumberInfo.t)
| BigDecimal (info : ExactNumberInfo.t)
| Dec (info : ExactNumberInfo.t)
| Float (len : option N)
| TinyInt (len : option N)
| UnsignedTinyInt (len : option N)
| Int2 (len : option N)
| UnsignedInt2 (len : option N)
| SmallInt (len : option N)
| UnsignedSmallInt (len : option N)
| MediumInt (len : option N)
| UnsignedMediumInt (len : option N)
| Int (len : option N)
| Int4 (len : option N)
| Int64
| Integer (len : option N)
| UnsignedInt (len : option N)
| UnsignedInt4 (len : option N)
| UnsignedInteger (len : option N)
| BigInt (len : option N)
| UnsignedBigInt (len : option N)
| Int8 (len : option N)
| UnsignedInt8 (len : option N)
| Float4
| Float64
| Real
| Float8
| Double
| DoublePrecision
| Bool
| Boolean
| Date
| Time (precision : option N) (tz : TimezoneInfo.t)
| Datetime (precision : option N)
| Timestamp (precision : option N) (tz : TimezoneInfo.t)
| JSON
| JSONB
| Text
| String (len : option N)
| Bytea
| Enum (members : list string)
| Set_ (members : list string)
| Other (name : string).
End DataType.

(** [Expr]: the engine only accepts [Expr::Value]; any other expression
    (an identifier, a function call, a unary minus in front of a number,
    ...) is [Other]. *)
Module Expr.
Inductive t : Type :=
| Value (v : Value.t)
| Other (what : string).
End Expr.

Module ReferentialAction.
Inductive t : Type := Restrict | Cascade | SetNull | NoAction | SetDefault.
End ReferentialAction.

(** [sqlparser::tokenizer::Token], as far as [DialectSpecific] options go. *)
Module Token.
Inductive t : Type :=
| Word (w : string)
| Other (what : string).
End Token.

(** [ColumnOption] *)
Module ColumnOption.
Inductive t : Type :=
| Null
| NotNull
| Default (e : Expr.t)
| Unique (is_primary : bool)
| ForeignKey (foreign_table : ObjectName) (referred_columns : list Ident)
    (on_delete on_update : option ReferentialAction.t)
| OnUpdate (e : Expr.t)
| DialectSpecific (tokens : list Token.t)
| Other (what : string).
End ColumnOption.

(** [ColumnOptionDef { name, option }]; the field [option] is [column_option]
    here, [option] being the type of optional values. *)
Record ColumnOptionDef := { option_name : option Ident; column_option : ColumnOption.t }.

Record ColumnDef := {
  col_name : Ident;
  data_type : DataType.t;
  options : list ColumnOptionDef
}.

(** Table-level constraints ([PRIMARY KEY (a, b)], [UNIQUE (c)], ...). *)
Module TableConstraint.
Inductive t : Type :=
| Unique (columns : list Ident) (is_primary : bool)
| Other (what : string).
End TableConstraint.

Module SelectItem.
Inductive t : Type :=
| UnnamedExpr (e : Expr.t)
| ExprWithAlias (e : Expr.t) (alias : Ident)
| QualifiedWildcard (name : ObjectName)
| Wildcard.
End SelectItem.

Module TableFactor.
Inductive t : Type :=
| Table (name : ObjectName)
| Other (what : string).
End TableFactor.

Record TableWithJoins := { relation : TableFactor.t; joins : list TableFactor.t }.

Record Select := {
  distinct : bool;
  projection : list SelectItem.t;
  from : list TableWithJoins;
  selection : option Expr.t
}.

(** [SetExpr]: a [SELECT], a [VALUES] list, or something else
    ([UNION], a parenthesised query, ...). *)
Module SetExpr.
Inductive t : Type :=
| Select (s : Select)
| Values (rows : list (list Expr.t))
| Other (what : string).
End SetExpr.

Record Query := {
  body : SetExpr.t;
  order_by : list Expr.t;
  limit : option Expr.t
}.

(** [Statement] *)
Module Statement.
Inductive t : Type :=
| CreateTable (name : ObjectName) (columns : list ColumnDef)
    (constraints : list TableConstraint.t) (if_not_exists : bool)
| Insert (table_name : ObjectName) (columns : list Ident) (source : option Query)
| Query (q : Query)
| Other (what : string).
End Statement.
