(* ===== verification/RustNum.v ===== *)
(** * Number parsing of the Rust core library

    [validators.rs] decides numeric literals with [str::parse::<f64>],
    [str::parse::<i64>] and [str::parse::<u64>] and only looks at whether
    the result is [Ok].  This file models those three functions as the Rust
    core library defines them:

    - [parse_f64_ok]: [core::num::dec2flt]: an optional sign, then either a
      decimal number ([parse_number]: digits, an optional dot with digits,
      at least one digit in all, an optional exponent with at least one
      digit, nothing left over) or one of [inf], [infinity], [nan] in any
      case ([parse_inf_nan], which compares the bytes with bit 5 cleared).
      A float literal never fails for being too large (it becomes
      infinity), so there is no range check.
    - [from_str_radix10]: [from_str_radix] at radix 10, with its loop of
      [checked_mul] and [checked_add] (or [checked_sub] for a negative
      number), which fails as soon as an intermediate result leaves the
      type's range.  [int_value_spec] is the reference definition (the
      literal's value, then one range check) and [from_str_radix10_spec]
      proves the loop equal to it. *)

From S2P Require Import Prelude.
From Stdlib Require Import Ascii.

Local Open Scope Z_scope.

Definition i64_min : Z := - 2 ^ 63.
Definition i64_max : Z := 2 ^ 63 - 1.
Definition u64_max : Z := 2 ^ 64 - 1.

(** ** Floats: [dec2flt] *)

Definition is_char (c : ascii) (a : ascii) : bool := Ascii.eqb a c.

(** [s.parse_digits(..)]: the number of leading ASCII digits and the rest. *)
Fixpoint take_digits (s : list ascii) : nat * list ascii :=
  match s with
  | c :: s' => if is_digit c then let '(n, r) := take_digits s' in (S n, r) else (O, s)
  | [] => (O, [])
  end.

(** [parse_scientific]: after the [e]: an optional sign and at least one
    digit. *)
Definition parse_scientific (s : list ascii) : option (list ascii) :=
  let s := match s with
           | c :: s' => if is_char "-" c || is_char "+" c then s' else s
           | [] => []
           end in
  match s with
  | c :: _ => if is_digit c then Some (take_digits s).2 else None
  | [] => None
  end.

(** [parse_partial_number] followed by the check of [parse_number] that
    the whole input was consumed. *)
Definition parse_number (s : list ascii) : bool :=
  let '(n_int, r1) := take_digits s in
  let '(n_frac, r2) := match r1 with
                       | c :: r => if is_char "." c then take_digits r else (O, r1)
                       | [] => (O, r1)
                       end in
  if (n_int + n_frac =? 0)%nat then false
  else match r2 with
       | [] => true
       | c :: r3 =>
           if is_char "e" c || is_char "E" c then
             match parse_scientific r3 with Some [] => true | _ => false end
           else false
       end.

(** [register &= 0xDFDF...]: clear bit 5 of a byte. *)
Definition clear_bit5 (a : ascii) : ascii :=
  ascii_of_N (N.land (N_of_ascii a) 223).

(** [parse_inf_nan]: inputs of length 3 or 8, compared after clearing bit 5. *)
Definition parse_inf_nan (s : list ascii) : bool :=
  let up := String.string_of_list_ascii (map clear_bit5 s) in
  match length s with
  | 3%nat => String.eqb up "NAN" || String.eqb up "INF"
  | 8%nat => String.eqb up "INFINITY"
  | _ => false
  end.

(** [s.parse::<f64>().is_ok()] *)
Definition parse_f64_ok (str : string) : bool :=
  match String.list_ascii_of_string str with
  | [] => false
  | c :: rest =>
      let s := if is_char "-" c || is_char "+" c then rest else c :: rest in
      match s with
      | [] => false
      | _ => parse_number s || parse_inf_nan s
      end
  end.

(** ** Integers: [from_str_radix] at radix 10 *)

(** The loop of [from_str_radix]: [result = result.checked_mul(10)?], the
    digit check, then [checked_add] (positive) or [checked_sub]
    (negative), each checked against [[lo, hi]]. *)
Fixpoint digits_loop (is_positive : bool) (lo hi acc : Z) (ds : list ascii) : option Z :=
  match ds with
  | [] => Some acc
  | c :: ds' =>
      let mul := acc * 10 in
      if negb ((lo <=? mul) && (mul <=? hi)) then None
      else if negb (is_digit c) then None
      else
        let r := if is_positive then mul + digit_value c else mul - digit_value c in
        if negb ((lo <=? r) && (r <=? hi)) then None
        else digits_loop is_positive lo hi r ds'
  end.

(** [T::from_str_radix(src, 10)] for a type with range [[lo, hi]];
    [is_signed_ty] decides whether a leading [-] is a sign. *)
Definition from_str_radix10 (is_signed_ty : bool) (lo hi : Z) (src : string) : option Z :=
  match String.list_ascii_of_string src with
  | [] => None
  | c :: rest =>
      if (is_char "+" c || is_char "-" c) && bool_decide (rest = []) then None
      else if is_char "+" c then digits_loop true lo hi 0 rest
      else if is_char "-" c && is_signed_ty then digits_loop false lo hi 0 rest
      else digits_loop true lo hi 0 (c :: rest)
  end.

Definition parse_i64 (s : string) : option Z := from_str_radix10 true i64_min i64_max s.
Definition parse_u64 (s : string) : option Z := from_str_radix10 false 0 u64_max s.

(** ** Reference definition *)

(** The value of a digit string read after [acc]. *)
Fixpoint digits_value (acc : Z) (ds : list ascii) : Z :=
  match ds with
  | [] => acc
  | c :: ds' => digits_value (acc * 10 + digit_value c) ds'
  end.

Definition in_range (lo hi v : Z) : option Z :=
  if (lo <=? v) && (v <=? hi) then Some v else None.

(** The literal is a sign (when allowed) followed by one or more digits;
    its value is then checked once against the range. *)
Definition int_value_spec (is_signed_ty : bool) (lo hi : Z) (src : string) : option Z :=
  let s := String.list_ascii_of_string src in
  let '(pos, ds) :=
    match s with
    | c :: rest =>
        if is_char "+" c then (true, rest)
        else if is_char "-" c && is_signed_ty then (false, rest)
        else (true, s)
    | [] => (true, [])
    end in
  if bool_decide (ds = []) || negb (forallb is_digit ds) then None
  else in_range lo hi (if pos then digits_value 0 ds else - digits_value 0 ds).

(** ** The checked loop computes the reference value *)

Definition sg (is_positive : bool) (v : Z) : Z := if is_positive then v else - v.

Lemma digit_value_bounds c : is_digit c = true → 0 ≤ digit_value c ≤ 9.
Proof.
  unfold is_digit, digit_value. intros H.
  apply andb_true_iff in H as [H1 H2]. apply Nat.leb_le in H1, H2. lia.
Qed.

Lemma digits_value_ge a ds :
  0 ≤ a → forallb is_digit ds = true → a ≤ digits_value a ds.
Proof.
  revert a. induction ds as [|c ds IH]; intros a Ha Hd; simpl in *; [lia|].
  apply andb_true_iff in Hd as [Hc Hd]. pose proof (digit_value_bounds c Hc).
  specialize (IH (a * 10 + digit_value c) ltac:(lia) Hd). lia.
Qed.

(** Once the magnitude leaves the range it stays out: the loop may stop at
    the first overflow. *)
Lemma in_range_sg_mono lo hi pos x y :
  lo ≤ 0 ≤ hi → 0 ≤ x ≤ y → (lo <=? sg pos x) && (sg pos x <=? hi) = false →
  in_range lo hi (sg pos y) = None.
Proof.
  unfold in_range, sg. intros Hlh Hxy. destruct pos; zleb_cases; simpl; done || lia.
Qed.

Lemma digits_loop_spec pos lo hi a ds :
  lo ≤ 0 ≤ hi → 0 ≤ a → lo ≤ sg pos a ≤ hi →
  digits_loop pos lo hi (sg pos a) ds =
  if forallb is_digit ds then in_range lo hi (sg pos (digits_value a ds)) else None.
Proof.
  revert a. induction ds as [|c ds IH]; intros a Hlh Ha Hin; simpl.
  { unfold in_range. by rewrite (proj2 (andb_true_iff _ _)) by (split; apply Z.leb_le; lia). }
  assert (Hmul : sg pos a * 10 = sg pos (a * 10)) by (unfold sg; destruct pos; lia).
  rewrite Hmul.
  destruct ((lo <=? sg pos (a * 10)) && (sg pos (a * 10) <=? hi)) eqn:Hm; simpl.
  2:{ destruct (is_digit c) eqn:Hc; simpl; [|done].
      destruct (forallb is_digit ds) eqn:Hd; [|done].
      pose proof (digit_value_bounds c Hc).
      pose proof (digits_value_ge (a * 10 + digit_value c) ds ltac:(lia) Hd).
      symmetry; apply (in_range_sg_mono _ _ _ (a * 10)); [lia|lia|done]. }
  destruct (is_digit c) eqn:Hc; simpl; [|done].
  pose proof (digit_value_bounds c Hc).
  assert (Hr : (if pos then sg pos (a * 10) + digit_value c
                else sg pos (a * 10) - digit_value c) = sg pos (a * 10 + digit_value c))
    by (unfold sg; destruct pos; lia).
  rewrite Hr.
  destruct ((lo <=? sg pos (a * 10 + digit_value c)) &&
            (sg pos (a * 10 + digit_value c) <=? hi)) eqn:Hs; simpl.
  - apply andb_true_iff in Hs as [Hs1 Hs2]. apply Z.leb_le in Hs1, Hs2.
    apply IH; lia.
  - destruct (forallb is_digit ds) eqn:Hd; [|done].
    pose proof (digits_value_ge (a * 10 + digit_value c) ds ltac:(lia) Hd).
    symmetry; apply (in_range_sg_mono _ _ _ (a * 10 + digit_value c)); [lia|lia|done].
Qed.

(** [from_str_radix] at radix 10 accepts exactly the optionally signed
    digit strings whose value is in the type's range, and returns that
    value. *)
Lemma from_str_radix10_spec signed lo hi src :
  lo ≤ 0 ≤ hi → from_str_radix10 signed lo hi src = int_value_spec signed lo hi src.
Proof.
  intros Hlh. unfold from_str_radix10, int_value_spec.
  destruct (String.list_ascii_of_string src) as [|c rest]; [done|].
  pose proof (digits_loop_spec true lo hi 0 rest Hlh ltac:(lia) ltac:(simpl; lia)) as Hp.
  pose proof (digits_loop_spec false lo hi 0 rest Hlh ltac:(lia) ltac:(simpl; lia)) as Hn.
  pose proof (digits_loop_spec true lo hi 0 (c :: rest) Hlh ltac:(lia) ltac:(simpl; lia)) as Hc.
  change (sg true 0) with 0 in Hp, Hc. change (sg false 0) with 0 in Hn.
  cbn [sg] in Hp, Hn, Hc.
  destruct (is_char "+" c) eqn:Hplus, (is_char "-" c) eqn:Hminus, signed; cbn [orb andb negb];
    rewrite ?Hp, ?Hn, ?Hc; case_bool_decide as Hr; subst; try done;
    rewrite ?bool_decide_false by done; cbn [orb negb];
    try match goal with |- context [forallb is_digit ?l] => by destruct (forallb is_digit l) end.
  apply Ascii.eqb_eq in Hminus. by subst.
Qed.

(** The two instances the validators use. *)
Lemma parse_u64_spec s : parse_u64 s = int_value_spec false 0 u64_max s.
Proof. apply from_str_radix10_spec. unfold u64_max. lia. Qed.

Lemma parse_i64_spec s : parse_i64 s = int_value_spec true i64_min i64_max s.
Proof. apply from_str_radix10_spec. unfold i64_min, i64_max. lia. Qed.
