(* ===== verification/Chrono.v ===== *)
(** * Date and time parsing of the [chrono] crate

    [validate_value_for_date_string_general] ([validators.rs]) calls
    [NaiveDate::parse_from_str], [NaiveTime::parse_from_str] and
    [NaiveDateTime::parse_from_str] with four constant format strings and
    keeps only [is_ok()].  chrono works in two phases, both modelled here:

    - [strftime_items]: [StrftimeItems] turns the format string into items:
      a [%] followed by [Y m d H M S] is a numeric item, a whitespace
      character is a [Space], any other character a [Literal], and a [%]
      followed by anything else is an [Error] item.  (chrono knows more
      specifiers than these six; the four format strings of the source use
      only these, plus [%2f], which chrono does not know: [%3f], [%6f],
      [%9f] exist, [%2f] does not.)
    - [parse_items]: [format::parse] consumes the input item by item: a
      literal must match, a space skips any leading whitespace, a numeric
      item skips leading whitespace and reads between 1 and its width of
      digits ([scan::number]; a year may instead carry a sign and then any
      number of digits), an [Error] item fails with [BAD_FORMAT]; input left
      over fails with [TOO_LONG].
    - [to_naive_date] and [to_naive_time]: the parsed fields must form a
      calendar date ([NaiveDate::from_ymd_opt], Gregorian leap years, years
      in [[-262144, 262143]]) or a time of day (hour below 24, minute below
      60, second at most 60, 60 being a leap second).

    The printer [pad_digits] and the texts [iso_date], [iso_time] and
    [iso_datetime] describe the strings the three valid formats are meant
    for; [naive_date_iso], [naive_time_iso] and [naive_datetime_iso] show
    that parsing such a text gives back its fields, so that the verdict is
    the calendar's. *)

From S2P Require Import Prelude RustNum.
From Stdlib Require Import Ascii.

Local Open Scope Z_scope.

Inductive Numeric := Year | Month | Day | Hour | Minute | Second.

Inductive Item :=
| Literal (c : ascii)
| Space
| Num (n : Numeric)
| Error.

Definition is_whitespace (a : ascii) : bool :=
  let n := nat_of_ascii a in
  (n =? 32)%nat || ((9 <=? n) && (n <=? 13))%nat.

Definition spec_item (a : ascii) : Item :=
  if is_char "Y" a then Num Year
  else if is_char "m" a then Num Month
  else if is_char "d" a then Num Day
  else if is_char "H" a then Num Hour
  else if is_char "M" a then Num Minute
  else if is_char "S" a then Num Second
  else Error.

(** [StrftimeItems::new(fmt)] *)
Fixpoint strftime_items (fmt : list ascii) : list Item :=
  match fmt with
  | [] => []
  | a :: rest =>
      if is_char "%" a then
        match rest with
        | [] => [Error]
        | b :: rest' => spec_item b :: strftime_items rest'
        end
      else if is_whitespace a then Space :: strftime_items rest
      else Literal a :: strftime_items rest
  end.

(** [chrono::format::Parsed], the fields these formats can set. *)
Record Parsed := {
  year : option Z; month : option Z; day : option Z;
  hour : option Z; minute : option Z; second : option Z
}.

Definition parsed_empty : Parsed := Build_Parsed None None None None None None.

(** [Parsed::set_*]: store the value (each field is set once by these
    formats); the year must fit an [i32]. *)
Definition set_field (n : Numeric) (v : Z) (p : Parsed) : option Parsed :=
  match n with
  | Year => if (- 2 ^ 31 <=? v) && (v <? 2 ^ 31)
            then Some (Build_Parsed (Some v) p.(month) p.(day) p.(hour) p.(minute) p.(second))
            else None
  | Month => Some (Build_Parsed p.(year) (Some v) p.(day) p.(hour) p.(minute) p.(second))
  | Day => Some (Build_Parsed p.(year) p.(month) (Some v) p.(hour) p.(minute) p.(second))
  | Hour => Some (Build_Parsed p.(year) p.(month) p.(day) (Some v) p.(minute) p.(second))
  | Minute => Some (Build_Parsed p.(year) p.(month) p.(day) p.(hour) (Some v) p.(second))
  | Second => Some (Build_Parsed p.(year) p.(month) p.(day) p.(hour) p.(minute) (Some v))
  end.

(** [s.trim_start()] *)
Fixpoint trim_start (s : list ascii) : list ascii :=
  match s with
  | a :: s' => if is_whitespace a then trim_start s' else s
  | [] => []
  end.

(** The leading digits of [s], at most [k] of them, and the rest. *)
Fixpoint take_upto (k : nat) (s : list ascii) : list ascii * list ascii :=
  match k, s with
  | O, _ => ([], s)
  | S k', c :: s' =>
      if is_digit c then let '(d, r) := take_upto k' s' in (c :: d, r) else ([], s)
  | S _, [] => ([], [])
  end.

(** [scan::number(s, 1, max)]: at least one digit, at most [max] ([None]:
    unbounded); the [i64] accumulator fails on overflow. *)
Definition scan_number (s : list ascii) (max : option nat) : option (Z * list ascii) :=
  let '(ds, rest) := take_upto (default (length s) max) s in
  match ds with
  | [] => None
  | _ => v ← in_range 0 i64_max (digits_value 0 ds); Some (v, rest)
  end.

(** The numeric arm of [format::parse]: widths 4 (year, signed) and 2. *)
Definition parse_numeric (n : Numeric) (s : list ascii) : option (Z * list ascii) :=
  let s := trim_start s in
  match n with
  | Year =>
      match s with
      | c :: s' =>
          if is_char "-" c then '(v, r) ← scan_number s' None; Some (- v, r)
          else if is_char "+" c then scan_number s' None
          else scan_number s (Some 4%nat)
      | [] => None
      end
  | _ => scan_number s (Some 2%nat)
  end.

(** [format::parse(&mut parsed, s, items)] *)
Fixpoint parse_items (items : list Item) (s : list ascii) (p : Parsed) : option Parsed :=
  match items with
  | [] => match s with [] => Some p | _ => None end
  | Literal c :: its =>
      match s with
      | a :: s' => if Ascii.eqb a c then parse_items its s' p else None
      | [] => None
      end
  | Space :: its => parse_items its (trim_start s) p
  | Num n :: its =>
      '(v, s') ← parse_numeric n s; p' ← set_field n v p; parse_items its s' p'
  | Error :: _ => None
  end.

Definition is_leap_year (y : Z) : bool :=
  (Z.rem y 4 =? 0) && (negb (Z.rem y 100 =? 0) || (Z.rem y 400 =? 0)).

Definition days_in_month (y m : Z) : Z :=
  if m =? 2 then (if is_leap_year y then 29 else 28)
  else if (m =? 4) || (m =? 6) || (m =? 9) || (m =? 11) then 30
  else 31.

(** [NaiveDate::from_ymd_opt(y, m, d).is_some()] *)
Definition from_ymd_ok (y m d : Z) : bool :=
  (-262144 <=? y) && (y <=? 262143) && (1 <=? m) && (m <=? 12)
  && (1 <=? d) && (d <=? days_in_month y m).

(** [Parsed::to_naive_date] *)
Definition to_naive_date (p : Parsed) : bool :=
  match p.(year), p.(month), p.(day) with
  | Some y, Some m, Some d => from_ymd_ok y m d
  | _, _, _ => false
  end.

(** [Parsed::to_naive_time]: the second defaults to 0; 60 is a leap
    second. *)
Definition to_naive_time (p : Parsed) : bool :=
  match p.(hour), p.(minute) with
  | Some h, Some mi =>
      (0 <=? h) && (h <=? 23) && (0 <=? mi) && (mi <=? 59)
      && (0 <=? default 0 p.(second)) && (default 0 p.(second) <=? 60)
  | _, _ => false
  end.

Definition run_format (fmt s : string) : option Parsed :=
  parse_items (strftime_items (String.list_ascii_of_string fmt))
    (String.list_ascii_of_string s) parsed_empty.

(** [NaiveDate::parse_from_str(s, fmt).is_ok()] *)
Definition naive_date_parse_ok (s fmt : string) : bool :=
  match run_format fmt s with Some p => to_naive_date p | None => false end.

(** [NaiveTime::parse_from_str(s, fmt).is_ok()] *)
Definition naive_time_parse_ok (s fmt : string) : bool :=
  match run_format fmt s with Some p => to_naive_time p | None => false end.

(** [NaiveDateTime::parse_from_str(s, fmt).is_ok()] *)
Definition naive_datetime_parse_ok (s fmt : string) : bool :=
  match run_format fmt s with Some p => to_naive_date p && to_naive_time p | None => false end.

(** ** Printing dates and times: the strings the formats describe

    [pad_digits k n] writes the last [k] decimal digits of [n], with
    leading zeros; [iso_date], [iso_time] and [iso_datetime] are the
    texts [YYYY-MM-DD], [HH:MM:SS] and [YYYY-MM-DD HH:MM:SS]. *)

Definition digit_char (x : Z) : ascii := ascii_of_nat (48 + Z.to_nat x).

Fixpoint pad_digits (k : nat) (n : Z) : list ascii :=
  match k with
  | O => []
  | S k' => pad_digits k' (n / 10) ++ [digit_char (n mod 10)]
  end.

Definition iso_date_chars (y m d : Z) : list ascii :=
  pad_digits 4 y ++ "-"%char :: pad_digits 2 m ++ "-"%char :: pad_digits 2 d.

Definition iso_time_chars (h mi sec : Z) : list ascii :=
  pad_digits 2 h ++ ":"%char :: pad_digits 2 mi ++ ":"%char :: pad_digits 2 sec.

Definition iso_date (y m d : Z) : string := String.string_of_list_ascii (iso_date_chars y m d).

Definition iso_time (h mi sec : Z) : string := String.string_of_list_ascii (iso_time_chars h mi sec).

Definition iso_datetime (y m d h mi sec : Z) : string :=
  String.string_of_list_ascii (iso_date_chars y m d ++ " "%char :: iso_time_chars h mi sec).

Definition time_ok (h mi sec : Z) : bool :=
  (0 <=? h) && (h <=? 23) && (0 <=? mi) && (mi <=? 59) && (0 <=? sec) && (sec <=? 60).

(** ** Lemmas *)

(** An [Error] item makes the parse fail, whatever comes before it. *)
Lemma parse_items_error items s p :
  Error ∈ items → parse_items items s p = None.
Proof.
  revert s p. induction items as [|it items IH]; intros s p Hin;
    [by apply elem_of_nil in Hin|].
  apply elem_of_cons in Hin as [<-|Hin]; [done|].
  destruct it as [c| |n|]; simpl.
  - destruct s as [|a s']; [done|]. destruct (Ascii.eqb a c); [by apply IH|done].
  - by apply IH.
  - destruct (parse_numeric n s) as [[v s']|]; simpl; [|done].
    destruct (set_field n v p); simpl; [by apply IH|done].
  - done.
Qed.

(** The format string of [TIMESTAMP] contains an [Error] item ([%2f]). *)
Lemma timestamp_format_has_error :
  Error ∈ strftime_items (String.list_ascii_of_string "%Y-%m-%d %H:%M:%S.%2f").
Proof. vm_compute. set_solver. Qed.

(** ** Printing then parsing *)

Lemma nat_of_digit_char x : 0 ≤ x ≤ 9 → nat_of_ascii (digit_char x) = (48 + Z.to_nat x)%nat.
Proof. intros Hx. unfold digit_char. apply Ascii.nat_ascii_embedding. lia. Qed.

Lemma is_digit_char x : 0 ≤ x ≤ 9 → is_digit (digit_char x) = true.
Proof. intros Hx. unfold is_digit. rewrite nat_of_digit_char by done. apply andb_true_intro. split; apply Nat.leb_le; lia. Qed.

Lemma digit_value_char x : 0 ≤ x ≤ 9 → digit_value (digit_char x) = x.
Proof. intros Hx. unfold digit_value. rewrite nat_of_digit_char by done. lia. Qed.

Lemma pad_digits_length k n : length (pad_digits k n) = k.
Proof. revert n. induction k as [|k IH]; intros n; simpl; [done|]. rewrite length_app, IH. simpl. lia. Qed.

Lemma pad_digits_all_digits k n : 0 ≤ n → Forall (λ c, is_digit c = true) (pad_digits k n).
Proof.
  revert n. induction k as [|k IH]; intros n Hn; simpl; [done|].
  apply Forall_app. split; [apply IH; apply Z.div_pos; lia|].
  constructor; [|done]. apply is_digit_char. pose proof (Z.mod_pos_bound n 10). lia.
Qed.

Lemma digits_value_app acc l c : digits_value acc (l ++ [c]) = digits_value acc l * 10 + digit_value c.
Proof. revert acc. induction l as [|a l IH]; intros acc; simpl; [done|]. apply IH. Qed.

Lemma digits_value_pad k n : 0 ≤ n → digits_value 0 (pad_digits k n) = n mod 10 ^ Z.of_nat k.
Proof.
  revert n. induction k as [|k IH]; intros n Hn; simpl.
  - by rewrite Z.mod_1_r.
  - rewrite digits_value_app, IH by (apply Z.div_pos; lia).
    rewrite digit_value_char by (pose proof (Z.mod_pos_bound n 10); lia).
    rewrite Nat2Z.inj_succ, Z.pow_succ_r, Z.rem_mul_r by lia. lia.
Qed.

Lemma take_upto_digits l rest :
  Forall (λ c, is_digit c = true) l → take_upto (length l) (l ++ rest) = (l, rest).
Proof. induction 1 as [|c l Hc Hd IH]; simpl; [by destruct rest|]. by rewrite Hc, IH. Qed.

Lemma digit_not_space c : is_digit c = true → is_whitespace c = false.
Proof.
  unfold is_digit, is_whitespace. intros [H1 H2]%andb_prop.
  apply Nat.leb_le in H1, H2. apply orb_false_intro; [apply Nat.eqb_neq; lia|].
  apply andb_false_intro2. apply Nat.leb_gt. lia.
Qed.

Lemma digit_not_char c a : is_digit c = true → is_digit a = false → is_char a c = false.
Proof. unfold is_char. intros Hc Ha. destruct (Ascii.eqb_spec c a) as [->|]; [congruence|done]. Qed.

Lemma pad_digits_cons k v : (1 ≤ k)%nat → ∃ c l, pad_digits k v = c :: l.
Proof.
  intros Hk. destruct (pad_digits k v) as [|c l] eqn:E; [|eauto].
  apply (f_equal length) in E. rewrite pad_digits_length in E. simpl in E. lia.
Qed.

(** A numeric item reads a zero-padded number of its width. *)

Lemma parse_numeric_pad n k v rest :
  (n = Year ∧ k = 4%nat ∨ n ≠ Year ∧ k = 2%nat) → 0 ≤ v →
  parse_numeric n (pad_digits k v ++ rest) = Some (v mod 10 ^ Z.of_nat k, rest).
Proof.
  intros Hnk Hv. pose proof (pad_digits_all_digits k v Hv) as Hd.
  assert (Hk : (1 ≤ k)%nat) by (destruct Hnk as [[_ ->]|[_ ->]]; lia).
  destruct (pad_digits_cons k v Hk) as (c & l & Hcl).
  assert (Hc : is_digit c = true) by (rewrite Hcl in Hd; by inversion Hd).
  assert (Hscan : ∀ kk, kk = k → scan_number (pad_digits k v ++ rest) (Some kk)
                                 = Some (v mod 10 ^ Z.of_nat k, rest)).
  { intros kk ->. unfold scan_number. simpl.
    rewrite <- (pad_digits_length k v) at 1. rewrite take_upto_digits by done.
    rewrite digits_value_pad by done. rewrite Hcl. simpl. unfold in_range.
    assert (0 ≤ v mod 10 ^ Z.of_nat k < 10 ^ Z.of_nat k) by (apply Z.mod_pos_bound; lia).
    assert (10 ^ Z.of_nat k ≤ 10 ^ 4) by (apply Z.pow_le_mono_r; destruct Hnk as [[_ ->]|[_ ->]]; lia).
    unfold i64_max. rewrite (proj2 (Z.leb_le _ _)), (proj2 (Z.leb_le _ _)) by lia. done. }
  assert (Htrim : trim_start (pad_digits k v ++ rest) = pad_digits k v ++ rest).
  { rewrite Hcl. simpl. by rewrite digit_not_space. }
  unfold parse_numeric. rewrite Htrim.
  destruct Hnk as [[-> ->]|[Hn ->]].
  - rewrite Hcl at 1. simpl. rewrite !digit_not_char by done. by apply Hscan.
  - destruct n; [done|..]; by apply Hscan.
Qed.

Lemma parse_items_num n k v rest its p :
  (n = Year ∧ k = 4%nat ∨ n ≠ Year ∧ k = 2%nat) → 0 ≤ v < 10 ^ Z.of_nat k →
  parse_items (Num n :: its) (pad_digits k v ++ rest) p =
  (p' ← set_field n v p; parse_items its rest p').
Proof.
  intros Hnk Hv. cbn [parse_items]. rewrite parse_numeric_pad by (done || lia).
  rewrite Z.mod_small by lia. done.
Qed.

Lemma parse_items_lit c its rest p :
  parse_items (Literal c :: its) (c :: rest) p = parse_items its rest p.
Proof. simpl. by rewrite Ascii.eqb_refl. Qed.

Lemma set_field_year y p :
  0 ≤ y ≤ 9999 →
  set_field Year y p = Some (Build_Parsed (Some y) p.(month) p.(day) p.(hour) p.(minute) p.(second)).
Proof. intros Hy. simpl. by rewrite (proj2 (Z.leb_le _ _)), (proj2 (Z.ltb_lt _ _)) by lia. Qed.

Lemma run_date_items y m d its rest p :
  0 ≤ y ≤ 9999 → 0 ≤ m ≤ 99 → 0 ≤ d ≤ 99 →
  parse_items (Num Year :: Literal "-" :: Num Month :: Literal "-" :: Num Day :: its)
    (iso_date_chars y m d ++ rest) p
  = parse_items its rest (Build_Parsed (Some y) (Some m) (Some d) p.(hour) p.(minute) p.(second)).
Proof.
  intros Hy Hm Hd. unfold iso_date_chars. repeat (rewrite <- app_assoc || rewrite <- app_comm_cons).
  rewrite parse_items_num by (simpl; lia || (left; done)). rewrite set_field_year by done.
  cbn [mbind option_bind]. rewrite parse_items_lit.
  rewrite parse_items_num by (simpl; lia || (right; split; [done|done])). cbn [set_field mbind option_bind].
  rewrite parse_items_lit.
  rewrite parse_items_num by (simpl; lia || (right; split; [done|done])). done.
Qed.

Lemma parse_items_space_digit c its rest p :
  is_digit c = true → parse_items (Space :: its) (" "%char :: c :: rest) p = parse_items its (c :: rest) p.
Proof. intros Hc. cbn [parse_items]. simpl trim_start. by rewrite digit_not_space. Qed.

Lemma run_time_items h mi sec its rest p :
  0 ≤ h ≤ 99 → 0 ≤ mi ≤ 99 → 0 ≤ sec ≤ 99 →
  parse_items (Num Hour :: Literal ":" :: Num Minute :: Literal ":" :: Num Second :: its)
    (iso_time_chars h mi sec ++ rest) p
  = parse_items its rest (Build_Parsed p.(year) p.(month) p.(day) (Some h) (Some mi) (Some sec)).
Proof.
  intros Hh Hm Hs. unfold iso_time_chars. repeat (rewrite <- app_assoc || rewrite <- app_comm_cons).
  rewrite parse_items_num by (simpl; lia || (right; split; [done|done])). cbn [set_field mbind option_bind].
  rewrite parse_items_lit.
  rewrite parse_items_num by (simpl; lia || (right; split; [done|done])). cbn [set_field mbind option_bind].
  rewrite parse_items_lit.
  rewrite parse_items_num by (simpl; lia || (right; split; [done|done])). done.
Qed.

Lemma date_format_items :
  strftime_items (String.list_ascii_of_string "%Y-%m-%d")
  = [Num Year; Literal "-"; Num Month; Literal "-"; Num Day].
Proof. done. Qed.

Lemma time_format_items :
  strftime_items (String.list_ascii_of_string "%H:%M:%S")
  = [Num Hour; Literal ":"; Num Minute; Literal ":"; Num Second].
Proof. done. Qed.

Lemma datetime_format_items :
  strftime_items (String.list_ascii_of_string "%Y-%m-%d %H:%M:%S")
  = [Num Year; Literal "-"; Num Month; Literal "-"; Num Day; Space;
     Num Hour; Literal ":"; Num Minute; Literal ":"; Num Second].
Proof. done. Qed.

Lemma naive_date_iso y m d :
  0 ≤ y ≤ 9999 → 0 ≤ m ≤ 99 → 0 ≤ d ≤ 99 →
  naive_date_parse_ok (iso_date y m d) "%Y-%m-%d" = from_ymd_ok y m d.
Proof.
  intros Hy Hm Hd. unfold naive_date_parse_ok, run_format, iso_date.
  rewrite String.list_ascii_of_string_of_list_ascii, date_format_items.
  rewrite <- (app_nil_r (iso_date_chars y m d)), run_date_items by done. done.
Qed.

Lemma naive_time_iso h mi sec :
  0 ≤ h ≤ 99 → 0 ≤ mi ≤ 99 → 0 ≤ sec ≤ 99 →
  naive_time_parse_ok (iso_time h mi sec) "%H:%M:%S" = time_ok h mi sec.
Proof.
  intros Hh Hm Hs. unfold naive_time_parse_ok, run_format, iso_time.
  rewrite String.list_ascii_of_string_of_list_ascii, time_format_items.
  rewrite <- (app_nil_r (iso_time_chars h mi sec)), run_time_items by done. done.
Qed.

Lemma naive_datetime_iso y m d h mi sec :
  0 ≤ y ≤ 9999 → 0 ≤ m ≤ 99 → 0 ≤ d ≤ 99 → 0 ≤ h ≤ 99 → 0 ≤ mi ≤ 99 → 0 ≤ sec ≤ 99 →
  naive_datetime_parse_ok (iso_datetime y m d h mi sec) "%Y-%m-%d %H:%M:%S"
  = from_ymd_ok y m d && time_ok h mi sec.
Proof.
  intros Hy Hm Hd Hh Hmi Hs. unfold naive_datetime_parse_ok, run_format, iso_datetime.
  rewrite String.list_ascii_of_string_of_list_ascii, datetime_format_items, run_date_items by done.
  destruct (pad_digits_cons 2 h ltac:(lia)) as (c & l & Hcl).
  assert (is_digit c = true).
  { pose proof (pad_digits_all_digits 2 h ltac:(lia)) as Hdg. rewrite Hcl in Hdg. by inversion Hdg. }
  unfold iso_time_chars. rewrite Hcl, <- app_comm_cons, parse_items_space_digit, app_comm_cons, <- Hcl by done.
  fold (iso_time_chars h mi sec).
  rewrite <- (app_nil_r (iso_time_chars h mi sec)), run_time_items by done. done.
Qed.
