(* ===== verification/Json.v ===== *)
(** * JSON text recognised by [serde_json::from_str::<Value>]

    [validate_value_for_json] ([validators.rs]) accepts a string literal
    when [serde_json::from_str::<serde_json::Value>] returns [Ok].  This file
    models that deserializer as a recogniser: each function consumes a
    prefix of the input and returns the rest, or [None] for an error.

    - whitespace is space, tab, line feed and carriage return;
    - [true], [false], [null] must be spelled exactly;
    - a number is [-? (0 | [1-9][0-9]* ) (. [0-9]+)? ([eE] [+-]? [0-9]+)?]
      (a leading zero followed by a digit is an error); a number too large
      for an [f64] is an error ([NumberOutOfRange]); a number with a
      fraction or exponent, or an integer beyond [u64]/[i64], is read as an
      [f64], and it is out of range when its exact value is at least
      [2^1024 - 2^970], the least value that rounds to infinity;
    - a string is enclosed in ["]; a raw byte below [0x20] is an error; an
      escape is one of [\" \\ \/ \b \f \n \r \t] or [\uXXXX] with four hex
      digits, where a high surrogate ([D800]-[DBFF]) must be followed by
      [\uYYYY] with a low surrogate ([DC00]-[DFFF]) and a lone low
      surrogate is an error;
    - arrays and objects are comma-separated with no trailing comma; an
      object key is a string followed by [:];
    - serde_json's [remaining_depth] starts at 128 and is decremented when
      an array or object is entered; reaching 0 is [RecursionLimitExceeded];
    - after the value only whitespace may remain ([TrailingCharacters]).

    The recursion is bounded by a fuel argument.  [json_fuel], twice the
    input's length plus one, is enough: every call on an input of length
    [n] with fuel above [2n] returns what it returns with any more fuel
    ([parse_value_fuel_enough]), since entering an array or object costs
    two units of fuel and consumes one character, and each element or
    member consumes at least two (the value and a separator).  The
    recogniser accepts exactly the texts that some run, with any fuel,
    accepts ([json_from_str_ok_spec]).

    Not modelled: serde_json converts decimal literals to [f64] with an
    approximate algorithm, whose result may differ from exact rounding for
    literals within an ulp of [f64::MAX]; the exact threshold is used. *)

From S2P Require Import Prelude RustNum.
From Stdlib Require Import Ascii.

Local Open Scope Z_scope.

Definition is_json_ws (a : ascii) : bool :=
  is_char " " a || is_char "010" a || is_char "009" a || is_char "013" a.

Fixpoint skip_ws (s : list ascii) : list ascii :=
  match s with
  | a :: s' => if is_json_ws a then skip_ws s' else s
  | [] => []
  end.

(** [parse_ident]: the exact bytes of a keyword. *)
Fixpoint parse_ident (kw : list ascii) (s : list ascii) : option (list ascii) :=
  match kw, s with
  | [], _ => Some s
  | k :: kw', a :: s' => if Ascii.eqb a k then parse_ident kw' s' else None
  | _ :: _, [] => None
  end.

(** ** Numbers *)

Definition f64_overflow_threshold : Z := 2 ^ 1024 - 2 ^ 970.

(** Whether [m * 10^e] reaches the threshold, without computing huge
    powers: [m] has at most [nd] digits. *)
Definition f64_overflows (m e : Z) (nd : nat) : bool :=
  if m =? 0 then false
  else if 309 <=? e then true
  else if e <? 0 then
    if Z.of_nat nd <=? - e then false
    else f64_overflow_threshold * 10 ^ (- e) <=? m
  else f64_overflow_threshold <=? m * 10 ^ e.

(** The optional exponent sign and its digits: the exponent's value. *)
Definition parse_exponent (s : list ascii) : option (Z * list ascii) :=
  let '(neg, s) := match s with
                   | c :: s' => if is_char "-" c then (true, s')
                                else if is_char "+" c then (false, s') else (false, s)
                   | [] => (false, [])
                   end in
  let '(n, rest) := take_digits s in
  if (n =? 0)%nat then None
  else let v := digits_value 0 (take n s) in Some (if neg then - v else v, rest).

(** [parse_number] of serde_json (after an optional [-]). *)
Definition parse_json_number (neg : bool) (s : list ascii) : option (list ascii) :=
  let '(n_int, r1) := take_digits s in
  let int_digits := take n_int s in
  if (n_int =? 0)%nat then None
  else if (1 <? n_int)%nat && is_char "0" (hd "0"%char int_digits) then None
  else
    let '(frac_digits, r2, has_frac) :=
      match r1 with
      | c :: r => if is_char "." c then
                    let '(k, r') := take_digits r in (take k r, r', true)
                  else ([], r1, false)
      | [] => ([], r1, false)
      end in
    if has_frac && bool_decide (frac_digits = []) then None
    else
      let '(exp, r3, has_exp) :=
        match r2 with
        | c :: r => if is_char "e" c || is_char "E" c then
                      match parse_exponent r with
                      | Some (e, r') => (Some e, r', true)
                      | None => (None, r, true)
                      end
                    else (Some 0, r2, false)
        | [] => (Some 0, r2, false)
        end in
      match exp with
      | None => None
      | Some e =>
          let m := digits_value 0 (int_digits ++ frac_digits) in
          let is_int := negb has_frac && negb has_exp in
          let fits := if neg then m <=? 2 ^ 63 else m <=? u64_max in
          if is_int && fits then Some r3
          else if f64_overflows m (e - Z.of_nat (length frac_digits))
                    (length (int_digits ++ frac_digits))
          then None else Some r3
      end.

(** ** Strings *)

Definition hex_value (a : ascii) : option Z :=
  let n := Z.of_nat (nat_of_ascii a) in
  if (48 <=? n) && (n <=? 57) then Some (n - 48)
  else if (65 <=? n) && (n <=? 70) then Some (n - 55)
  else if (97 <=? n) && (n <=? 102) then Some (n - 87)
  else None.

(** [decode_hex_escape]: four hex digits. *)
Definition decode_hex4 (s : list ascii) : option (Z * list ascii) :=
  match s with
  | a :: b :: c :: d :: r =>
      va ← hex_value a; vb ← hex_value b; vc ← hex_value c; vd ← hex_value d;
      Some (((va * 16 + vb) * 16 + vc) * 16 + vd, r)
  | _ => None
  end.

(** The escape after [\u]. *)
Definition parse_unicode_escape (s : list ascii) : option (list ascii) :=
  '(n, r) ← decode_hex4 s;
  if (56320 <=? n) && (n <=? 57343) then None
  else if (55296 <=? n) && (n <=? 56319) then
    match r with
    | b :: u :: r' =>
        if is_char "\" b && is_char "u" u then
          '(n2, r'') ← decode_hex4 r';
          if (56320 <=? n2) && (n2 <=? 57343) then Some r'' else None
        else None
    | _ => None
    end
  else Some r.

Definition simple_escape (a : ascii) : bool :=
  is_char "034" a || is_char "\" a || is_char "/" a || is_char "b" a
  || is_char "f" a || is_char "n" a || is_char "r" a || is_char "t" a.

(** The body of a string after the opening quote, up to and including the
    closing quote. *)
Fixpoint parse_str_body (fuel : nat) (s : list ascii) : option (list ascii) :=
  match fuel with
  | O => None
  | S fuel' =>
      match s with
      | [] => None
      | a :: r =>
          if is_char "034" a then Some r
          else if is_char "\" a then
            match r with
            | e :: r' =>
                if simple_escape e then parse_str_body fuel' r'
                else if is_char "u" e then
                  r'' ← parse_unicode_escape r'; parse_str_body fuel' r''
                else None
            | [] => None
            end
          else if (nat_of_ascii a <? 32)%nat then None
          else parse_str_body fuel' r
      end
  end.

(** ** Values *)

(** [parse_value fuel depth s]: one JSON value after optional whitespace;
    [depth] is serde_json's [remaining_depth]. *)
Fixpoint parse_value (fuel depth : nat) (s : list ascii) {struct fuel} : option (list ascii) :=
  match fuel with
  | O => None
  | S fuel' =>
      match skip_ws s with
      | [] => None
      | a :: r =>
          if is_char "n" a then parse_ident ["u"; "l"; "l"]%char r
          else if is_char "t" a then parse_ident ["r"; "u"; "e"]%char r
          else if is_char "f" a then parse_ident ["a"; "l"; "s"; "e"]%char r
          else if is_char "-" a then parse_json_number true r
          else if is_digit a then parse_json_number false (a :: r)
          else if is_char "034" a then parse_str_body (S (length r)) r
          else if is_char "[" a then
            let depth' := Nat.pred depth in
            if (depth' =? 0)%nat then None
            else match skip_ws r with
                 | b :: r' => if is_char "]" b then Some r' else parse_elems fuel' depth' r
                 | [] => None
                 end
          else if is_char "{" a then
            let depth' := Nat.pred depth in
            if (depth' =? 0)%nat then None
            else match skip_ws r with
                 | b :: r' => if is_char "}" b then Some r' else parse_members fuel' depth' r
                 | [] => None
                 end
          else None
      end
  end
(** Array elements: a value, then [,] and more elements or [\]]. *)
with parse_elems (fuel depth : nat) (s : list ascii) {struct fuel} : option (list ascii) :=
  match fuel with
  | O => None
  | S fuel' =>
      r ← parse_value fuel' depth s;
      match skip_ws r with
      | b :: r' =>
          if is_char "," b then parse_elems fuel' depth r'
          else if is_char "]" b then Some r'
          else None
      | [] => None
      end
  end
(** Object members: a string key, [:], a value, then [,] and more members
    or [}]. *)
with parse_members (fuel depth : nat) (s : list ascii) {struct fuel} : option (list ascii) :=
  match fuel with
  | O => None
  | S fuel' =>
      match skip_ws s with
      | q :: r =>
          if is_char "034" q then
            r1 ← parse_str_body (S (length r)) r;
            match skip_ws r1 with
            | c :: r2 =>
                if is_char ":" c then
                  r3 ← parse_value fuel' depth r2;
                  match skip_ws r3 with
                  | b :: r4 =>
                      if is_char "," b then parse_members fuel' depth r4
                      else if is_char "}" b then Some r4
                      else None
                  | [] => None
                  end
                else None
            | [] => None
            end
          else None
      | [] => None
      end
  end.

Definition json_fuel (s : list ascii) : nat := S (2 * length s).

(** [serde_json::from_str::<Value>(s).is_ok()]: a value, then only
    whitespace. *)
Definition json_from_str_ok (str : string) : bool :=
  let s := String.list_ascii_of_string str in
  match parse_value (json_fuel s) 128 s with
  | Some r => bool_decide (skip_ws r = [])
  | None => false
  end.

(** ** Consumption and fuel *)

Local Close Scope Z_scope.

Lemma skip_ws_length s : length (skip_ws s) ≤ length s.
Proof. induction s as [|a s IH]; simpl; [lia|]. destruct (is_json_ws a); simpl; lia. Qed.

Lemma take_digits_length s n r : take_digits s = (n, r) → length r + n = length s.
Proof.
  revert n r. induction s as [|c s IH]; intros n r; simpl; [intros [=]; subst; simpl; lia|].
  destruct (is_digit c); [|intros [=]; subst; simpl; lia].
  destruct (take_digits s) as [k r'] eqn:Ht. intros [=]; subst. specialize (IH _ _ eq_refl). lia.
Qed.

Lemma parse_ident_length kw s r : parse_ident kw s = Some r → length r ≤ length s.
Proof.
  revert s. induction kw as [|k kw IH]; intros s H; simpl in H.
  - injection H as <-. lia.
  - destruct s as [|a s]; [done|]. destruct (Ascii.eqb a k); [|done]. apply IH in H. simpl. lia.
Qed.

Lemma parse_exponent_length s e r : parse_exponent s = Some (e, r) → length r ≤ length s.
Proof.
  unfold parse_exponent. intros H.
  assert (∃ neg s1, (match s with
                     | c :: s' => if is_char "-" c then (true, s')
                                  else if is_char "+" c then (false, s') else (false, s)
                     | [] => (false, [])
                     end) = (neg, s1) ∧ length s1 ≤ length s) as (neg & s1 & Hs & Hl).
  { destruct s as [|c s']; [by exists false, []|].
    destruct (is_char "-" c); [eexists _, _; split; [done|simpl; lia]|].
    destruct (is_char "+" c); eexists _, _; (split; [done|simpl; lia]). }
  rewrite Hs in H. destruct (take_digits s1) as [n r'] eqn:Ht.
  destruct (n =? 0)%nat; simplify_eq. apply take_digits_length in Ht. lia.
Qed.

Ltac length_facts :=
  repeat match goal with
  | H : take_digits _ = (_, _) |- _ => apply take_digits_length in H
  | H : parse_exponent _ = Some (_, _) |- _ => apply parse_exponent_length in H
  end.

Lemma parse_json_number_length neg s r : parse_json_number neg s = Some r → length r < length s.
Proof.
  unfold parse_json_number. intros H. repeat (case_match; simplify_eq/=); length_facts;
    rewrite ?Nat.eqb_eq, ?Nat.eqb_neq in *; simpl in *; lia.
Qed.

Lemma decode_hex4_length s n r : decode_hex4 s = Some (n, r) → length r < length s.
Proof.
  destruct s as [|a [|b [|c [|d r']]]]; simpl; try done.
  destruct (hex_value a), (hex_value b), (hex_value c), (hex_value d); simpl; intros; simplify_eq/=; lia.
Qed.

Lemma parse_unicode_escape_length s r : parse_unicode_escape s = Some r → length r < length s.
Proof.
  unfold parse_unicode_escape. intros H.
  destruct (decode_hex4 s) as [[n r1]|] eqn:H1; simpl in H; [|done].
  apply decode_hex4_length in H1.
  repeat (case_match; simplify_eq/=); try lia.
  destruct (decode_hex4 _) as [[n2 r2]|] eqn:Hd2; simpl in H; [|done].
  apply decode_hex4_length in Hd2. repeat (case_match; simplify_eq/=); simpl in *; lia.
Qed.

Lemma parse_str_body_length f s r : parse_str_body f s = Some r → length r < length s.
Proof.
  revert s. induction f as [|f IH]; intros s H; simpl in H; [done|].
  repeat (case_match || match goal with H : context [?m ≫= _] |- _ =>
                                   let E := fresh "E" in destruct m eqn:E end; simplify_eq/=);
    repeat match goal with
    | H : parse_str_body _ _ = Some _ |- _ => apply IH in H
    | H : parse_unicode_escape _ = Some _ |- _ => apply parse_unicode_escape_length in H
    end; simpl in *; lia.
Qed.

Local Arguments is_char : simpl never.
Local Arguments is_digit : simpl never.
Local Arguments is_json_ws : simpl never.

Section Step.
Variable f : nat.
Hypothesis IHv : ∀ d s r, parse_value f d s = Some r → length r < length s.
Hypothesis IHe : ∀ d s r, parse_elems f d s = Some r → length r < length s.
Hypothesis IHm : ∀ d s r, parse_members f d s = Some r → length r < length s.

Lemma parse_value_length_step d s r : parse_value (S f) d s = Some r → length r < length s.
Proof.
  cbn [parse_value]. pose proof (skip_ws_length s) as L.
  destruct (skip_ws s) as [|a t]; [done|]. simpl in L.
  repeat match goal with |- context [if ?b then _ else _] => destruct b end;
    try (intros H; (apply parse_ident_length in H || apply parse_json_number_length in H
                    || apply parse_str_body_length in H); simpl in *; lia);
    try done.
  all: pose proof (skip_ws_length t) as L'; destruct (skip_ws t) as [|b t'] eqn:E; [done|];
    simpl in L'; destruct (is_char _ b); [intros [=]; subst; lia|].
  - intros ?%IHe. lia.
  - intros ?%IHm. lia.
Qed.

Lemma parse_elems_length_step d s r : parse_elems (S f) d s = Some r → length r < length s.
Proof.
  cbn [parse_elems]. destruct (parse_value f d s) as [t|] eqn:Hv; simpl; [|done].
  apply IHv in Hv. pose proof (skip_ws_length t) as L.
  destruct (skip_ws t) as [|b t']; [done|]. simpl in L.
  destruct (is_char _ b); [intros ?%IHe; lia|].
  destruct (is_char _ b); [intros [=]; subst; lia|done].
Qed.

Lemma parse_members_length_step d s r : parse_members (S f) d s = Some r → length r < length s.
Proof.
  cbn [parse_members]. pose proof (skip_ws_length s) as L.
  destruct (skip_ws s) as [|q t]; [done|]. simpl in L.
  destruct (is_char _ q); [|done].
  destruct (parse_str_body _ t) as [t1|] eqn:Hs; simpl; [|done].
  apply parse_str_body_length in Hs. pose proof (skip_ws_length t1) as L1.
  destruct (skip_ws t1) as [|c t2]; [done|]. simpl in L1.
  destruct (is_char _ c); [|done].
  destruct (parse_value f d t2) as [t3|] eqn:Hv; simpl; [|done].
  apply IHv in Hv. pose proof (skip_ws_length t3) as L3.
  destruct (skip_ws t3) as [|b t4]; [done|]. simpl in L3.
  destruct (is_char _ b); [intros ?%IHm; lia|].
  destruct (is_char _ b); [intros [=]; subst; lia|done].
Qed.
End Step.

Lemma parse_value_length f :
  (∀ d s r, parse_value f d s = Some r → length r < length s)
  ∧ (∀ d s r, parse_elems f d s = Some r → length r < length s)
  ∧ (∀ d s r, parse_members f d s = Some r → length r < length s).
Proof.
  induction f as [|f (IHv & IHe & IHm)]; [done|].
  split; [|split]; intros d s r.
  - by apply parse_value_length_step.
  - by apply parse_elems_length_step.
  - by apply parse_members_length_step.
Qed.

Lemma parse_str_body_fuel f s : length s < f → parse_str_body (S f) s = parse_str_body f s.
Proof.
  revert s. induction f as [|f IH]; intros s Hl; [lia|].
  cbn [parse_str_body]. destruct s as [|a t]; [done|]. simpl in Hl.
  destruct (is_char _ a); [done|]. destruct (is_char _ a).
  - destruct t as [|e t']; [done|]. simpl in Hl.
    destruct (simple_escape e); [apply IH; lia|]. destruct (is_char _ e); [|done].
    destruct (parse_unicode_escape t') as [t''|] eqn:Hu; simpl; [|done].
    apply parse_unicode_escape_length in Hu. apply IH. lia.
  - destruct (_ <? 32)%nat; [done|]. apply IH. lia.
Qed.

Lemma parse_elems_S f d s :
  parse_elems (S f) d s =
  r ← parse_value f d s;
  match skip_ws r with
  | b :: r' => if is_char "," b then parse_elems f d r' else if is_char "]" b then Some r' else None
  | [] => None
  end.
Proof. done. Qed.

Lemma parse_members_S f d s :
  parse_members (S f) d s =
  match skip_ws s with
  | q :: r =>
      if is_char "034" q then
        r1 ← parse_str_body (S (length r)) r;
        match skip_ws r1 with
        | c :: r2 =>
            if is_char ":" c then
              r3 ← parse_value f d r2;
              match skip_ws r3 with
              | b :: r4 => if is_char "," b then parse_members f d r4
                           else if is_char "}" b then Some r4 else None
              | [] => None
              end
            else None
        | [] => None
        end
      else None
  | [] => None
  end.
Proof. done. Qed.

Section StableStep.
Variable f : nat.
Hypothesis IHv : ∀ d s, 2 * length s < f → parse_value (S f) d s = parse_value f d s.
Hypothesis IHe : ∀ d s, 2 * length s + 1 < f → parse_elems (S f) d s = parse_elems f d s.
Hypothesis IHm : ∀ d s, 2 * length s + 1 < f → parse_members (S f) d s = parse_members f d s.

Lemma parse_value_fuel_step d s :
  2 * length s < S f → parse_value (S (S f)) d s = parse_value (S f) d s.
Proof.
  intros Hl. cbn [parse_value]. pose proof (skip_ws_length s) as L.
  destruct (skip_ws s) as [|a t]; [done|]. simpl in L.
  repeat match goal with |- context [if ?b then _ else _] => destruct b end; try done.
  all: destruct (skip_ws t) as [|b t']; [done|]; destruct (is_char _ b); [done|].
  - apply IHe. lia.
  - apply IHm. lia.
Qed.

Lemma parse_elems_fuel_step d s :
  2 * length s + 1 < S f → parse_elems (S (S f)) d s = parse_elems (S f) d s.
Proof.
  intros Hl. rewrite !parse_elems_S, IHv by lia.
  destruct (parse_value f d s) as [t|] eqn:Hv; cbn [mbind option_bind]; [|done].
  apply (proj1 (parse_value_length f)) in Hv. pose proof (skip_ws_length t) as L.
  destruct (skip_ws t) as [|b t']; [done|]. simpl in L.
  destruct (is_char _ b); [|done]. apply IHe. lia.
Qed.

Lemma parse_members_fuel_step d s :
  2 * length s + 1 < S f → parse_members (S (S f)) d s = parse_members (S f) d s.
Proof.
  intros Hl. rewrite !parse_members_S. pose proof (skip_ws_length s) as L.
  destruct (skip_ws s) as [|q t]; [done|]. simpl in L.
  destruct (is_char _ q); [|done].
  destruct (parse_str_body _ t) as [t1|] eqn:Hs; cbn [mbind option_bind]; [|done].
  apply parse_str_body_length in Hs. pose proof (skip_ws_length t1) as L1.
  destruct (skip_ws t1) as [|c t2]; [done|]. simpl in L1.
  destruct (is_char _ c); [|done]. rewrite IHv by lia.
  destruct (parse_value f d t2) as [t3|] eqn:Hv; cbn [mbind option_bind]; [|done].
  apply (proj1 (parse_value_length f)) in Hv. pose proof (skip_ws_length t3) as L3.
  destruct (skip_ws t3) as [|b t4]; [done|]. simpl in L3.
  destruct (is_char _ b); [|done]. apply IHm. lia.
Qed.
End StableStep.

Lemma parse_fuel_stable f :
  (∀ d s, 2 * length s < f → parse_value (S f) d s = parse_value f d s)
  ∧ (∀ d s, 2 * length s + 1 < f → parse_elems (S f) d s = parse_elems f d s)
  ∧ (∀ d s, 2 * length s + 1 < f → parse_members (S f) d s = parse_members f d s).
Proof.
  induction f as [|f (IHv & IHe & IHm)]; [repeat split; intros; lia|].
  split; [|split]; intros d s.
  - by apply parse_value_fuel_step.
  - by apply parse_elems_fuel_step.
  - by apply parse_members_fuel_step.
Qed.



Lemma parse_str_body_mono f s r : parse_str_body f s = Some r → parse_str_body (S f) s = Some r.
Proof.
  revert s. induction f as [|f IH]; intros s H; [done|].
  cbn [parse_str_body] in H |- *. destruct s as [|a t]; [done|].
  destruct (is_char _ a); [done|]. destruct (is_char _ a).
  - destruct t as [|e t']; [done|]. destruct (simple_escape e); [by apply IH|].
    destruct (is_char _ e); [|done].
    destruct (parse_unicode_escape t') as [t''|]; cbn [mbind option_bind] in H |- *; [by apply IH|done].
  - destruct (_ <? 32)%nat; [done|]. by apply IH.
Qed.

Lemma parse_mono f :
  (∀ d s r, parse_value f d s = Some r → parse_value (S f) d s = Some r)
  ∧ (∀ d s r, parse_elems f d s = Some r → parse_elems (S f) d s = Some r)
  ∧ (∀ d s r, parse_members f d s = Some r → parse_members (S f) d s = Some r).
Proof.
  induction f as [|f (IHv & IHe & IHm)]; [done|].
  split; [|split]; intros d s r.
  - cbn [parse_value]. destruct (skip_ws s) as [|a t]; [done|].
    repeat match goal with |- context [if ?b then _ else _] => destruct b end; try done.
    all: destruct (skip_ws t) as [|b t']; [done|]; destruct (is_char _ b); [done|].
    + apply IHe.
    + apply IHm.
  - rewrite !parse_elems_S. destruct (parse_value f d s) as [t|] eqn:Hv; [|done].
    rewrite (IHv _ _ _ Hv). cbn [mbind option_bind].
    destruct (skip_ws t) as [|b t']; [done|]. destruct (is_char _ b); [apply IHe|done].
  - rewrite !parse_members_S. destruct (skip_ws s) as [|q t]; [done|].
    destruct (is_char _ q); [|done].
    destruct (parse_str_body _ t) as [t1|]; cbn [mbind option_bind]; [|done].
    destruct (skip_ws t1) as [|c t2]; [done|]. destruct (is_char _ c); [|done].
    destruct (parse_value f d t2) as [t3|] eqn:Hv; [|done].
    rewrite (IHv _ _ _ Hv). cbn [mbind option_bind].
    destruct (skip_ws t3) as [|b t4]; [done|]. destruct (is_char _ b); [apply IHm|done].
Qed.

Lemma parse_value_fuel_add d s k : parse_value (json_fuel s + k) d s = parse_value (json_fuel s) d s.
Proof.
  induction k as [|k IH]; [by rewrite Nat.add_0_r|].
  rewrite Nat.add_succ_r, <- IH. apply parse_fuel_stable. unfold json_fuel. lia.
Qed.

(** Termination of the JSON recogniser: the fuel [json_fuel s],
    twice the input's length plus one, is enough, so the recursion over
    nested arrays and objects ends within it; any more fuel gives the same
    answer, at every depth budget. *)
Lemma parse_value_fuel_enough d s f :
  json_fuel s ≤ f → parse_value f d s = parse_value (json_fuel s) d s.
Proof.
  intros Hf. replace f with (json_fuel s + (f - json_fuel s)) by lia.
  apply parse_value_fuel_add.
Qed.

Lemma parse_value_mono_le f g d s r :
  f ≤ g → parse_value f d s = Some r → parse_value g d s = Some r.
Proof. induction 1 as [|g _ IH]; [done|]. intros H. by apply (proj1 (parse_mono g)), IH. Qed.

(** [json_from_str_ok] accepts exactly the texts that the recogniser,
    given any fuel, reads as one value followed by whitespace. *)
Theorem json_from_str_ok_spec str :
  json_from_str_ok str = true ↔
  ∃ f r, parse_value f 128 (String.list_ascii_of_string str) = Some r ∧ skip_ws r = [].
Proof.
  unfold json_from_str_ok. set (s := String.list_ascii_of_string str). split.
  - destruct (parse_value (json_fuel s) 128 s) as [r|] eqn:H; [|done].
    intros Hr%bool_decide_eq_true. by exists (json_fuel s), r.
  - intros (f & r & Hp & Hr). destruct (decide (f ≤ json_fuel s)) as [Hle|Hgt].
    + rewrite (parse_value_mono_le f _ _ _ r Hle Hp). by apply bool_decide_eq_true.
    + rewrite <- (parse_value_fuel_add 128 s (f - json_fuel s)).
      replace (json_fuel s + (f - json_fuel s)) with f by lia.
      rewrite Hp. by apply bool_decide_eq_true.
Qed.
