(* ===== verification/Validators.v ===== *)
(** * The value validator ([src/src/validators.rs])

    One definition per function of [validators.rs], with the source's names
    and arguments.  Lengths are [u64] in the source ([inner_value.len() as
    u64] against a declared [u64] length): they are [N] here.  The library
    calls are the models of [RustNum] ([str::parse]), [Chrono]
    ([parse_from_str]) and [Json] ([serde_json::from_str]).

    The theorems describe what each type family accepts: the [NULL] rule,
    the character-length bound and its missing cap, the decimal precision
    and scale rule, integer parsing (where the declared length and the
    signedness of most types are ignored), booleans, enumerations, dates
    (where the [TIMESTAMP] format can never succeed) and the unsupported
    types. *)

From S2P Require Import Prelude SqlAst RustNum Chrono Json.
From Stdlib Require Import Ascii.

Definition ABSOLUTE_CHAR_MAX : N := 536870912.

(** [inner_value.len() as u64] *)
Definition len64 (s : string) : N := N.of_nat (String.length s).

Definition validate_value_for_char (length_p : option CharacterLength.t) (value : Value.t)
    (def_size max_size : N) : bool :=
  let length := match length_p with
                | Some (CharacterLength.IntegerLength length _unit) => length
                | Some CharacterLength.Max => max_size
                | None => def_size
                end in
  match value with
  | Value.SingleQuotedString inner_value => (len64 inner_value <=? length)%N
  | Value.EscapedStringLiteral inner_value => (len64 inner_value <=? length)%N
  | Value.DoubleQuotedString inner_value => (len64 inner_value <=? length)%N
  | _ => false
  end.

Definition validate_value_for_clob (len_p_u64 : option N) (value : Value.t) (max_size : N) : bool :=
  match len_p_u64 with
  | Some len => validate_value_for_char None value len ABSOLUTE_CHAR_MAX
  | None => validate_value_for_char None value 60 ABSOLUTE_CHAR_MAX
  end.

Definition validate_value_for_binary (len_p_u64 : option N) (value : Value.t) (def_size : N) : bool :=
  let length := match len_p_u64 with Some len => len | None => def_size end in
  match value with
  | Value.Number inner_value _ => (len64 inner_value <=? length)%N
  | Value.SingleQuotedString inner_value => (len64 inner_value <=? length)%N
  | Value.EscapedStringLiteral inner_value => (len64 inner_value <=? length)%N
  | Value.SingleQuotedByteStringLiteral inner_value => (len64 inner_value <=? length)%N
  | Value.DoubleQuotedByteStringLiteral inner_value => (len64 inner_value <=? length)%N
  | Value.RawStringLiteral inner_value => (len64 inner_value <=? length)%N
  | Value.HexStringLiteral inner_value => (len64 inner_value <=? length)%N
  | Value.DoubleQuotedString inner_value => (len64 inner_value <=? length)%N
  | Value.UnQuotedString inner_value => (len64 inner_value <=? length)%N
  | _ => false
  end.

Definition validate_value_for_bytes (len_p_u64 : option N) (value : Value.t) (def_size : N) : bool :=
  let length := match len_p_u64 with Some len => len | None => def_size end in
  match value with
  | Value.Number inner_value _ => (len64 inner_value <=? length)%N
  | Value.SingleQuotedByteStringLiteral inner_value => (len64 inner_value <=? length)%N
  | Value.DoubleQuotedByteStringLiteral inner_value => (len64 inner_value <=? length)%N
  | Value.HexStringLiteral inner_value => (len64 inner_value <=? length)%N
  | Value.UnQuotedString inner_value => (len64 inner_value <=? length)%N
  | _ => false
  end.

(** [value_precizion] is [inner_value.len() - 1] (the source subtracts on a
    [usize]; [decimal_len_pos] shows the subtraction cannot underflow) and
    [value_scale] the length of [parts[1]] ([parts.get(1).unwrap()], which
    exists since [parts.len() == 2]). *)
Definition validate_value_for_decimal (dec_info : ExactNumberInfo.t) (value : Value.t)
    (def_precizion : N) : bool :=
  match value with
  | Value.Number inner_value _ =>
      if negb (parse_f64_ok inner_value) then false
      else
        let parts := str_split "." inner_value in
        let value_precizion := N.of_nat (String.length inner_value - 1) in
        if negb (length parts =? 2)%nat then false
        else
          let value_scale := len64 (nth 1 parts EmptyString) in
          match dec_info with
          | ExactNumberInfo.None => (value_precizion <=? def_precizion)%N
          | ExactNumberInfo.Precision precizion => (value_precizion <=? precizion)%N
          | ExactNumberInfo.PrecisionAndScale precizion scale =>
              (value_precizion <=? precizion)%N && (value_scale <=? scale)%N
          end
  | _ => false
  end.

Definition validate_value_for_float (len_p_u64 : option N) (value : Value.t) (def_precizion : N) : bool :=
  match len_p_u64 with
  | Some len => validate_value_for_decimal ExactNumberInfo.None value len
  | None => validate_value_for_decimal ExactNumberInfo.None value def_precizion
  end.

(** The source computes [length] from the declared length and then
    compares against [def_precizion]; [length] is unused. *)
Definition validate_value_for_integer (len_p_u64 : option N) (value : Value.t)
    (def_precizion : N) (sign : bool) : bool :=
  let length := match len_p_u64 with Some len => len | None => def_precizion end in
  match value with
  | Value.Number inner_value _ =>
      let value_len := len64 inner_value in
      let can_parse := if sign then is_ok (parse_i64 inner_value)
                       else is_ok (parse_u64 inner_value) in
      if negb can_parse then false
      else if (def_precizion <? value_len)%N then false
      else true
  | _ => false
  end.

Definition validate_value_for_bool (value : Value.t) : bool :=
  match value with
  | Value.Number inner_value _ =>
      if String.eqb inner_value "1" || String.eqb inner_value "0" then true else false
  | Value.Boolean _ => true
  | _ => false
  end.

Inductive DateTypes := Date | Time | DateTime | Timestamp.

Definition validate_value_for_date_string_general (value_str : string) (date_type : DateTypes) : bool :=
  match date_type with
  | Date => naive_date_parse_ok value_str "%Y-%m-%d"
  | Time => naive_time_parse_ok value_str "%H:%M:%S"
  | DateTime => naive_datetime_parse_ok value_str "%Y-%m-%d %H:%M:%S"
  | Timestamp => naive_datetime_parse_ok value_str "%Y-%m-%d %H:%M:%S.%2f"
  end.

Definition validate_value_for_dates_general (value : Value.t) (date_type : DateTypes) : bool :=
  match value with
  | Value.SingleQuotedString inner_value => validate_value_for_date_string_general inner_value date_type
  | Value.EscapedStringLiteral inner_value => validate_value_for_date_string_general inner_value date_type
  | Value.DoubleQuotedString inner_value => validate_value_for_date_string_general inner_value date_type
  | _ => false
  end.

Definition validate_value_for_json (value : Value.t) : bool :=
  match value with
  | Value.SingleQuotedString inner_value => json_from_str_ok inner_value
  | Value.EscapedStringLiteral inner_value => json_from_str_ok inner_value
  | Value.DoubleQuotedString inner_value => json_from_str_ok inner_value
  | _ => false
  end.

Definition validate_value_for_enum (set : list string) (value : Value.t) : bool :=
  match value with
  | Value.SingleQuotedString inner_value => str_contains set inner_value
  | Value.UnQuotedString inner_value => str_contains set inner_value
  | Value.DoubleQuotedString inner_value => str_contains set inner_value
  | _ => false
  end.

(** [validate_value_for_col]: [NULL] is decided by [nullable] alone, then
    one arm per [DataType] case of the source, with its default length or
    precision and, for integers, its signedness flag. *)
Definition validate_value_for_col (type_name : DataType.t) (value : Value.t) (nullable : bool) : bool :=
  match value with
  | Value.Null => nullable
  | _ =>
  match type_name with
  | DataType.Character length_p => validate_value_for_char length_p value 1 ABSOLUTE_CHAR_MAX
  | DataType.Char length_p => validate_value_for_char length_p value 1 ABSOLUTE_CHAR_MAX
  | DataType.CharacterVarying length_p => validate_value_for_char length_p value 30 ABSOLUTE_CHAR_MAX
  | DataType.CharVarying length_p => validate_value_for_char length_p value 30 ABSOLUTE_CHAR_MAX
  | DataType.Varchar length_p => validate_value_for_char length_p value 30 ABSOLUTE_CHAR_MAX
  | DataType.Nvarchar len_p_u64 => validate_value_for_clob len_p_u64 value ABSOLUTE_CHAR_MAX
  | DataType.Uuid => validate_value_for_char None value 30 ABSOLUTE_CHAR_MAX
  | DataType.CharacterLargeObject len_p_u64 => validate_value_for_clob len_p_u64 value ABSOLUTE_CHAR_MAX
  | DataType.CharLargeObject len_p_u64 => validate_value_for_clob len_p_u64 value ABSOLUTE_CHAR_MAX
  | DataType.Clob len_p_u64 => validate_value_for_clob len_p_u64 value ABSOLUTE_CHAR_MAX
  | DataType.Binary len_p_u64 => validate_value_for_binary len_p_u64 value 30
  | DataType.Varbinary len_p_u64 => validate_value_for_binary len_p_u64 value 30
  | DataType.Blob len_p_u64 => validate_value_for_binary len_p_u64 value 30
  | DataType.Bytes len_p_u64 => validate_value_for_bytes len_p_u64 value 30
  | DataType.Numeric number_info => validate_value_for_decimal number_info value 18
  | DataType.Decimal number_info => validate_value_for_decimal number_info value 18
  | DataType.BigNumeric number_info => validate_value_for_decimal number_info value 18
  | DataType.BigDecimal number_info => validate_value_for_decimal number_info value 18
  | DataType.Dec number_info => validate_value_for_decimal number_info value 18
  | DataType.Float len_p_u64 => validate_value_for_float len_p_u64 value 18
  | DataType.TinyInt len_p_u64 => validate_value_for_integer len_p_u64 value 4 true
  | DataType.UnsignedTinyInt len_p_u64 => validate_value_for_integer len_p_u64 value 3 false
  | DataType.Int2 len_p_u64 => validate_value_for_integer len_p_u64 value 6 false
  | DataType.UnsignedInt2 len_p_u64 => validate_value_for_integer len_p_u64 value 5 false
  | DataType.SmallInt len_p_u64 => validate_value_for_integer len_p_u64 value 6 false
  | DataType.UnsignedSmallInt len_p_u64 => validate_value_for_integer len_p_u64 value 5 false
  | DataType.MediumInt len_p_u64 => validate_value_for_integer len_p_u64 value 8 false
  | DataType.UnsignedMediumInt len_p_u64 => validate_value_for_integer len_p_u64 value 8 false
  | DataType.Int len_p_u64 => validate_value_for_integer len_p_u64 value 11 false
  | DataType.Int4 len_p_u64 => validate_value_for_integer len_p_u64 value 11 false
  | DataType.Int64 => validate_value_for_integer None value 21 false
  | DataType.Integer len_p_u64 => validate_value_for_integer len_p_u64 value 11 false
  | DataType.UnsignedInt len_p_u64 => validate_value_for_integer len_p_u64 value 11 false
  | DataType.UnsignedInt4 len_p_u64 => validate_value_for_integer len_p_u64 value 11 false
  | DataType.UnsignedInteger len_p_u64 => validate_value_for_integer len_p_u64 value 11 false
  | DataType.BigInt len_p_u64 => validate_value_for_integer len_p_u64 value 21 false
  | DataType.UnsignedBigInt len_p_u64 => validate_value_for_integer len_p_u64 value 20 false
  | DataType.Int8 len_p_u64 => validate_value_for_integer len_p_u64 value 11 false
  | DataType.UnsignedInt8 len_p_u64 => validate_value_for_integer len_p_u64 value 11 false
  | DataType.Float4 => validate_value_for_float None value 11
  | DataType.Float64 => validate_value_for_float None value 21
  | DataType.Real => validate_value_for_float None value 21
  | DataType.Float8 => validate_value_for_float None value 11
  | DataType.Double => validate_value_for_float None value 21
  | DataType.DoublePrecision => validate_value_for_float None value 21
  | DataType.Bool => validate_value_for_bool value
  | DataType.Boolean => validate_value_for_bool value
  | DataType.Date => validate_value_for_dates_general value Date
  | DataType.Time _precizion _timezone_i => validate_value_for_dates_general value Time
  | DataType.Datetime _precizion => validate_value_for_dates_general value DateTime
  | DataType.Timestamp _precizion _timezone_i => validate_value_for_dates_general value Timestamp
  | DataType.JSON => validate_value_for_json value
  | DataType.JSONB => validate_value_for_json value
  | DataType.Text => validate_value_for_char None value 60 ABSOLUTE_CHAR_MAX
  | DataType.String len_p_u64 => validate_value_for_clob len_p_u64 value ABSOLUTE_CHAR_MAX
  | DataType.Bytea => validate_value_for_binary None value 30
  | DataType.Enum set => validate_value_for_enum set value
  | DataType.Set_ set => validate_value_for_enum set value
  | DataType.Other _ => false
  end
  end.

(** ** The type families, as the spec describes them *)

(** The effective length bound of the character types: the declared
    length, [ABSOLUTE_CHAR_MAX] for [MAX], or the type's default. *)
Definition char_bound (t : DataType.t) : option N :=
  let bound l d := match l with
                   | Some (CharacterLength.IntegerLength k _) => k
                   | Some CharacterLength.Max => ABSOLUTE_CHAR_MAX
                   | None => d
                   end in
  match t with
  | DataType.Character l | DataType.Char l => Some (bound l 1%N)
  | DataType.CharacterVarying l | DataType.CharVarying l | DataType.Varchar l => Some (bound l 30%N)
  | DataType.Uuid => Some 30%N
  | DataType.Text => Some 60%N
  | DataType.Nvarchar l | DataType.CharacterLargeObject l | DataType.CharLargeObject l
  | DataType.Clob l | DataType.String l => Some (default 60%N l)
  | _ => None
  end.

(** The integer types: default precision and whether [i64] (rather than
    [u64]) parsing is used. *)
Definition integer_default (t : DataType.t) : option (N * bool) :=
  match t with
  | DataType.TinyInt _ => Some (4%N, true)
  | DataType.UnsignedTinyInt _ => Some (3%N, false)
  | DataType.Int2 _ | DataType.SmallInt _ => Some (6%N, false)
  | DataType.UnsignedInt2 _ | DataType.UnsignedSmallInt _ => Some (5%N, false)
  | DataType.MediumInt _ | DataType.UnsignedMediumInt _ => Some (8%N, false)
  | DataType.Int _ | DataType.Int4 _ | DataType.Integer _ | DataType.UnsignedInt _
  | DataType.UnsignedInt4 _ | DataType.UnsignedInteger _ | DataType.Int8 _
  | DataType.UnsignedInt8 _ => Some (11%N, false)
  | DataType.Int64 | DataType.BigInt _ => Some (21%N, false)
  | DataType.UnsignedBigInt _ => Some (20%N, false)
  | _ => None
  end.

(** The exact numeric types and their declared precision and scale. *)
Definition exact_info (t : DataType.t) : option ExactNumberInfo.t :=
  match t with
  | DataType.Numeric i | DataType.Decimal i | DataType.BigNumeric i
  | DataType.BigDecimal i | DataType.Dec i => Some i
  | _ => None
  end.

Definition int_lo (signed : bool) : Z := if signed then i64_min else 0.
Definition int_hi (signed : bool) : Z := if signed then i64_max else u64_max.

(** The floating types: [FLOAT(n)], [FLOAT4], [FLOAT8], [REAL], [DOUBLE],
    [DOUBLE PRECISION], [FLOAT64]. *)
Definition is_float_type (t : DataType.t) : bool :=
  match t with
  | DataType.Float _ | DataType.Float4 | DataType.Float64 | DataType.Real
  | DataType.Float8 | DataType.Double | DataType.DoublePrecision => true
  | _ => false
  end.

(** The three string literal kinds the character types accept. *)
Definition quoted_len_ok (v : Value.t) (k : N) : bool :=
  match v with
  | Value.SingleQuotedString s | Value.EscapedStringLiteral s
  | Value.DoubleQuotedString s => (len64 s <=? k)%N
  | _ => false
  end.

Lemma validate_value_for_integer_number len s l d sign :
  validate_value_for_integer len (Value.Number s l) d sign =
  is_ok (int_value_spec sign (int_lo sign) (int_hi sign) s) && (len64 s <=? d)%N.
Proof.
  unfold validate_value_for_integer. destruct sign; simpl;
    rewrite ?parse_i64_spec, ?parse_u64_spec;
    destruct (is_ok _); simpl; [|done| |done];
    destruct (N.ltb_spec d (len64 s)), (N.leb_spec (len64 s) d); done || lia.
Qed.

(** A non-empty digit string within the range is read as its value, by
    the signed and the unsigned parse alike. *)
Lemma int_value_spec_digits signed lo hi ds :
  ds ≠ [] → Forall (λ c, is_digit c = true) ds → (lo ≤ digits_value 0 ds ≤ hi)%Z →
  int_value_spec signed lo hi (String.string_of_list_ascii ds) = Some (digits_value 0 ds).
Proof.
  intros Hne Hd Hr. unfold int_value_spec. rewrite String.list_ascii_of_string_of_list_ascii.
  destruct ds as [|c l]; [done|]. pose proof Hd as Hd'. apply Forall_cons in Hd' as [Hc _].
  rewrite !digit_not_char by done. cbn [andb orb negb].
  rewrite bool_decide_false by done. cbn [orb].
  assert (Hall : forallb is_digit (c :: l) = true)
    by (clear - Hd; induction Hd as [|x l' Hx _ IH]; simpl; rewrite ?Hx; auto).
  rewrite Hall. simpl negb. unfold in_range.
  by rewrite (proj2 (Z.leb_le _ _)), (proj2 (Z.leb_le _ _)) by lia.
Qed.

(** A value below [10 ^ prec] within the parse range, written with
    [prec] digits, passes the integer check of precision [prec]. *)
Lemma integer_pad_accepted signed prec v :
  (1 ≤ prec)%N → (0 ≤ v < 10 ^ Z.of_N prec)%Z → (v ≤ int_hi signed)%Z →
  is_ok (int_value_spec signed (int_lo signed) (int_hi signed)
           (String.string_of_list_ascii (pad_digits (N.to_nat prec) v)))
  && (len64 (String.string_of_list_ascii (pad_digits (N.to_nat prec) v)) <=? prec)%N = true.
Proof.
  intros Hp Hv Hhi.
  assert (Hpad : digits_value 0 (pad_digits (N.to_nat prec) v) = v).
  { rewrite digits_value_pad by lia. rewrite N_nat_Z. apply Z.mod_small. lia. }
  rewrite int_value_spec_digits; [|destruct (pad_digits_cons (N.to_nat prec) v) as (? & ? & ->); [lia|done]
    |by apply pad_digits_all_digits; lia|rewrite Hpad; unfold int_lo; destruct signed; unfold i64_min in *; lia].
  apply andb_true_intro. split; [done|]. apply N.leb_le. unfold len64.
  rewrite length_string_of_list_ascii, pad_digits_length. lia.
Qed.

Lemma parse_f64_ok_nonempty s : parse_f64_ok s = true → (1 ≤ String.length s)%nat.
Proof.
  unfold parse_f64_ok. destruct s as [|a s]; simpl; [done|]. lia.
Qed.

(** The [usize] subtraction [inner_value.len() - 1] never underflows. *)
Lemma decimal_len_pos i s l d :
  validate_value_for_decimal i (Value.Number s l) d = true → (1 ≤ String.length s)%nat.
Proof.
  simpl. destruct (parse_f64_ok s) eqn:H; [|done]. intros _.
  by apply parse_f64_ok_nonempty.
Qed.

Lemma decimal_one_dot i s l d :
  validate_value_for_decimal i (Value.Number s l) d = true → count_char "." s = 1%nat.
Proof.
  simpl. destruct (parse_f64_ok s); [|done]; simpl.
  autorewrite with sqldb_rw. destruct (count_char "." s) as [|[|]]; done.
Qed.

(** ** Theorems *)

(** C31. An exact numeric type declared with precision [p] and scale [s]
    ([NUMERIC], [DECIMAL], [BIGNUMERIC], [BIGDECIMAL], [DEC]) accepts a
    number literal [a.b] with one dot exactly when it parses as an [f64],
    its precision [len a + len b] is at most [p] and its scale [len b] at
    most [s]. *)
Theorem decimal_precision_scale t a b l p sc nullable :
  exact_info t = Some (ExactNumberInfo.PrecisionAndScale p sc) →
  count_char "." a = 0%nat → count_char "." b = 0%nat →
  validate_value_for_col t (Value.Number (a +:+ String "." b) l) nullable =
  parse_f64_ok (a +:+ String "." b)
  && (N.of_nat (String.length a + String.length b) <=? p)%N
  && (N.of_nat (String.length b) <=? sc)%N.
Proof.
  intros Ht Ha Hb.
  assert (Hd : validate_value_for_decimal (ExactNumberInfo.PrecisionAndScale p sc)
                 (Value.Number (a +:+ String "." b) l) 18 =
               parse_f64_ok (a +:+ String "." b)
               && (N.of_nat (String.length a + String.length b) <=? p)%N
               && (N.of_nat (String.length b) <=? sc)%N).
  { simpl. rewrite str_split_app_sep, (str_split_no_sep _ b) by done.
    autorewrite with sqldb_rw. simpl. unfold len64.
    replace (String.length a + S (String.length b) - 1)%nat
      with (String.length a + String.length b)%nat by lia.
    by destruct (parse_f64_ok _). }
  destruct t; simpl in Ht; simplify_eq; exact Hd.
Qed.

(** C37. The floating types ([FLOAT], [REAL], [DOUBLE], ...) go through
    the decimal rule with no scale, so they reject every number literal
    that does not contain exactly one dot: [42] is not a valid [FLOAT]. *)
Theorem float_requires_one_dot t s l nullable :
  is_float_type t = true → count_char "." s ≠ 1%nat →
  validate_value_for_col t (Value.Number s l) nullable = false.
Proof.
  intros Ht Hc.
  assert (∀ d, validate_value_for_decimal ExactNumberInfo.None (Value.Number s l) d = false)
    as Hd.
  { intros d. destruct (validate_value_for_decimal _ _ d) eqn:E; [|done].
    by apply decimal_one_dot in E. }
  destruct t; try done; cbn [validate_value_for_col];
    unfold validate_value_for_float; try destruct len; apply Hd.
Qed.

(** C32. An integer type accepts a number literal exactly when it parses
    as the type's Rust integer ([i64] for [TINYINT], [u64] for all the
    others: an optional sign, digits, a value in range) and has at most the
    type's default number of characters. *)
Theorem integer_family_spec t prec signed s l nullable :
  integer_default t = Some (prec, signed) →
  validate_value_for_col t (Value.Number s l) nullable =
  is_ok (int_value_spec signed (int_lo signed) (int_hi signed) s) && (len64 s <=? prec)%N.
Proof.
  intros Ht. destruct t; simpl in Ht; simplify_eq;
    apply validate_value_for_integer_number.
Qed.

(** C35. Every integer type except [TINYINT] parses with [u64], so a
    negative number literal is rejected even by the signed types [INT],
    [SMALLINT], [BIGINT]. *)
Theorem integer_unsigned_rejects_minus t prec s l nullable :
  integer_default t = Some (prec, false) →
  validate_value_for_col t (Value.Number (String "-" s) l) nullable = false.
Proof.
  intros Ht. destruct t; simpl in Ht; simplify_eq; cbn [validate_value_for_col];
    rewrite validate_value_for_integer_number; by unfold int_value_spec; simpl.
Qed.

(** C33. A character type accepts exactly the single-quoted, escaped and
    double-quoted string literals whose byte length is within its bound:
    the declared length, [ABSOLUTE_CHAR_MAX] for [MAX], or the type's
    default; a declared length is not capped by [ABSOLUTE_CHAR_MAX]. *)
Theorem char_family_spec t k v nullable :
  char_bound t = Some k → v ≠ Value.Null →
  validate_value_for_col t v nullable = quoted_len_ok v k.
Proof.
  intros Ht Hv.
  destruct t; simpl in Ht; simplify_eq; try destruct len; destruct v; done.
Qed.

(** C38. A boolean column accepts a boolean literal and the number
    literals [0] and [1], and nothing else but a [NULL] when nullable. *)
Theorem bool_spec t v nullable :
  t = DataType.Bool ∨ t = DataType.Boolean →
  validate_value_for_col t v nullable = true ↔
  (v = Value.Null ∧ nullable = true) ∨ (∃ b, v = Value.Boolean b)
  ∨ (∃ s l, v = Value.Number s l ∧ (s = "1" ∨ s = "0")).
Proof.
  intros Ht.
  assert (validate_value_for_bool v = true ↔ (∃ b, v = Value.Boolean b)
            ∨ (∃ s l, v = Value.Number s l ∧ (s = "1" ∨ s = "0"))) as Hb.
  { destruct v; simpl; try naive_solver.
    destruct (String.eqb_spec s "1"), (String.eqb_spec s "0"); naive_solver. }
  destruct Ht as [->| ->]; destruct v; simpl in *; rewrite ?Hb; naive_solver.
Qed.

(** C39. An [ENUM] or [SET] column accepts a single-quoted, unquoted or
    double-quoted string literal exactly when the text is one of its
    members; an escaped string or any other literal is rejected. *)
Theorem enum_spec members t v nullable :
  t = DataType.Enum members ∨ t = DataType.Set_ members →
  validate_value_for_col t v nullable = true ↔
  (v = Value.Null ∧ nullable = true)
  ∨ (∃ s, (v = Value.SingleQuotedString s ∨ v = Value.UnQuotedString s
           ∨ v = Value.DoubleQuotedString s) ∧ s ∈ members).
Proof.
  intros Ht. destruct Ht as [->| ->]; destruct v; simpl;
    rewrite ?str_contains_spec; naive_solver.
Qed.

(** C34. No literal but a [NULL] is ever a valid [TIMESTAMP]: the format
    string [%Y-%m-%d %H:%M:%S.%2f] has the specifier [%2f], which chrono
    does not know, so every parse fails. *)
Theorem timestamp_never_valid p tz v nullable :
  v ≠ Value.Null →
  validate_value_for_col (DataType.Timestamp p tz) v nullable = false.
Proof.
  intros Hv.
  assert (Hs : ∀ s, validate_value_for_date_string_general s Timestamp = false).
  { intros s. simpl. unfold naive_datetime_parse_ok, run_format.
    by rewrite parse_items_error by apply timestamp_format_has_error. }
  destruct v; done || apply Hs.
Qed.

(** C29. A [JSON] or [JSONB] column accepts a single-quoted, escaped or
    double-quoted string literal exactly when its text is one JSON value
    followed only by whitespace, as serde_json reads it (nesting below 128
    levels); every other literal but an allowed [NULL] is rejected. *)
Theorem json_column_spec t v nullable :
  t = DataType.JSON ∨ t = DataType.JSONB →
  validate_value_for_col t v nullable = true ↔
  (v = Value.Null ∧ nullable = true)
  ∨ (∃ s, (v = Value.SingleQuotedString s ∨ v = Value.EscapedStringLiteral s
           ∨ v = Value.DoubleQuotedString s)
          ∧ ∃ f r, parse_value f 128 (String.list_ascii_of_string s) = Some r ∧ skip_ws r = []).
Proof.
  intros Ht. destruct Ht as [->| ->]; destruct v; simpl;
    rewrite ?json_from_str_ok_spec; naive_solver.
Qed.

(** C36. The integer types check the number of characters and the [i64]
    or [u64] range, not the range of their own width: for a type whose
    default precision is [prec], every value from 0 to [10 ^ prec - 1]
    within the parse range, written with [prec] digits, is accepted.  So
    [TINYINT] accepts [9999] (an [i8] holds at most 127), [SMALLINT]
    accepts [999999] (an [i16] holds at most 32767) and [INT] accepts
    [99999999999] (beyond [i32]). *)
Theorem integer_width_not_enforced t prec signed v l nullable :
  integer_default t = Some (prec, signed) →
  (0 ≤ v < 10 ^ Z.of_N prec)%Z → (v ≤ int_hi signed)%Z →
  validate_value_for_col t
    (Value.Number (String.string_of_list_ascii (pad_digits (N.to_nat prec) v)) l) nullable = true.
Proof.
  intros Ht Hv Hhi. destruct t; simpl in Ht; simplify_eq; cbn [validate_value_for_col];
    rewrite validate_value_for_integer_number; apply integer_pad_accepted; done || lia.
Qed.

(** C30. A date or time written in its format's own shape is judged by
    the calendar alone: ['YYYY-MM-DD'] is a valid [DATE] exactly when it
    names a calendar date, ['HH:MM:SS'] a valid [TIME] exactly when the
    hour is below 24, the minute below 60 and the second at most 60 (a
    leap second), and ['YYYY-MM-DD HH:MM:SS'] a valid [DATETIME] exactly
    when both hold. *)
Theorem iso_datetime_roundtrip y m d h mi sec p tz nullable :
  (0 ≤ y ≤ 9999)%Z → (0 ≤ m ≤ 99)%Z → (0 ≤ d ≤ 99)%Z →
  (0 ≤ h ≤ 99)%Z → (0 ≤ mi ≤ 99)%Z → (0 ≤ sec ≤ 99)%Z →
  validate_value_for_col DataType.Date (Value.SingleQuotedString (iso_date y m d)) nullable
    = from_ymd_ok y m d
  ∧ validate_value_for_col (DataType.Time p tz) (Value.SingleQuotedString (iso_time h mi sec)) nullable
    = time_ok h mi sec
  ∧ validate_value_for_col (DataType.Datetime p)
      (Value.SingleQuotedString (iso_datetime y m d h mi sec)) nullable
    = from_ymd_ok y m d && time_ok h mi sec.
Proof.
  intros Hy Hm Hd Hh Hmi Hs. simpl.
  rewrite naive_date_iso, naive_time_iso, naive_datetime_iso by done. done.
Qed.

(** ** Witnesses *)

Lemma decimal_precision_scale_witness :
  exact_info (DataType.Decimal (ExactNumberInfo.PrecisionAndScale 5 2))
    = Some (ExactNumberInfo.PrecisionAndScale 5 2)
  ∧ count_char "." "123" = 0%nat ∧ count_char "." "45" = 0%nat
  ∧ validate_value_for_col (DataType.Decimal (ExactNumberInfo.PrecisionAndScale 5 2))
      (Value.Number ("123" +:+ String "." "45") false) false
    = parse_f64_ok ("123" +:+ String "." "45")
      && (N.of_nat (String.length "123" + String.length "45") <=? 5)%N
      && (N.of_nat (String.length "45") <=? 2)%N
  ∧ parse_f64_ok ("123" +:+ String "." "45") = true.
Proof.
  split; [reflexivity|]. split; [reflexivity|]. split; [reflexivity|]. split.
  - apply (decimal_precision_scale _ "123" "45" false 5 2 false); reflexivity.
  - vm_compute. reflexivity.
Defined.

Lemma float_requires_one_dot_witness :
  is_float_type (DataType.Float None) = true ∧ count_char "." "42" ≠ 1%nat
  ∧ validate_value_for_col (DataType.Float None) (Value.Number "42" false) false = false.
Proof.
  split; [reflexivity|]. split; [simpl; lia|].
  apply float_requires_one_dot; [reflexivity|simpl; lia].
Defined.

Lemma integer_family_spec_witness :
  integer_default (DataType.BigInt None) = Some (21%N, false)
  ∧ validate_value_for_col (DataType.BigInt None) (Value.Number "99999999999999999999" false) false
    = is_ok (int_value_spec false (int_lo false) (int_hi false) "99999999999999999999")
      && (len64 "99999999999999999999" <=? 21)%N
  ∧ is_ok (int_value_spec false (int_lo false) (int_hi false) "99999999999999999999") = false.
Proof.
  split; [reflexivity|]. split.
  - apply integer_family_spec. reflexivity.
  - vm_compute. reflexivity.
Defined.

Lemma integer_unsigned_rejects_minus_witness :
  integer_default (DataType.Int None) = Some (11%N, false)
  ∧ validate_value_for_col (DataType.Int None) (Value.Number (String "-" "1") false) false = false.
Proof.
  split; [reflexivity|]. apply (integer_unsigned_rejects_minus _ 11). reflexivity.
Defined.

Lemma char_family_spec_witness :
  char_bound (DataType.Varchar (Some (CharacterLength.IntegerLength 3 None))) = Some 3%N
  ∧ Value.SingleQuotedString "abcd" ≠ Value.Null
  ∧ validate_value_for_col (DataType.Varchar (Some (CharacterLength.IntegerLength 3 None)))
      (Value.SingleQuotedString "abcd") true
    = quoted_len_ok (Value.SingleQuotedString "abcd") 3.
Proof.
  split; [reflexivity|]. split; [discriminate|].
  apply char_family_spec; [reflexivity|discriminate].
Defined.

Lemma bool_spec_witness :
  (DataType.Bool = DataType.Bool ∨ DataType.Bool = DataType.Boolean)
  ∧ (validate_value_for_col DataType.Bool (Value.Number "1" false) false = true ↔
     (Value.Number "1" false = Value.Null ∧ false = true)
     ∨ (∃ b, Value.Number "1" false = Value.Boolean b)
     ∨ (∃ s l, Value.Number "1" false = Value.Number s l ∧ (s = "1" ∨ s = "0"))).
Proof.
  split; [left; reflexivity|]. apply bool_spec. left. reflexivity.
Defined.

Lemma enum_spec_witness :
  (DataType.Enum ["red"; "green"] = DataType.Enum ["red"; "green"]
   ∨ DataType.Enum ["red"; "green"] = DataType.Set_ ["red"; "green"])
  ∧ (validate_value_for_col (DataType.Enum ["red"; "green"]) (Value.DoubleQuotedString "blue") true = true ↔
     (Value.DoubleQuotedString "blue" = Value.Null ∧ true = true)
     ∨ (∃ s, (Value.DoubleQuotedString "blue" = Value.SingleQuotedString s
              ∨ Value.DoubleQuotedString "blue" = Value.UnQuotedString s
              ∨ Value.DoubleQuotedString "blue" = Value.DoubleQuotedString s) ∧ s ∈ ["red"; "green"])).
Proof.
  split; [left; reflexivity|]. apply enum_spec. left. reflexivity.
Defined.

Lemma timestamp_never_valid_witness :
  Value.SingleQuotedString "2024-01-15 10:20:30.25" ≠ Value.Null
  ∧ validate_value_for_col (DataType.Timestamp None TimezoneInfo.None)
      (Value.SingleQuotedString "2024-01-15 10:20:30.25") true = false.
Proof.
  split; [discriminate|]. apply timestamp_never_valid. discriminate.
Defined.

Lemma json_column_spec_witness :
  (DataType.JSON = DataType.JSON ∨ DataType.JSON = DataType.JSONB)
  ∧ (validate_value_for_col DataType.JSON (Value.SingleQuotedString "[1, 2.5e3, true, null, []]") false = true ↔
     (Value.SingleQuotedString "[1, 2.5e3, true, null, []]" = Value.Null ∧ false = true)
     ∨ (∃ s, (Value.SingleQuotedString "[1, 2.5e3, true, null, []]" = Value.SingleQuotedString s
              ∨ Value.SingleQuotedString "[1, 2.5e3, true, null, []]" = Value.EscapedStringLiteral s
              ∨ Value.SingleQuotedString "[1, 2.5e3, true, null, []]" = Value.DoubleQuotedString s)
             ∧ ∃ f r, parse_value f 128 (String.list_ascii_of_string s) = Some r ∧ skip_ws r = [])).
Proof. split; [left; reflexivity|]. apply json_column_spec. left. reflexivity. Defined.

Lemma iso_datetime_roundtrip_witness :
  (0 ≤ 2024 ≤ 9999 ∧ 0 ≤ 2 ≤ 99 ∧ 0 ≤ 29 ≤ 99 ∧ 0 ≤ 23 ≤ 99 ∧ 0 ≤ 59 ≤ 99 ∧ 0 ≤ 60 ≤ 99)%Z
  ∧ validate_value_for_col DataType.Date (Value.SingleQuotedString (iso_date 2024 2 29)) false
    = from_ymd_ok 2024 2 29
  ∧ validate_value_for_col (DataType.Time None TimezoneInfo.None)
      (Value.SingleQuotedString (iso_time 23 59 60)) false = time_ok 23 59 60
  ∧ validate_value_for_col (DataType.Datetime None)
      (Value.SingleQuotedString (iso_datetime 2024 2 29 23 59 60)) false
    = from_ymd_ok 2024 2 29 && time_ok 23 59 60.
Proof.
  split; [lia|]. apply iso_datetime_roundtrip; lia.
Defined.

Lemma integer_width_not_enforced_witness :
  integer_default (DataType.SmallInt None) = Some (6%N, false)
  ∧ (0 ≤ 99999 < 10 ^ Z.of_N 6)%Z ∧ (99999 ≤ int_hi false)%Z
  ∧ validate_value_for_col (DataType.SmallInt None)
      (Value.Number (String.string_of_list_ascii (pad_digits (N.to_nat 6) 99999)) false) false = true.
Proof.
  assert (Ht : integer_default (DataType.SmallInt None) = Some (6%N, false)) by reflexivity.
  assert (Hv : (0 ≤ 99999 < 10 ^ Z.of_N 6)%Z) by (simpl; lia).
  assert (Hh : (99999 ≤ int_hi false)%Z) by (unfold int_hi, u64_max; lia).
  split; [exact Ht|]. split; [exact Hv|]. split; [exact Hh|].
  exact (integer_width_not_enforced _ _ _ 99999 false false Ht Hv Hh).
Defined.
