(* ===== verification/DataDescriptor.v ===== *)
(** * Catalog and row storage ([src/src/data_descriptor.rs], [src/src/raw_inner_value.rs])

    Each Rust type with its [impl] block is a [Module]: the struct is the
    record [t] (built with [mk]) and the methods are definitions taking
    [self] first, so that [TableInfo::insert_values] is
    [TableInfo.insert_values].  A [HashMap<String, V>] is a
    [gmap string V]; an [Arc<T>] is the [T] it shares (rows are never
    mutated after insertion).

    [TableInfo.insert_values] follows the source loop by loop: the column
    check ([count_found], lines 131-143), the loop over rows
    ([insert_rows], lines 144-173) with its arity check, and the loop over
    the columns of a row ([insert_row_columns], lines 150-171), which looks
    the column up ([.unwrap()], a panic when absent), extends the composite
    key, validates the value and stores it only when it is valid, and
    returns early on a non-literal expression.  A method that mutates
    [self] and returns a [Result] returns the new [self] and the [outcome]:
    rows stored before an early return stay stored. *)

From S2P Require Import Prelude SqlAst Validators.

(** ** [raw_inner_value.rs] *)

(** The trait [InnerRawValue] (lines 3-5): the text stored for a value. *)
Class InnerRawValue (A : Type) := get_inner_raw_str : A → option string.

(** [impl InnerRawValue for Value] (lines 8-27): [NULL] and placeholders
    have no text. *)
#[export] Instance value_inner_raw_value : InnerRawValue Value.t := λ v,
  match v with
  | Value.Number v _l => Some v
  | Value.DoubleQuotedString v => Some v
  | Value.SingleQuotedString v => Some v
  | Value.DollarQuotedString value _ => Some value
  | Value.EscapedStringLiteral v => Some v
  | Value.NationalStringLiteral v => Some v
  | Value.HexStringLiteral v => Some v
  | Value.Boolean v => if v then Some "true" else Some "false"
  | Value.SingleQuotedByteStringLiteral v => Some v
  | Value.DoubleQuotedByteStringLiteral v => Some v
  | Value.RawStringLiteral v => Some v
  | Value.Null => None
  | Value.UnQuotedString v => Some v
  | _ => None
  end.

(** ** [data_descriptor.rs] *)

Definition unwrap_none_msg : string := "called `Option::unwrap()` on a `None` value".

Module SelectFields.
Inductive t := WildCard | NamedFields (fields : list string).
End SelectFields.

Module ColumnProperties.
Inductive t :=
| AutoIncrement
| PriamryKey
| Null
| NotNull
| Unique
| Default (e : Expr.t)
| OnUpdate (e : Expr.t)
| ForeignKey (foreign_table : string) (referred_columns : list string)
    (on_delete on_update : option ReferentialAction.t).
End ColumnProperties.

Module ColumnInfo.
Record t := mk { type_name : DataType.t; properties : list ColumnProperties.t }.

(** The closure of [find] in [validate_value]. *)
Definition makes_nullable (prop : ColumnProperties.t) : bool :=
  match prop with
  | ColumnProperties.Null => true
  | ColumnProperties.AutoIncrement => true
  | ColumnProperties.Default _expr => true
  | _ => false
  end.

Definition validate_value (self : t) (value : Value.t) : bool :=
  let is_nullable := is_ok (List.find makes_nullable self.(properties)) in
  validate_value_for_col self.(type_name) value is_nullable.
End ColumnInfo.

Module TableRowData.
Record t := mk { column_data : gmap string (option string) }.

Definition new : t := mk ∅.

(** [self.column_data.values().collect()] *)
Definition get_wild_card (self : t) : list (option string) :=
  (map_to_list self.(column_data)).*2.

(** [fields.iter().map(|f| self.column_data.get(f).unwrap()).collect()] *)
Definition get_named_fields (self : t) (fields : list string) : outcome (list (option string)) :=
  mapM (λ field_name, expect (self.(column_data) !! field_name) unwrap_none_msg) fields.
End TableRowData.

Module TableData.
Record t := mk {
  row_data : gmap string TableRowData.t;
  indexed_data : gmap string TableRowData.t
}.

Definition new : t := mk ∅ ∅.

Definition find_all (self : t) (selection : SelectFields.t) : outcome (list (list (option string))) :=
  match selection with
  | SelectFields.WildCard =>
      Ret (map (λ kv, TableRowData.get_wild_card kv.2) (map_to_list self.(row_data)))
  | SelectFields.NamedFields fields =>
      mapM (λ kv, TableRowData.get_named_fields kv.2 fields) (map_to_list self.(row_data))
  end.
End TableData.

Module TableInfo.
Record t := mk {
  table_name : string;
  primary_keys : list string;
  indexes : list string;
  column_properies : gmap string ColumnInfo.t;
  data : TableData.t
}.

Definition new (table_name : string) (primary_keys indexes : list string)
    (column_properies : gmap string ColumnInfo.t) : t :=
  mk table_name primary_keys indexes column_properies TableData.new.

(** [self.data.row_data.insert(pk_string, Arc::new(row_data))] *)
Definition store_row (self : t) (pk_string : string) (row : TableRowData.t) : t :=
  mk self.(table_name) self.(primary_keys) self.(indexes) self.(column_properies)
    (TableData.mk (<[pk_string := row]> self.(data).(TableData.row_data))
       self.(data).(TableData.indexed_data)).

(** Lines 134-140: the number of schema columns that occur in [columns]. *)
Definition count_found (column_properies : gmap string ColumnInfo.t) (columns : list string) : nat :=
  foldr (λ kv found,
           if is_ok (List.find (λ c_name_i, String.eqb c_name_i kv.1) columns)
           then S found else found)
    0 (map_to_list column_properies).

(** Lines 154-163: the composite key grows by one primary-key value;
    [NULL] contributes ["|"]. *)
Definition push_pk (pk_string : string) (value_raw : option string) : string :=
  let pk_string := if (0 <? String.length pk_string)%nat then pk_string +:+ "_" else pk_string in
  match value_raw with
  | Some v => pk_string +:+ v
  | None => pk_string +:+ "|"
  end.

(** Lines 150-171: the columns of one row, zipped with its values. *)
Fixpoint insert_row_columns (self : t) (columns : list string) (val_row : list Expr.t)
    (pk_string : string) (row_data : TableRowData.t) : outcome (string * TableRowData.t) :=
  match columns, val_row with
  | c_name :: columns', value_expr :: val_row' =>
      col_prop ← expect (self.(column_properies) !! c_name) unwrap_none_msg;
      match value_expr with
      | Expr.Value value =>
          let value_raw := get_inner_raw_str value in
          let pk_string := if str_contains self.(primary_keys) c_name
                           then push_pk pk_string value_raw else pk_string in
          let row_data := if ColumnInfo.validate_value col_prop value
                          then TableRowData.mk (<[c_name := value_raw]> row_data.(TableRowData.column_data))
                          else row_data in
          insert_row_columns self columns' val_row' pk_string row_data
      | _ => Err "only raw values are supported for insert"
      end
  | _, _ => Ret (pk_string, row_data)
  end.

(** Lines 144-173: the rows, each checked for arity, built and stored
    before the next one is looked at. *)
Fixpoint insert_rows (self : t) (columns : list string) (values : list (list Expr.t)) : t * outcome () :=
  match values with
  | [] => (self, Ret ())
  | val_row :: values' =>
      if negb (length columns =? length val_row) then (self, Err "wrong number of columns")
      else
        match insert_row_columns self columns val_row "" TableRowData.new with
        | Ret (pk_string, row_data) => insert_rows (store_row self pk_string row_data) columns values'
        | Err e => (self, Err e)
        | Panic e => (self, Panic e)
        end
  end.

(** [TableInfo::insert_values] *)
Definition insert_values (self : t) (columns : list string) (values : list (list Expr.t)) : t * outcome () :=
  if (length columns =? 0) || (size self.(column_properies) <? length columns)
  then (self, Err "wrong number of columns")
  else
    let found := count_found self.(column_properies) columns in
    if negb (length columns =? found)
    then (self, Err "the colummn list does not exist for table")
    else insert_rows self columns values.

Definition find_all (self : t) (selection : SelectFields.t) : outcome (list (list (option string))) :=
  TableData.find_all self.(data) selection.
End TableInfo.

Module DataBase.
Record t := mk { tables : gmap string TableInfo.t }.

Definition new : t := mk ∅.

(** [create_table]: unconditional insert, replacing any table of that
    name. *)
Definition create_table (self : t) (table_name : string) (primary_keys indexes : list string)
    (column_properies : gmap string ColumnInfo.t) : t :=
  mk (<[table_name := TableInfo.new table_name primary_keys indexes column_properies]> self.(tables)).

Definition table_exists (self : t) (table_name : string) : bool :=
  bool_decide (is_Some (self.(tables) !! table_name)).

Definition get_table_ref (self : t) (table_name : string) : option TableInfo.t :=
  self.(tables) !! table_name.

(** Writing through the handle [get_table_ref] returned: the table under
    [table_name] becomes [tbl]. *)
Definition put_table (self : t) (table_name : string) (tbl : TableInfo.t) : t :=
  mk (<[table_name := tbl]> self.(tables)).
End DataBase.

(** ** What an insert stores, stated over the whole statement *)

(** The entry a column receives from an expression: the raw text of the
    literal, when the literal is valid for the column. *)
Definition column_entry (self : TableInfo.t) (c : string) (e : Expr.t) : option (string * option string) :=
  match e, self.(TableInfo.column_properies) !! c with
  | Expr.Value v, Some ci =>
      if ColumnInfo.validate_value ci v then Some (c, get_inner_raw_str v) else None
  | _, _ => None
  end.

(** The entries of a row: the valid columns with their raw text. *)
Definition row_entries (self : TableInfo.t) (columns : list string) (val_row : list Expr.t)
    : list (string * option string) :=
  omap (λ ce, column_entry self ce.1 ce.2) (zip columns val_row).

(** The primary-key values of a row, in the order of the column list. *)
Definition pk_values (self : TableInfo.t) (columns : list string) (val_row : list Expr.t)
    : list (option string) :=
  omap (λ ce, if str_contains self.(TableInfo.primary_keys) ce.1
              then match ce.2 with Expr.Value v => Some (get_inner_raw_str v) | _ => None end
              else None)
    (zip columns val_row).

(** The key the code stores a row under. *)
Definition row_key (self : TableInfo.t) (columns : list string) (val_row : list Expr.t) : string :=
  foldl TableInfo.push_pk "" (pk_values self columns val_row).

(** The row the code stores. *)
Definition spec_row (self : TableInfo.t) (columns : list string) (val_row : list Expr.t) : TableRowData.t :=
  TableRowData.mk (list_to_map (row_entries self columns val_row)).

(** The spec's composite key: the primary-key texts joined with ["_"],
    a [NULL] contributing ["|"]. *)
Definition composite_key (parts : list (option string)) : string :=
  String.concat "_" (map (default "|") parts).

Definition is_literal (e : Expr.t) : bool :=
  match e with Expr.Value _ => true | _ => false end.

(** A row the loop accepts: the right arity and literals only. *)
Definition row_well_formed (columns : list string) (val_row : list Expr.t) : Prop :=
  length val_row = length columns ∧ Forall (λ e, is_literal e = true) val_row.

(** The text a [VALUES] expression stores when it is valid. *)
Definition expr_raw (e : Expr.t) : option string :=
  match e with Expr.Value v => get_inner_raw_str v | _ => None end.

(** Every value of the row is a literal that is valid for its column. *)
Definition row_all_valid (self : TableInfo.t) (columns : list string) (val_row : list Expr.t) : Prop :=
  ∀ i c e, columns !! i = Some c → val_row !! i = Some e →
  ∃ v ci, e = Expr.Value v ∧ self.(TableInfo.column_properies) !! c = Some ci
          ∧ ColumnInfo.validate_value ci v = true.

(** ** Well-typed rows *)

(** A stored value is well typed for column [c] when it is the text of a
    literal that [c]'s validator accepts. *)
Definition value_typed (cp : gmap string ColumnInfo.t) (c : string) (raw : option string) : Prop :=
  ∃ ci v, cp !! c = Some ci ∧ ColumnInfo.validate_value ci v = true ∧ get_inner_raw_str v = raw.

Definition row_typed (cp : gmap string ColumnInfo.t) (row : TableRowData.t) : Prop :=
  map_Forall (value_typed cp) row.(TableRowData.column_data).

Definition table_typed (tbl : TableInfo.t) : Prop :=
  map_Forall (λ _ row, row_typed tbl.(TableInfo.column_properies) row) tbl.(TableInfo.data).(TableData.row_data).

(** ** Example data for the witnesses *)

(** [CREATE TABLE users (id BIGINT PRIMARY KEY, name VARCHAR(255) NOT NULL)] *)
Definition users_columns : gmap string ColumnInfo.t :=
  {[ "id" := ColumnInfo.mk (DataType.BigInt None) [ColumnProperties.PriamryKey; ColumnProperties.Unique];
     "name" := ColumnInfo.mk (DataType.Varchar (Some (CharacterLength.IntegerLength 255 None)))
                 [ColumnProperties.NotNull] ]}.

Definition users : TableInfo.t := TableInfo.new "users" ["id"] ["id"] users_columns.

(** [(1, 'admin')], [(1, 'root')], [(2, 'bob')] *)
Definition row_admin : list Expr.t :=
  [Expr.Value (Value.Number "1" false); Expr.Value (Value.SingleQuotedString "admin")].
Definition row_root : list Expr.t :=
  [Expr.Value (Value.Number "1" false); Expr.Value (Value.SingleQuotedString "root")].
Definition row_bob : list Expr.t :=
  [Expr.Value (Value.Number "2" false); Expr.Value (Value.SingleQuotedString "bob")].

(** [(3, NULL)]: [name] is [NOT NULL], so the [NULL] is invalid. *)
Definition row_null_name : list Expr.t :=
  [Expr.Value (Value.Number "3" false); Expr.Value Value.Null].

(** A table [pairs (x VARCHAR(30) PRIMARY KEY, y VARCHAR(30) PRIMARY
    KEY)] with a composite key. *)
Definition pairs_columns : gmap string ColumnInfo.t :=
  {[ "x" := ColumnInfo.mk (DataType.Varchar None) [ColumnProperties.PriamryKey; ColumnProperties.Unique];
     "y" := ColumnInfo.mk (DataType.Varchar None) [ColumnProperties.PriamryKey; ColumnProperties.Unique] ]}.

Definition pairs : TableInfo.t := TableInfo.new "pairs" ["x"; "y"] ["x"; "y"] pairs_columns.

Definition str_row (a b : string) : list Expr.t :=
  [Expr.Value (Value.SingleQuotedString a); Expr.Value (Value.SingleQuotedString b)].

(** ** The column check of [insert_values] *)

Section ColumnCheck.
Context (props : gmap string ColumnInfo.t) (columns : list string).

Lemma find_eqb_is_ok (c : string) :
  is_ok (List.find (λ c_name_i, String.eqb c_name_i c) columns) = bool_decide (c ∈ columns).
Proof.
  induction columns as [|x cs IH]; simpl; [done|].
  destruct (String.eqb_spec x c) as [->|Hne]; simpl.
  - by rewrite bool_decide_true by set_solver.
  - rewrite IH. apply bool_decide_ext. set_solver.
Qed.

(** [count_found] counts the schema columns that occur in [columns]. *)
Lemma count_found_filter :
  TableInfo.count_found props columns =
  length (filter (.∈ columns) (map_to_list props).*1).
Proof.
  unfold TableInfo.count_found.
  induction (map_to_list props) as [|[k v] l IH]; simpl; [done|].
  rewrite find_eqb_is_ok, filter_cons.
  destruct (decide (k ∈ columns));
    [rewrite bool_decide_true by done|rewrite bool_decide_false by done];
    simpl; by rewrite IH.
Qed.

Lemma filter_keys_submseteq :
  filter (.∈ columns) (map_to_list props).*1 ⊆+ columns.
Proof.
  apply NoDup_submseteq; [apply NoDup_filter, NoDup_fst_map_to_list|].
  intros x. rewrite list_elem_of_filter. tauto.
Qed.

Lemma in_keys c : c ∈ (map_to_list props).*1 ↔ is_Some (props !! c).
Proof.
  rewrite list_elem_of_fmap. split.
  - intros ([k v] & -> & Hin). apply elem_of_map_to_list in Hin. by exists v.
  - intros [v Hv]. exists (c, v). split; [done|]. by apply elem_of_map_to_list.
Qed.

(** The guard of lines 131-143 passes exactly when [columns] is a
    non-empty list of distinct schema columns. *)
Lemma column_check_iff :
  (length columns ≠ 0 ∧ length columns ≤ size props
   ∧ TableInfo.count_found props columns = length columns) ↔
  (columns ≠ [] ∧ NoDup columns ∧ ∀ c, c ∈ columns → is_Some (props !! c)).
Proof.
  rewrite count_found_filter. pose proof filter_keys_submseteq as Hsub. split.
  - intros (Hne & _ & Hlen).
    assert (Hp : filter (.∈ columns) (map_to_list props).*1 ≡ₚ columns)
      by (apply submseteq_length_Permutation; [done|lia]).
    split; [by destruct columns|]. split.
    + rewrite <- Hp. apply NoDup_filter, NoDup_fst_map_to_list.
    + intros c Hc. rewrite <- Hp, list_elem_of_filter, in_keys in Hc. tauto.
  - intros (Hne & Hnd & Hall).
    assert (Hp : filter (.∈ columns) (map_to_list props).*1 ≡ₚ columns).
    { apply NoDup_Permutation; [apply NoDup_filter, NoDup_fst_map_to_list|done|].
      intros x. rewrite list_elem_of_filter, in_keys. naive_solver. }
    split; [by destruct columns|]. split; [|by rewrite Hp].
    rewrite <- Hp, <- length_map_to_list, <- (length_fmap fst).
    apply length_filter.
Qed.
End ColumnCheck.

Lemma insert_row_columns_no_panic self columns val_row pk row :
  (∀ c, c ∈ columns → is_Some (self.(TableInfo.column_properies) !! c)) →
  is_panic (TableInfo.insert_row_columns self columns val_row pk row) = false.
Proof.
  revert val_row pk row.
  induction columns as [|c cs IH]; intros [|e es] pk row Hall; simpl; try done.
  destruct (Hall c ltac:(set_solver)) as [ci ->]; simpl.
  destruct e; [|done]. apply IH. set_solver.
Qed.

Lemma insert_rows_no_panic self columns values :
  (∀ c, c ∈ columns → is_Some (self.(TableInfo.column_properies) !! c)) →
  is_panic (TableInfo.insert_rows self columns values).2 = false.
Proof.
  revert self. induction values as [|r rs IH]; intros self Hall; simpl; [done|].
  destruct (length columns =? length r); simpl; [|done].
  pose proof (insert_row_columns_no_panic self columns r "" TableRowData.new Hall) as Hp.
  destruct (TableInfo.insert_row_columns _ _ _ _ _) as [[pk row]| |]; simpl in *; try done.
  by apply IH.
Qed.

(** [insert_values] never panics: the [unwrap()] of line 151 only runs
    after the column check, which guarantees that every listed column is a
    schema column. *)
Lemma insert_values_no_panic self columns values :
  is_panic (TableInfo.insert_values self columns values).2 = false.
Proof.
  unfold TableInfo.insert_values.
  destruct (length columns =? 0) eqn:H0; [done|].
  destruct (size (TableInfo.column_properies self) <? length columns) eqn:Hs; [done|].
  destruct (length columns =? TableInfo.count_found (TableInfo.column_properies self) columns)
    eqn:Hf; [|done].
  apply insert_rows_no_panic.
  apply (column_check_iff (TableInfo.column_properies self) columns).
  apply Nat.eqb_neq in H0. apply Nat.ltb_ge in Hs. apply Nat.eqb_eq in Hf. lia.
Qed.

(** [insert_values] keeps every property of a table that storing a row
    built by [insert_row_columns] keeps. *)
Lemma insert_values_preserves (Q : TableInfo.t → Prop) self cols vals :
  (∀ t vs pk row, Q t →
     TableInfo.insert_row_columns t cols vs "" TableRowData.new = Ret (pk, row) →
     Q (TableInfo.store_row t pk row)) →
  Q self → Q (TableInfo.insert_values self cols vals).1.
Proof.
  intros Hstep Hq. unfold TableInfo.insert_values. repeat case_match; simpl; try done.
  clear - Hstep Hq. revert self Hq. induction vals as [|r rs IH]; intros self Hq; simpl; [done|].
  destruct (length cols =? length r); simpl; [|done].
  destruct (TableInfo.insert_row_columns _ _ _ _ _) as [[pk row]| |] eqn:Hrun; [|done..].
  apply IH. by eapply Hstep.
Qed.

(** The loop over a row's columns only adds values its validator
    accepted. *)
Lemma insert_row_columns_typed self cols vals pk row pk' row' :
  TableInfo.insert_row_columns self cols vals pk row = Ret (pk', row') →
  row_typed self.(TableInfo.column_properies) row → row_typed self.(TableInfo.column_properies) row'.
Proof.
  revert vals pk row. induction cols as [|c cs IH]; intros [|e es] pk row Hrun Ht;
    simpl in Hrun; outcome_inv; try done.
  match goal with Hc : _ !! c = Some ?ci, H : context [match e with _ => _ end] |- _ =>
    destruct e as [v|]; [|done]; apply (IH _ _ _ H);
    destruct (ColumnInfo.validate_value ci v) eqn:Hv; [|done] end.
  apply map_Forall_insert_2; [|done]. eexists _, _. by split_and!.
Qed.

Lemma insert_values_typed self cols vals :
  table_typed self → table_typed (TableInfo.insert_values self cols vals).1.
Proof.
  apply insert_values_preserves. intros t vs pk row Ht Hrun.
  unfold table_typed in *. cbn. apply map_Forall_insert_2; [|done].
  eapply insert_row_columns_typed; [done|]. apply map_Forall_empty.
Qed.

(** C4. The column list of an [INSERT] is accepted exactly when it is a
    non-empty list of distinct schema columns: a strict subset of the
    schema's columns passes the check, and the rows are then inserted;
    otherwise the table is left as it was and an error is returned. *)
Theorem insert_values_column_check self columns values :
  TableInfo.insert_values self columns values =
  if bool_decide (columns ≠ [] ∧ NoDup columns
                  ∧ Forall (λ c, is_Some (self.(TableInfo.column_properies) !! c)) columns)
  then TableInfo.insert_rows self columns values
  else (self, Err (if (length columns =? 0) || (size self.(TableInfo.column_properies) <? length columns)
                   then "wrong number of columns"
                   else "the colummn list does not exist for table")).
Proof.
  rewrite (bool_decide_ext _
    (length columns ≠ 0 ∧ length columns ≤ size self.(TableInfo.column_properies)
     ∧ TableInfo.count_found self.(TableInfo.column_properies) columns = length columns))
    by (rewrite Forall_forall; symmetry; apply column_check_iff).
  unfold TableInfo.insert_values.
  destruct (length columns =? 0) eqn:H0,
    (size (TableInfo.column_properies self) <? length columns) eqn:Hs,
    (length columns =? TableInfo.count_found (TableInfo.column_properies self) columns) eqn:Hf;
    cbn [orb negb];
    rewrite ?Nat.eqb_eq, ?Nat.eqb_neq, ?Nat.ltb_lt, ?Nat.ltb_ge in *;
    [rewrite bool_decide_false by lia..|rewrite bool_decide_true by lia|rewrite bool_decide_false by lia];
    done.
Qed.

(** The column check passes for a non-empty list of distinct schema
    columns. *)
Lemma insert_values_checked self columns values :
  columns ≠ [] → NoDup columns →
  (∀ c, c ∈ columns → is_Some (self.(TableInfo.column_properies) !! c)) →
  TableInfo.insert_values self columns values = TableInfo.insert_rows self columns values.
Proof.
  intros Hne Hnd Hc. unfold TableInfo.insert_values.
  destruct (proj2 (column_check_iff self.(TableInfo.column_properies) columns) (conj Hne (conj Hnd Hc)))
    as (H0 & Hs & Hf).
  rewrite (proj2 (Nat.eqb_neq _ _) H0), (proj2 (Nat.ltb_ge _ _) Hs), Hf, Nat.eqb_refl. done.
Qed.

(** ** The loops of [insert_values], on rows the loops accept *)

Lemma insert_row_columns_ok self columns val_row pk0 row0 :
  (∀ c, c ∈ columns → is_Some (self.(TableInfo.column_properies) !! c)) →
  row_well_formed columns val_row →
  TableInfo.insert_row_columns self columns val_row pk0 row0 =
  Ret (foldl TableInfo.push_pk pk0 (pk_values self columns val_row),
       TableRowData.mk (foldl (λ m kv, <[kv.1 := kv.2]> m) row0.(TableRowData.column_data)
                          (row_entries self columns val_row))).
Proof.
  unfold row_well_formed. intros Hc [Hlen Hlit].
  revert val_row pk0 row0 Hlen Hlit.
  induction columns as [|c cs IH]; intros [|e es] pk0 row0 Hlen Hlit; simpl in *; try done.
  { by destruct row0. }
  destruct (Hc c ltac:(set_solver)) as [ci Hci]. rewrite Hci. simpl.
  apply Forall_cons in Hlit as [He Hlit]. destruct e as [v|]; [|done].
  unfold row_entries, pk_values, column_entry. simpl. rewrite Hci.
  destruct (str_contains _ c), (ColumnInfo.validate_value ci v); simpl;
    (rewrite IH; [done|set_solver|lia|done]).
Qed.

Lemma row_entries_keys_sublist self columns val_row :
  (row_entries self columns val_row).*1 `sublist_of` columns.
Proof.
  unfold row_entries. revert val_row.
  induction columns as [|c cs IH]; intros [|e es]; simpl; try apply sublist_nil_l.
  unfold column_entry at 1. simpl.
  repeat case_match; simpl; simplify_eq/=; [by apply sublist_skip|by apply sublist_cons..].
Qed.

Lemma insert_row_columns_spec self columns val_row :
  NoDup columns →
  (∀ c, c ∈ columns → is_Some (self.(TableInfo.column_properies) !! c)) →
  row_well_formed columns val_row →
  TableInfo.insert_row_columns self columns val_row "" TableRowData.new =
  Ret (row_key self columns val_row, spec_row self columns val_row).
Proof.
  intros Hnd Hc Hwf. rewrite insert_row_columns_ok by done.
  simpl. rewrite foldl_insert_union, map_union_empty; [done|].
  eapply sublist_NoDup; [done|apply row_entries_keys_sublist].
Qed.

Lemma store_rows_foldl self columns (rows : list (list Expr.t)) :
  foldl (λ t r, TableInfo.store_row t (row_key self columns r) (spec_row self columns r)) self rows =
  TableInfo.mk self.(TableInfo.table_name) self.(TableInfo.primary_keys) self.(TableInfo.indexes)
    self.(TableInfo.column_properies)
    (TableData.mk
       (foldl (λ m r, <[row_key self columns r := spec_row self columns r]> m)
          self.(TableInfo.data).(TableData.row_data) rows)
       self.(TableInfo.data).(TableData.indexed_data)).
Proof.
  revert self. induction rows as [|r rs IH] using rev_ind; intros self.
  - by destruct self as [? ? ? ? []].
  - rewrite !foldl_app. simpl. rewrite IH. done.
Qed.

Lemma insert_rows_ok self columns rows :
  NoDup columns →
  (∀ c, c ∈ columns → is_Some (self.(TableInfo.column_properies) !! c)) →
  Forall (row_well_formed columns) rows →
  TableInfo.insert_rows self columns rows =
  (foldl (λ t r, TableInfo.store_row t (row_key self columns r) (spec_row self columns r)) self rows,
   Ret ()).
Proof.
  intros Hnd Hc Hrows. revert self Hc.
  induction Hrows as [|r rs Hr Hrs IH]; intros self Hc; simpl; [done|].
  destruct Hr as [Hlen Hlit] eqn:Hwf.
  rewrite Hlen, Nat.eqb_refl. simpl.
  rewrite insert_row_columns_spec by done.
  by rewrite IH.
Qed.

(** ** The composite key *)

Lemma push_pk_fold acc parts :
  acc ≠ "" → Forall (λ p, p ≠ Some "") parts →
  foldl TableInfo.push_pk acc parts =
  match parts with [] => acc | _ => acc +:+ "_" +:+ composite_key parts end.
Proof.
  revert acc. induction parts as [|p ps IH]; intros acc Hacc Hps; simpl; [done|].
  apply Forall_cons in Hps as [Hp Hps].
  assert (Hpush : TableInfo.push_pk acc p = acc +:+ "_" +:+ default "|" p).
  { unfold TableInfo.push_pk. destruct acc as [|a acc']; [done|]. simpl.
    destruct p; simpl; by rewrite str_app_assoc. }
  rewrite Hpush, IH; [|by destruct acc|done].
  unfold composite_key. destruct ps as [|p' ps]; simpl; [done|].
  by rewrite !str_app_assoc.
Qed.

(** C18. When no primary-key value is the empty string, the key a row is
    stored under is the spec's composite key: the primary-key texts in the
    order of the statement's column list, joined with ["_"], a [NULL]
    contributing ["|"]. *)
Theorem row_key_composite self columns val_row :
  Forall (λ p, p ≠ Some "") (pk_values self columns val_row) →
  row_key self columns val_row = composite_key (pk_values self columns val_row).
Proof.
  unfold row_key. destruct (pk_values self columns val_row) as [|p ps]; [done|].
  intros Hps. apply Forall_cons in Hps as [Hp Hps]. simpl.
  assert (Hd : default "|" p ≠ "") by (destruct p as [[]|]; simpl; congruence).
  rewrite (push_pk_fold (TableInfo.push_pk "" p)); [|by destruct p|done].
  unfold TableInfo.push_pk. simpl. unfold composite_key.
  destruct p as [v|], ps; simpl; by rewrite ?str_app_assoc.
Qed.

(** ** Inserting rows: refinement of the upsert specification *)

(** C3. When the column list passes the check and every row has the
    right arity and literal values only, [insert_values] succeeds and
    behaves as the specification of an insert: each row, in order, is
    upserted under its key, the rest of the table being unchanged. *)
Theorem insert_values_refines self columns rows :
  columns ≠ [] → NoDup columns →
  (∀ c, c ∈ columns → is_Some (self.(TableInfo.column_properies) !! c)) →
  Forall (row_well_formed columns) rows →
  TableInfo.insert_values self columns rows =
  (TableInfo.mk self.(TableInfo.table_name) self.(TableInfo.primary_keys) self.(TableInfo.indexes)
     self.(TableInfo.column_properies)
     (TableData.mk
        (foldl (λ m r, <[row_key self columns r := spec_row self columns r]> m)
           self.(TableInfo.data).(TableData.row_data) rows)
        self.(TableInfo.data).(TableData.indexed_data)),
   Ret ()).
Proof.
  intros Hne Hnd Hc Hrows.
  by rewrite insert_values_checked, insert_rows_ok, store_rows_foldl.
Qed.

(** C10. Last write wins: after a successful insert, the row stored under
    a key is the one built from the last row of the statement with that
    key; a key no row of the statement has keeps its old row. *)
Theorem insert_values_last_write_wins self columns rows k :
  columns ≠ [] → NoDup columns →
  (∀ c, c ∈ columns → is_Some (self.(TableInfo.column_properies) !! c)) →
  Forall (row_well_formed columns) rows →
  (TableInfo.insert_values self columns rows).1.(TableInfo.data).(TableData.row_data) !! k =
  match last (filter (λ r, row_key self columns r = k) rows) with
  | Some r => Some (spec_row self columns r)
  | None => self.(TableInfo.data).(TableData.row_data) !! k
  end.
Proof.
  intros Hne Hnd Hc Hrows. rewrite insert_values_checked, insert_rows_ok, store_rows_foldl by done. simpl.
  apply (lookup_foldl_insert (row_key self columns) (spec_row self columns)).
Qed.

Lemma spec_row_lookup self columns val_row c x :
  NoDup columns →
  (spec_row self columns val_row).(TableRowData.column_data) !! c = Some x ↔
  ∃ i v ci, columns !! i = Some c ∧ val_row !! i = Some (Expr.Value v)
            ∧ self.(TableInfo.column_properies) !! c = Some ci
            ∧ ColumnInfo.validate_value ci v = true ∧ x = get_inner_raw_str v.
Proof.
  intros Hnd. simpl. rewrite <- elem_of_list_to_map
    by (eapply sublist_NoDup; [done|apply row_entries_keys_sublist]).
  unfold row_entries. rewrite list_elem_of_omap. split.
  - intros ([c' e] & Hin & He). apply list_elem_of_lookup in Hin as [i Hi].
    rewrite lookup_zip_with in Hi. simpl in He.
    destruct (columns !! i) eqn:Hci, (val_row !! i) eqn:Hvi; simplify_eq/=.
    unfold column_entry in He. repeat case_match; simplify_eq. eauto 10.
  - intros (i & v & ci & Hci & Hvi & Hp & Hval & ->). exists (c, Expr.Value v).
    split; [apply list_elem_of_lookup; exists i; by rewrite lookup_zip_with, Hci, Hvi|].
    simpl. unfold column_entry. by rewrite Hp, Hval.
Qed.

(** C15. A value that fails validation does not abort the insert: the
    statement's row is stored without that column ([Ret ()] is returned),
    where the spec requires the whole row to be rejected. *)
Theorem insert_values_drops_invalid_column self columns val_row i c v ci :
  columns ≠ [] → NoDup columns →
  (∀ c, c ∈ columns → is_Some (self.(TableInfo.column_properies) !! c)) →
  row_well_formed columns val_row →
  columns !! i = Some c → val_row !! i = Some (Expr.Value v) →
  self.(TableInfo.column_properies) !! c = Some ci → ColumnInfo.validate_value ci v = false →
  (TableInfo.insert_values self columns [val_row]).2 = Ret ()
  ∧ ∃ row, (TableInfo.insert_values self columns [val_row]).1.(TableInfo.data).(TableData.row_data)
             !! row_key self columns val_row = Some row
           ∧ row.(TableRowData.column_data) !! c = None.
Proof.
  intros Hne Hnd Hc Hwf Hi Hv Hp Hval.
  rewrite insert_values_checked, insert_rows_ok, store_rows_foldl; [|done|done|constructor; [done|constructor]|done..]. simpl.
  split; [done|]. eexists. rewrite lookup_insert_eq. split; [done|].
  destruct ((spec_row self columns val_row).(TableRowData.column_data) !! c) as [x|] eqn:Hx;
    [|done].
  apply spec_row_lookup in Hx as (j & v' & ci' & Hj & Hv' & Hp' & Hval' & _); [|done].
  assert (j = i) as -> by (eapply NoDup_lookup; eauto).
  simplify_eq. congruence.
Qed.

(** C16. A row of the wrong arity aborts the statement with an error, but
    the rows before it stay stored: the insert is not all-or-nothing. *)
Theorem insert_values_error_keeps_prefix self columns rows1 bad rows2 :
  columns ≠ [] → NoDup columns →
  (∀ c, c ∈ columns → is_Some (self.(TableInfo.column_properies) !! c)) →
  Forall (row_well_formed columns) rows1 → length bad ≠ length columns →
  TableInfo.insert_values self columns (rows1 ++ bad :: rows2) =
  ((TableInfo.insert_values self columns rows1).1, Err "wrong number of columns").
Proof.
  intros Hne Hnd Hc Hrows Hbad.
  rewrite !insert_values_checked by done.
  revert self Hc. induction Hrows as [|r rs [Hlen Hlit] Hrs IH]; intros self Hc; simpl.
  - by replace (length columns =? length bad) with false by (symmetry; apply Nat.eqb_neq; lia).
  - rewrite Hlen, Nat.eqb_refl. simpl.
    rewrite insert_row_columns_spec by done. by apply IH.
Qed.

Lemma row_entries_all_valid self columns val_row :
  row_all_valid self columns val_row →
  row_entries self columns val_row = zip columns (expr_raw <$> val_row).
Proof.
  unfold row_all_valid, row_entries. revert val_row.
  induction columns as [|c cs IH]; intros [|e es] Hall; simpl; try done.
  destruct (Hall 0 c e eq_refl eq_refl) as (v & ci & -> & Hp & Hv).
  unfold column_entry at 1. simpl. rewrite Hp, Hv. f_equal.
  apply IH. intros i c' e' Hc' He'. by apply (Hall (S i)).
Qed.

(** C17. Round trip: after inserting one row whose values are all valid
    into a table with no rows, [find_all] with the wildcard returns one
    row holding exactly the texts of the inserted literals, up to the
    order in which the row's [HashMap] yields them. *)
Theorem insert_then_find_all self columns val_row :
  self.(TableInfo.data).(TableData.row_data) = ∅ →
  columns ≠ [] → NoDup columns →
  (∀ c, c ∈ columns → is_Some (self.(TableInfo.column_properies) !! c)) →
  row_well_formed columns val_row → row_all_valid self columns val_row →
  ∃ vs, TableInfo.find_all (TableInfo.insert_values self columns [val_row]).1 SelectFields.WildCard
        = Ret [vs]
      ∧ vs ≡ₚ expr_raw <$> val_row.
Proof.
  intros Hempty Hne Hnd Hc Hwf Hall.
  rewrite insert_values_checked, insert_rows_ok, store_rows_foldl; [|done|done|constructor; [done|constructor]|done..].
  unfold TableInfo.find_all, TableData.find_all. simpl. rewrite Hempty.
  rewrite insert_empty, map_to_list_singleton. simpl.
  eexists. split; [done|]. unfold TableRowData.get_wild_card, spec_row. simpl.
  rewrite row_entries_all_valid by done.
  rewrite map_to_list_to_map.
  - rewrite snd_zip; [done|]. rewrite length_fmap. destruct Hwf as [-> _]. lia.
  - rewrite fst_zip; [done|]. rewrite length_fmap. destruct Hwf as [-> _]. lia.
Qed.

Lemma insert_row_columns_no_pk self columns val_row pk0 row0 pk row :
  self.(TableInfo.primary_keys) = [] →
  TableInfo.insert_row_columns self columns val_row pk0 row0 = Ret (pk, row) → pk = pk0.
Proof.
  intros Hpk. revert val_row pk0 row0.
  induction columns as [|c cs IH]; intros [|e es] pk0 row0 Hrun; simpl in *; simplify_eq; try done.
  destruct (_ !! c); simpl in *; [|done].
  destruct e; [|done]. rewrite Hpk in Hrun. simpl in Hrun. by apply IH in Hrun.
Qed.

(** C20. A table without primary-key columns keeps at most one row: every
    row is stored under the empty key, so each insert replaces the
    previous row.  (Only a column-level [PRIMARY KEY] creates primary
    keys; see [Executor].) *)
Theorem insert_values_no_pk_single_key self columns values :
  self.(TableInfo.primary_keys) = [] →
  dom self.(TableInfo.data).(TableData.row_data) ⊆ {[""]} →
  dom (TableInfo.insert_values self columns values).1.(TableInfo.data).(TableData.row_data) ⊆ {[""]}.
Proof.
  intros Hpk. unfold TableInfo.insert_values.
  destruct (_ || _); [done|]. destruct (negb _); [done|].
  revert self Hpk. induction values as [|r rs IH]; intros self Hpk Hdom; simpl; [done|].
  destruct (negb _); [done|].
  destruct (TableInfo.insert_row_columns _ _ _ _ _) as [[pk row]| |] eqn:Hrun; try done.
  apply insert_row_columns_no_pk in Hrun as ->; [|done].
  apply IH; [done|]. simpl. rewrite dom_insert_L. set_solver.
Qed.

(** C7. A column accepts [NULL] exactly when its property list holds
    [Null], [AutoIncrement] or a [DEFAULT], whatever its declared type. *)
Theorem column_accepts_null ci :
  ColumnInfo.validate_value ci Value.Null = true ↔
  Exists (λ p, p = ColumnProperties.Null ∨ p = ColumnProperties.AutoIncrement
               ∨ ∃ e, p = ColumnProperties.Default e) ci.(ColumnInfo.properties).
Proof.
  unfold ColumnInfo.validate_value, validate_value_for_col, is_ok.
  induction ci.(ColumnInfo.properties) as [|p ps IH]; simpl.
  - split; [done|]. by intros ?%Exists_nil.
  - rewrite Exists_cons, <- IH.
    destruct p; simpl; naive_solver.
Qed.

Lemma pairs_columns_ok c : c ∈ ["x"; "y"] → is_Some (pairs.(TableInfo.column_properies) !! c).
Proof. revert c. apply Forall_forall. repeat econstructor. Qed.

Lemma push_pk_nonempty u v : u ≠ "" → TableInfo.push_pk u (Some v) = u +:+ "_" +:+ v.
Proof. destruct u as [|x u]; [done|]. intros _. unfold TableInfo.push_pk. simpl. by rewrite str_app_assoc. Qed.

Lemma push_pk_empty v : TableInfo.push_pk "" (Some v) = v.
Proof. done. Qed.

(** Inserting two rows into [pairs] stores them in order under their
    keys. *)
Lemma insert_pairs_two u1 v1 u2 v2 :
  (TableInfo.insert_values pairs ["x"; "y"] [str_row u1 v1; str_row u2 v2]).1
    .(TableInfo.data).(TableData.row_data)
  = <[TableInfo.push_pk u2 (Some v2) := spec_row pairs ["x"; "y"] (str_row u2 v2)]>
      {[TableInfo.push_pk u1 (Some v1) := spec_row pairs ["x"; "y"] (str_row u1 v1)]}.
Proof.
  rewrite insert_values_checked, insert_rows_ok, store_rows_foldl;
    [|by_decide|apply pairs_columns_ok|repeat constructor|done|by_decide|apply pairs_columns_ok].
  simpl. by rewrite insert_empty.
Qed.

(** C19. The composite key is ambiguous: for all texts [a], [b], [c]
    (with [a] non-empty), the rows [(a_b, c)] and [(a, b_c)] differ in
    their primary key, yet both are stored under [a_b_c], so inserting
    both leaves one row, the second; and since the separator is skipped
    after an empty first value, [('', b_c)] and [(b, c)] (with [b]
    non-empty) collide under [b_c] in the same way. *)
Theorem composite_key_collision a b c :
  a ≠ "" → b ≠ "" →
  (TableInfo.insert_values pairs ["x"; "y"] [str_row (a +:+ "_" +:+ b) c; str_row a (b +:+ "_" +:+ c)]).1
    .(TableInfo.data).(TableData.row_data)
  = {[a +:+ "_" +:+ b +:+ "_" +:+ c := spec_row pairs ["x"; "y"] (str_row a (b +:+ "_" +:+ c))]}
  ∧ (TableInfo.insert_values pairs ["x"; "y"] [str_row "" (b +:+ "_" +:+ c); str_row b c]).1
    .(TableInfo.data).(TableData.row_data)
  = {[b +:+ "_" +:+ c := spec_row pairs ["x"; "y"] (str_row b c)]}.
Proof.
  intros Ha Hb.
  rewrite !insert_pairs_two, push_pk_empty, !push_pk_nonempty by (done || by destruct a).
  rewrite !str_app_assoc. split; apply insert_singleton_eq.
Qed.

(** ** Named projections *)

Lemma get_named_fields_spec row fields :
  TableRowData.get_named_fields row fields =
  if bool_decide (Forall (λ f, is_Some (row.(TableRowData.column_data) !! f)) fields)
  then Ret (map (λ f, default None (row.(TableRowData.column_data) !! f)) fields)
  else Panic unwrap_none_msg.
Proof.
  apply mapM_outcome. intros f. unfold expect.
  destruct (row.(TableRowData.column_data) !! f) eqn:E.
  - by rewrite bool_decide_true.
  - rewrite bool_decide_false; [done|]. by intros [].
Qed.

(** C21. [find_all] with named fields (not reachable from the executor,
    which rejects named projections) returns, for every row, the values of
    the requested fields in the requested order, and panics on the
    [unwrap()] of line 88 as soon as one row lacks one of them, which
    happens for a column left out of an [INSERT]'s column list or dropped
    because its value was invalid. *)
Theorem find_all_named_fields t fields :
  TableData.find_all t (SelectFields.NamedFields fields) =
  if bool_decide (map_Forall (λ _ row, Forall (λ f, is_Some (row.(TableRowData.column_data) !! f)) fields)
                    t.(TableData.row_data))
  then Ret (map (λ kv, map (λ f, default None (kv.2.(TableRowData.column_data) !! f)) fields)
              (map_to_list t.(TableData.row_data)))
  else Panic unwrap_none_msg.
Proof.
  simpl. erewrite (mapM_outcome _ (λ kv, Forall (λ f, is_Some (kv.2.(TableRowData.column_data) !! f)) fields));
    [|intros kv; apply get_named_fields_spec].
  rewrite (bool_decide_ext _ (map_Forall (λ _ row, Forall (λ f, is_Some (row.(TableRowData.column_data) !! f))
                                  fields) t.(TableData.row_data))); [done|].
  rewrite map_Forall_to_list. unfold uncurry.
  split; intros Hf; (eapply Forall_impl; [exact Hf|]); by intros [].
Qed.

(** ** Witnesses *)

Lemma users_columns_ok :
  ∀ c, c ∈ ["id"; "name"] → is_Some (users.(TableInfo.column_properies) !! c).
Proof. apply Forall_forall. repeat econstructor. Qed.

Lemma row_key_composite_witness :
  Forall (λ p, p ≠ Some "") (pk_values users ["id"; "name"] row_admin)
  ∧ row_key users ["id"; "name"] row_admin = composite_key (pk_values users ["id"; "name"] row_admin).
Proof.
  assert (H : Forall (λ p, p ≠ Some "") (pk_values users ["id"; "name"] row_admin))
    by (vm_compute; repeat constructor; discriminate).
  split; [exact H|]. apply row_key_composite. exact H.
Defined.

Lemma insert_values_refines_witness :
  ["id"; "name"] ≠ [] ∧ NoDup ["id"; "name"]
  ∧ Forall (row_well_formed ["id"; "name"]) [row_admin; row_bob]
  ∧ TableInfo.insert_values users ["id"; "name"] [row_admin; row_bob] =
    (TableInfo.mk users.(TableInfo.table_name) users.(TableInfo.primary_keys) users.(TableInfo.indexes)
       users.(TableInfo.column_properies)
       (TableData.mk
          (foldl (λ m r, <[row_key users ["id"; "name"] r := spec_row users ["id"; "name"] r]> m)
             users.(TableInfo.data).(TableData.row_data) [row_admin; row_bob])
          users.(TableInfo.data).(TableData.indexed_data)),
     Ret ()).
Proof.
  assert (Hw : Forall (row_well_formed ["id"; "name"]) [row_admin; row_bob])
    by (repeat constructor).
  split; [discriminate|]. split; [by_decide|]. split; [exact Hw|].
  apply insert_values_refines; [discriminate|by_decide|apply users_columns_ok|exact Hw].
Defined.

Lemma insert_values_last_write_wins_witness :
  Forall (row_well_formed ["id"; "name"]) [row_admin; row_root]
  ∧ (TableInfo.insert_values users ["id"; "name"] [row_admin; row_root]).1
      .(TableInfo.data).(TableData.row_data) !! "1"
    = Some (spec_row users ["id"; "name"] row_root).
Proof.
  assert (Hw : Forall (row_well_formed ["id"; "name"]) [row_admin; row_root])
    by (repeat constructor).
  split; [exact Hw|].
  rewrite (insert_values_last_write_wins users ["id"; "name"] [row_admin; row_root] "1");
    [vm_compute; reflexivity|discriminate|by_decide|apply users_columns_ok|exact Hw].
Defined.

Lemma insert_values_drops_invalid_column_witness :
  (TableInfo.insert_values users ["id"; "name"] [row_null_name]).2 = Ret ()
  ∧ ∃ row, (TableInfo.insert_values users ["id"; "name"] [row_null_name]).1
             .(TableInfo.data).(TableData.row_data) !! row_key users ["id"; "name"] row_null_name = Some row
           ∧ row.(TableRowData.column_data) !! "name" = None.
Proof.
  apply (insert_values_drops_invalid_column users ["id"; "name"] row_null_name 1 "name" Value.Null
           (ColumnInfo.mk (DataType.Varchar (Some (CharacterLength.IntegerLength 255 None)))
              [ColumnProperties.NotNull]));
    [discriminate|by_decide|apply users_columns_ok|repeat constructor
    |reflexivity|reflexivity|reflexivity|reflexivity].
Defined.

Lemma insert_values_error_keeps_prefix_witness :
  length [Expr.Value (Value.Number "9" false)] ≠ length ["id"; "name"]
  ∧ TableInfo.insert_values users ["id"; "name"] ([row_admin] ++ [Expr.Value (Value.Number "9" false)] :: [row_bob]) =
    ((TableInfo.insert_values users ["id"; "name"] [row_admin]).1, Err "wrong number of columns")
  ∧ (TableInfo.insert_values users ["id"; "name"] [row_admin]).1
      .(TableInfo.data).(TableData.row_data) !! "1" = Some (spec_row users ["id"; "name"] row_admin).
Proof.
  split; [simpl; lia|]. split.
  - apply insert_values_error_keeps_prefix;
      [discriminate|by_decide|apply users_columns_ok|repeat constructor|simpl; lia].
  - vm_compute. reflexivity.
Defined.

Lemma insert_then_find_all_witness :
  users.(TableInfo.data).(TableData.row_data) = ∅ ∧ row_all_valid users ["id"; "name"] row_admin
  ∧ ∃ vs, TableInfo.find_all (TableInfo.insert_values users ["id"; "name"] [row_admin]).1
            SelectFields.WildCard = Ret [vs]
        ∧ vs ≡ₚ expr_raw <$> row_admin.
Proof.
  assert (Hv : row_all_valid users ["id"; "name"] row_admin).
  { intros [|[|i]] c e Hc He; simplify_eq/=;
      eexists _, _; (split; [reflexivity|split; [reflexivity|vm_compute; reflexivity]]). }
  split; [reflexivity|]. split; [exact Hv|].
  apply insert_then_find_all;
    [reflexivity|discriminate|by_decide|apply users_columns_ok|repeat constructor|exact Hv].
Defined.

Lemma insert_values_no_pk_single_key_witness :
  (TableInfo.new "log" [] [] users_columns).(TableInfo.primary_keys) = []
  ∧ dom (TableInfo.insert_values (TableInfo.new "log" [] [] users_columns) ["id"; "name"]
           [row_admin; row_bob]).1.(TableInfo.data).(TableData.row_data) ⊆ {[""]}.
Proof.
  split; [reflexivity|]. apply insert_values_no_pk_single_key; [reflexivity|].
  simpl. rewrite dom_empty_L. apply empty_subseteq.
Defined.

Lemma composite_key_collision_witness :
  "a" ≠ "" ∧ "b" ≠ ""
  ∧ (TableInfo.insert_values pairs ["x"; "y"] [str_row ("a" +:+ "_" +:+ "b") "c"; str_row "a" ("b" +:+ "_" +:+ "c")]).1
      .(TableInfo.data).(TableData.row_data)
    = {["a" +:+ "_" +:+ "b" +:+ "_" +:+ "c" := spec_row pairs ["x"; "y"] (str_row "a" ("b" +:+ "_" +:+ "c"))]}.
Proof.
  assert (Ha : "a" ≠ "") by done. assert (Hb : "b" ≠ "") by done.
  split; [exact Ha|]. split; [exact Hb|]. exact (proj1 (composite_key_collision "a" "b" "c" Ha Hb)).
Defined.

Lemma find_all_named_fields_witness :
  TableData.find_all (TableInfo.insert_values users ["id"] [[Expr.Value (Value.Number "9" false)]]).1
      .(TableInfo.data) (SelectFields.NamedFields ["name"]) = Panic unwrap_none_msg
  ∧ TableData.find_all (TableInfo.insert_values users ["id"] [[Expr.Value (Value.Number "9" false)]]).1
      .(TableInfo.data) (SelectFields.NamedFields ["name"])
    = if bool_decide (map_Forall (λ _ row, Forall (λ f, is_Some (row.(TableRowData.column_data) !! f)) ["name"])
                        (TableInfo.insert_values users ["id"] [[Expr.Value (Value.Number "9" false)]]).1
                          .(TableInfo.data).(TableData.row_data))
      then Ret (map (λ kv, map (λ f, default None (kv.2.(TableRowData.column_data) !! f)) ["name"])
                  (map_to_list (TableInfo.insert_values users ["id"] [[Expr.Value (Value.Number "9" false)]]).1
                     .(TableInfo.data).(TableData.row_data)))
      else Panic unwrap_none_msg.
Proof. split; [vm_compute; reflexivity|]. apply find_all_named_fields. Defined.
