(* ===== verification/Codec.v ===== *)
(** * The serialisation of query results

    [executor.rs] answers a [SELECT *] with
    [bitcode::encode(&table.find_all(SelectFields::WildCard))] appended to
    the reply buffer.  The spec fixes only the logical shape of that
    payload (a row count, then per row a value count, then per value a
    presence flag and a length-prefixed UTF-8 text) and makes the codec
    pluggable.  So the executor is modelled against an interface:

    - [RowCodec] (a typeclass) has an encoder of result sets to bytes, a
      decoder that reads one result set off the front of a byte list and
      returns the rest, and its law: decoding the encoding of [rs]
      followed by any bytes gives back [rs] and those bytes.  The law is
      what a client needs: the executor appends one encoding per wildcard
      and table, and the reader can take them apart again.
    - [leb128_codec] implements it with the shape of the spec, counts and
      lengths written as LEB128 varints, and proves the law.  The
      round trip of the varints is proved with enough fuel: the decoder is
      given as much fuel as it has input bytes, and the encoder one step
      per bit of the number ([leb128_enough_fuel]). *)

From S2P Require Import Prelude.
From Stdlib Require Import Ascii.
From Stdlib Require Import Strings.Byte.

Abbreviation Rows := (list (list (option string))).

Class RowCodec := {
  encode_rows : Rows → list byte;
  decode_rows : list byte → option (Rows * list byte);
  decode_encode_rows : ∀ rs rest, decode_rows (encode_rows rs ++ rest) = Some (rs, rest)
}.

(** ** LEB128 varints *)

Local Open Scope N_scope.

(** A number below 256 as a byte. *)
Definition byte_of_N (n : N) : byte :=
  match Byte.of_N n with Some b => b | None => x00 end.

(** Seven bits per byte, least significant first; bit 7 marks a byte
    that is followed by another one. *)
Fixpoint leb128_enc (fuel : nat) (n : N) : list byte :=
  match fuel with
  | O => []
  | S f =>
      if n <? 128 then [byte_of_N n]
      else byte_of_N (n mod 128 + 128) :: leb128_enc f (n / 128)
  end.

Definition leb128 (n : N) : list byte := leb128_enc (S (N.to_nat (N.size n))) n.

Fixpoint leb128_dec (fuel : nat) (bs : list byte) : option (N * list byte) :=
  match fuel, bs with
  | S f, b :: bs' =>
      let v := Byte.to_N b in
      if v <? 128 then Some (v, bs')
      else '(n, r) ← leb128_dec f bs'; Some (v - 128 + 128 * n, r)
  | _, _ => None
  end.

Local Close Scope N_scope.

(** ** The result-set encoding *)

Definition enc_str (s : string) : list byte :=
  leb128 (N.of_nat (String.length s)) ++ String.list_byte_of_string s.

Definition enc_value (v : option string) : list byte :=
  match v with
  | None => [x00]
  | Some s => x01 :: enc_str s
  end.

Definition enc_row (r : list (option string)) : list byte :=
  leb128 (N.of_nat (length r)) ++ mjoin (enc_value <$> r).

Definition enc_rows (rs : Rows) : list byte :=
  leb128 (N.of_nat (length rs)) ++ mjoin (enc_row <$> rs).

Definition dec_varint (bs : list byte) : option (N * list byte) := leb128_dec (length bs) bs.

Definition dec_str (bs : list byte) : option (string * list byte) :=
  '(n, r) ← dec_varint bs;
  if bool_decide (N.to_nat n ≤ length r)
  then Some (String.string_of_list_byte (take (N.to_nat n) r), drop (N.to_nat n) r)
  else None.

Definition dec_value (bs : list byte) : option (option string * list byte) :=
  match bs with
  | x00 :: r => Some (None, r)
  | x01 :: r => '(s, r') ← dec_str r; Some (Some s, r')
  | _ => None
  end.

(** [k] items read one after the other. *)
Fixpoint dec_many {A} (dec : list byte → option (A * list byte)) (k : nat) (bs : list byte)
    : option (list A * list byte) :=
  match k with
  | O => Some ([], bs)
  | S k' => '(x, r) ← dec bs; '(xs, r') ← dec_many dec k' r; Some (x :: xs, r')
  end.

Definition dec_row (bs : list byte) : option (list (option string) * list byte) :=
  '(n, r) ← dec_varint bs; dec_many dec_value (N.to_nat n) r.

Definition dec_rows (bs : list byte) : option (Rows * list byte) :=
  '(n, r) ← dec_varint bs; dec_many dec_row (N.to_nat n) r.

(** ** The round trip *)

Lemma byte_of_N_to_N n : (n ≤ 255)%N → Byte.to_N (byte_of_N n) = n.
Proof.
  intros Hn. unfold byte_of_N. destruct (Byte.of_N n) as [b|] eqn:Hb.
  - by apply Byte.to_of_N.
  - apply Byte.of_N_None_iff in Hb. lia.
Qed.

Lemma length_leb128_enc f n : length (leb128_enc f n) ≤ f.
Proof.
  revert n. induction f as [|f IH]; intros n; simpl; [lia|].
  destruct (n <? 128)%N; simpl; [lia|]. specialize (IH (n / 128)%N). lia.
Qed.

Lemma leb128_enc_S_lt f n : (n < 128)%N → leb128_enc (S f) n = [byte_of_N n].
Proof. intros Hn. simpl. by rewrite (proj2 (N.ltb_lt n 128) Hn). Qed.

Lemma leb128_enc_S_ge f n :
  (128 ≤ n)%N → leb128_enc (S f) n = byte_of_N (n mod 128 + 128) :: leb128_enc f (n / 128).
Proof. intros Hn. simpl. by rewrite (proj2 (N.ltb_ge n 128) Hn). Qed.

Lemma leb128_dec_enc f n rest d :
  (n < 128 ^ N.of_nat (S f))%N → length (leb128_enc (S f) n) ≤ d →
  leb128_dec d (leb128_enc (S f) n ++ rest) = Some (n, rest).
Proof.
  revert n d. induction f as [|f IH]; intros n d Hn Hd.
  - change (N.of_nat 1) with 1%N in Hn. rewrite N.pow_1_r in Hn.
    rewrite leb128_enc_S_lt in Hd |- * by done.
    destruct d as [|d]; simpl in *; [lia|].
    rewrite byte_of_N_to_N by lia. by rewrite (proj2 (N.ltb_lt n 128) Hn).
  - destruct (N.lt_ge_cases n 128) as [Hlt|Hge].
    + rewrite leb128_enc_S_lt in Hd |- * by done.
      destruct d as [|d]; simpl in *; [lia|].
      rewrite byte_of_N_to_N by lia. by rewrite (proj2 (N.ltb_lt n 128) Hlt).
    + rewrite leb128_enc_S_ge in Hd |- * by done.
      destruct d as [|d]; cbn [length] in Hd; [lia|].
      pose proof (N.mod_lt n 128 ltac:(lia)).
      cbn [app leb128_dec]. rewrite byte_of_N_to_N by lia.
      rewrite (proj2 (N.ltb_ge (n mod 128 + 128) 128) (N.le_add_l 128 (n mod 128))).
      rewrite IH; [|apply N.Div0.div_lt_upper_bound; rewrite Nat2N.inj_succ, N.pow_succ_r' in Hn; lia|lia].
      cbn. rewrite N.add_sub. do 2 f_equal. rewrite (N.div_mod n 128) at 3 by done. lia.
Qed.

(** The encoder's fuel, one step per bit, is enough. *)
Lemma leb128_enough_fuel n : (n < 128 ^ N.of_nat (S (N.to_nat (N.size n))))%N.
Proof.
  pose proof (N.size_gt n) as H.
  rewrite Nat2N.inj_succ, N2Nat.id.
  assert (2 ^ N.size n ≤ 128 ^ N.size n)%N by (apply N.pow_le_mono_l; lia).
  assert (128 ^ N.size n ≤ 128 ^ N.succ (N.size n))%N by (apply N.pow_le_mono_r; lia).
  lia.
Qed.

Lemma dec_varint_leb128 n rest : dec_varint (leb128 n ++ rest) = Some (n, rest).
Proof.
  unfold dec_varint, leb128. apply leb128_dec_enc; [apply leb128_enough_fuel|].
  rewrite length_app. lia.
Qed.

Lemma dec_str_enc s rest : dec_str (enc_str s ++ rest) = Some (s, rest).
Proof.
  unfold dec_str, enc_str. rewrite <- app_assoc, dec_varint_leb128. simpl.
  rewrite Nat2N.id, bool_decide_true by (rewrite length_app, length_list_byte_of_string; lia).
  rewrite <- length_list_byte_of_string, take_app_length, drop_app_length.
  by rewrite String.string_of_list_byte_of_string.
Qed.

Lemma dec_value_enc v rest : dec_value (enc_value v ++ rest) = Some (v, rest).
Proof. destruct v as [s|]; simpl; [|done]. by rewrite dec_str_enc. Qed.

Lemma dec_many_enc {A} (dec : list byte → option (A * list byte)) enc xs rest :
  (∀ x r, dec (enc x ++ r) = Some (x, r)) →
  dec_many dec (length xs) (mjoin (enc <$> xs) ++ rest) = Some (xs, rest).
Proof.
  intros Hdec. induction xs as [|x xs IH]; simpl; [done|].
  change (list_fmap A (list byte) enc xs) with (enc <$> xs).
  rewrite <- app_assoc, Hdec. simpl. by rewrite IH.
Qed.

Lemma dec_row_enc r rest : dec_row (enc_row r ++ rest) = Some (r, rest).
Proof.
  unfold dec_row, enc_row. rewrite <- app_assoc, dec_varint_leb128. cbn [mbind option_bind].
  rewrite Nat2N.id. apply dec_many_enc, dec_value_enc.
Qed.

Lemma dec_rows_enc rs rest : dec_rows (enc_rows rs ++ rest) = Some (rs, rest).
Proof.
  unfold dec_rows, enc_rows. rewrite <- app_assoc, dec_varint_leb128. cbn [mbind option_bind].
  rewrite Nat2N.id. apply dec_many_enc, dec_row_enc.
Qed.

#[export] Instance leb128_codec : RowCodec :=
  {| encode_rows := enc_rows; decode_rows := dec_rows; decode_encode_rows := dec_rows_enc |}.
