(* ===== verification/Executor.v ===== *)
(** * The statement executor ([src/src/executor.rs], [src/src/main.rs])

    [Execute::execute] for [Statement] takes the database by [&mut] and
    returns a [Result<SuccessStatus, String>].  It is modelled as
    [execute db st], which returns the new database and an [outcome]
    (a [Ret], an [Err] with the message, or the [Panic] of an
    [expect]/[unwrap]).  The arms:

    - [CreateTable] ([execute_create_table], lines 20-87): the loops over
      the columns ([columns_loop]) and over their options ([options_loop],
      one step per option in [option_step]) build the primary keys, the
      indexes and the column map, then [DataBase::create_table] stores the
      table.  The table-level [constraints] and [IF NOT EXISTS] are not
      read.
    - [Insert] ([execute_insert], lines 88-111): [insert_values] on the
      table behind the [Arc<Mutex<_>>], its [Result] discarded.  Writing
      through the handle is [DataBase.put_table].
    - [Query] ([execute_query], lines 112-148): the loop over the [FROM]
      list ([from_loop]) and, per table, over the projection
      ([projections_loop]); each [*] appends the encoding of
      [find_all(WildCard)] to the reply.  The encoder is the [RowCodec]
      interface of [Codec.v], a [Context] of the section.
    - any other statement: [Err "not yet implemented"].

    The trait [Execute] (lines 13-15) is a typeclass whose instance for
    [Statement] is [execute]; [main.rs] executes the parsed statements one
    after the other on one database through the trait: [run];
    [reachable] is the set of databases it can produce.

    The theorems give each arm's behaviour on every path (success, error,
    panic), the invariants [db_wf] and [db_typed] of the reachable
    databases, the decoding
    of a [SELECT *] payload against the codec's law, and the frame,
    locality and commutation of statements on different tables. *)

From S2P Require Import Prelude SqlAst Validators DataDescriptor Codec.
From Stdlib Require Import Strings.Byte.

Module SuccessStatus.
Inductive t :=
| TableCreated (name : string)
| DataInserted
| DataFetched (bytes : list byte).
End SuccessStatus.

Definition table_name_msg : string := "A valid table name must be provided".
Definition no_values_msg : string := "No values to insert provided".
Definition not_implemented_msg : string := "not yet implemented".
Definition no_table_msg (table_name_str : string) : string :=
  "No table named " +:+ table_name_str +:+ " exists".

(** The trait [Execute] (lines 13-15): a statement runs on the database
    it borrows mutably and answers a [Result]. *)
Class Execute (A : Type) := execute_on : A → DataBase.t → DataBase.t * outcome SuccessStatus.t.

(** ** [CREATE TABLE] *)

(** The accumulators of the column loop: [primary_keys], [indexes] and the
    [column_property_list] of the current column. *)
Record create_acc := mk_acc {
  acc_primary_keys : list string;
  acc_indexes : list string;
  acc_props : list ColumnProperties.t
}.

Definition push_prop (a : create_acc) (p : ColumnProperties.t) : create_acc :=
  mk_acc a.(acc_primary_keys) a.(acc_indexes) (a.(acc_props) ++ [p]).

(** Lines 37-76: one [ColumnOption] of column [col_name_str]. *)
Definition option_step (col_name_str : string) (a : create_acc) (opt : ColumnOption.t)
    : outcome create_acc :=
  match opt with
  | ColumnOption.Null => Ret (push_prop a ColumnProperties.Null)
  | ColumnOption.NotNull => Ret (push_prop a ColumnProperties.NotNull)
  | ColumnOption.Default expr => Ret (push_prop a (ColumnProperties.Default expr))
  | ColumnOption.Unique is_primary =>
      let a := if is_primary
               then mk_acc (a.(acc_primary_keys) ++ [col_name_str]) a.(acc_indexes)
                      (a.(acc_props) ++ [ColumnProperties.PriamryKey])
               else a in
      Ret (mk_acc a.(acc_primary_keys) (a.(acc_indexes) ++ [col_name_str])
             (a.(acc_props) ++ [ColumnProperties.Unique]))
  | ColumnOption.ForeignKey foreign_table referred_columns on_delete on_update =>
      f_table_name_str ← expect (head foreign_table) table_name_msg;
      Ret (push_prop a (ColumnProperties.ForeignKey f_table_name_str referred_columns
                          on_delete on_update))
  | ColumnOption.OnUpdate expr => Ret (push_prop a (ColumnProperties.OnUpdate expr))
  | ColumnOption.DialectSpecific tokens =>
      tok ← expect (head tokens) unwrap_none_msg;
      match tok with
      | Token.Word _key_word => Ret (push_prop a ColumnProperties.AutoIncrement)
      | _ => Ret a
      end
  | ColumnOption.Other _ => Ret a
  end.

(** Line 36: [for option_def in column.options.clone()]. *)
Fixpoint options_loop (col_name_str : string) (a : create_acc) (opts : list ColumnOptionDef)
    : outcome create_acc :=
  match opts with
  | [] => Ret a
  | option_def :: opts' =>
      a' ← option_step col_name_str a option_def.(column_option);
      options_loop col_name_str a' opts'
  end.

(** Lines 32-83: [for column in columns]; the [ColumnInfo] of each column
    is inserted under its name, a later column of the same name replacing
    an earlier one. *)
Fixpoint columns_loop (primary_keys indexes : list string)
    (column_properies : gmap string ColumnInfo.t) (columns : list ColumnDef)
    : outcome (list string * list string * gmap string ColumnInfo.t) :=
  match columns with
  | [] => Ret (primary_keys, indexes, column_properies)
  | column :: columns' =>
      let col_name_str := column.(col_name) in
      a ← options_loop col_name_str (mk_acc primary_keys indexes []) column.(options);
      let col_info := ColumnInfo.mk column.(data_type) a.(acc_props) in
      columns_loop a.(acc_primary_keys) a.(acc_indexes)
        (<[col_name_str := col_info]> column_properies) columns'
  end.

(** Lines 20-87. *)
Definition execute_create_table (db : DataBase.t) (name : ObjectName) (columns : list ColumnDef)
    : DataBase.t * outcome SuccessStatus.t :=
  match head name with
  | None => (db, Panic table_name_msg)
  | Some table_name_str =>
      match columns_loop [] [] ∅ columns with
      | Ret (primary_keys, indexes, column_properies) =>
          (DataBase.create_table db table_name_str primary_keys indexes column_properies,
           Ret (SuccessStatus.TableCreated table_name_str))
      | Err e => (db, Err e)
      | Panic e => (db, Panic e)
      end
  end.

(** ** [INSERT] *)

(** Lines 98-102: the rows of a [VALUES] body; any other body inserts
    nothing. *)
Definition insert_rows_of (q : Query) : list (list Expr.t) :=
  match q.(body) with
  | SetExpr.Values rows => rows
  | _ => []
  end.

(** Lines 88-111: the [Result] of [insert_values] is dropped (line 105);
    only a panic inside it would surface. *)
Definition execute_insert (db : DataBase.t) (table_name : ObjectName) (columns : list Ident)
    (source : option Query) : DataBase.t * outcome SuccessStatus.t :=
  match head table_name with
  | None => (db, Panic table_name_msg)
  | Some table_name_str =>
      match source with
      | None => (db, Panic no_values_msg)
      | Some q =>
          let values := insert_rows_of q in
          let col_names := columns in
          match DataBase.get_table_ref db table_name_str with
          | Some table =>
              let '(table', r) := TableInfo.insert_values table col_names values in
              (DataBase.put_table db table_name_str table',
               match r with
               | Panic e => Panic e
               | _ => Ret SuccessStatus.DataInserted
               end)
          | None => (db, Err (no_table_msg table_name_str))
          end
      end
  end.

(** ** [SELECT] and the dispatcher, against a codec *)

Section WithCodec.
Context `{RowCodec}.

(** Lines 126-136: [for projection in &select_q.projection]; only [*] is
    served. *)
Fixpoint projections_loop (table : TableInfo.t) (projection : list SelectItem.t)
    (ret_value : list byte) : outcome (list byte) :=
  match projection with
  | [] => Ret ret_value
  | SelectItem.Wildcard :: projection' =>
      rows ← TableInfo.find_all table SelectFields.WildCard;
      projections_loop table projection' (ret_value ++ encode_rows rows)
  | _ :: _ => Err not_implemented_msg
  end.

(** Lines 116-143: [for data_from in &*select_q.from]; the joins of each
    entry are not looked at. *)
Fixpoint from_loop (db : DataBase.t) (projection : list SelectItem.t)
    (froms : list TableWithJoins) (ret_value : list byte) : outcome (list byte) :=
  match froms with
  | [] => Ret ret_value
  | data_from :: froms' =>
      match data_from.(relation) with
      | TableFactor.Table name =>
          table_name_str ← expect (head name) table_name_msg;
          match DataBase.get_table_ref db table_name_str with
          | Some table =>
              ret_value' ← projections_loop table projection ret_value;
              from_loop db projection froms' ret_value'
          | None => Err (no_table_msg table_name_str)
          end
      | _ => Err not_implemented_msg
      end
  end.

(** Lines 112-148: a query reads the database and leaves it as it is;
    [WHERE], [ORDER BY], [LIMIT] and [DISTINCT] are not looked at. *)
Definition execute_query (db : DataBase.t) (query : Query) : outcome SuccessStatus.t :=
  match query.(body) with
  | SetExpr.Select select_q =>
      ret_value ← from_loop db select_q.(projection) select_q.(from) [];
      Ret (SuccessStatus.DataFetched ret_value)
  | _ => Err not_implemented_msg
  end.

(** [<Statement as Execute>::execute], lines 18-152. *)
Definition execute (db : DataBase.t) (st : Statement.t) : DataBase.t * outcome SuccessStatus.t :=
  match st with
  | Statement.CreateTable name columns _constraints _if_not_exists =>
      execute_create_table db name columns
  | Statement.Insert table_name columns source => execute_insert db table_name columns source
  | Statement.Query query => (db, execute_query db query)
  | Statement.Other _ => (db, Err not_implemented_msg)
  end.

(** [impl Execute for Statement] (line 17). *)
#[export] Instance statement_execute : Execute Statement.t := λ st db, execute db st.

(** The databases [main] can reach: the empty one, and whatever a
    statement leaves behind. *)
Inductive reachable : DataBase.t → Prop :=
| reachable_new : reachable DataBase.new
| reachable_step db st : reachable db → reachable (execute db st).1.

End WithCodec.

(** [main.rs], lines 39-52: the statements run in order on one database,
    through the [Execute] trait, each result only printed. *)
Fixpoint run {A} `{Execute A} (db : DataBase.t) (ast : list A) : DataBase.t * list (outcome SuccessStatus.t) :=
  match ast with
  | [] => (db, [])
  | expr :: ast' =>
      let '(db', res) := execute_on expr db in
      let '(db'', results) := run db' ast' in
      (db'', res :: results)
  end.

(** ** What the executor promises, stated over the statement *)

(** The options that make [option_step] push to [primary_keys] and to
    [indexes], and those whose [expect]/[unwrap] panics. *)
Definition is_primary_option (o : ColumnOption.t) : bool :=
  match o with ColumnOption.Unique true => true | _ => false end.

Definition is_unique_option (o : ColumnOption.t) : bool :=
  match o with ColumnOption.Unique _ => true | _ => false end.

Definition option_panics (o : ColumnOption.t) : bool :=
  match o with
  | ColumnOption.ForeignKey [] _ _ _ => true
  | ColumnOption.DialectSpecific [] => true
  | _ => false
  end.

Definition column_panics (col : ColumnDef) : bool :=
  existsb (λ od, option_panics od.(column_option)) col.(options).

(** The primary-key and index entries one column contributes: its name
    once per [PRIMARY KEY], resp. once per [UNIQUE] or [PRIMARY KEY]. *)
Definition column_pk_names (col : ColumnDef) : list string :=
  (λ _, col.(col_name)) <$> List.filter (λ od, is_primary_option od.(column_option)) col.(options).

Definition column_index_names (col : ColumnDef) : list string :=
  (λ _, col.(col_name)) <$> List.filter (λ od, is_unique_option od.(column_option)) col.(options).

(** The declared type of each column, a later column of the same name
    winning. *)
Definition column_types (cols : list ColumnDef) : gmap string DataType.t :=
  list_to_map (reverse ((λ col, (col.(col_name), col.(data_type))) <$> cols)).

(** The result set of [find_all(WildCard)]: per stored row, its values. *)
Definition wildcard_rows (tbl : TableInfo.t) : Rows :=
  map (λ kv, TableRowData.get_wild_card kv.2) (map_to_list tbl.(TableInfo.data).(TableData.row_data)).

(** A [FROM] entry that names the existing table [tbl]. *)
Definition from_table (db : DataBase.t) (data_from : TableWithJoins) (tbl : TableInfo.t) : Prop :=
  ∃ tn rest, data_from.(relation) = TableFactor.Table (tn :: rest)
             ∧ DataBase.get_table_ref db tn = Some tbl.

(** The invariant of a table stored under [name]: it knows its name, its
    primary keys and indexes are columns of its schema, the secondary
    index is empty (nothing writes it), and every stored row only has
    values for schema columns. *)
Definition table_wf (name : string) (tbl : TableInfo.t) : Prop :=
  tbl.(TableInfo.table_name) = name
  ∧ Forall (λ k, k ∈ dom tbl.(TableInfo.column_properies)) tbl.(TableInfo.primary_keys)
  ∧ Forall (λ k, k ∈ dom tbl.(TableInfo.column_properies)) tbl.(TableInfo.indexes)
  ∧ tbl.(TableInfo.data).(TableData.indexed_data) = ∅
  ∧ map_Forall (λ _ row, dom row.(TableRowData.column_data) ⊆ dom tbl.(TableInfo.column_properies))
      tbl.(TableInfo.data).(TableData.row_data).

Definition db_wf (db : DataBase.t) : Prop := map_Forall table_wf db.(DataBase.tables).

(** Every value stored in every table is well typed for its column. *)
Definition db_typed (db : DataBase.t) : Prop := map_Forall (λ _ tbl, table_typed tbl) db.(DataBase.tables).

(** The table a statement writes: the one a [CREATE TABLE] or an
    [INSERT] names; a query writes none. *)
Definition modified_table (st : Statement.t) : option string :=
  match st with
  | Statement.CreateTable name _ _ _ => head name
  | Statement.Insert table_name _ _ => head table_name
  | _ => None
  end.

(** ** The statements of [main.rs] *)

Definition plain_option (o : ColumnOption.t) : ColumnOptionDef :=
  {| option_name := None; column_option := o |}.

Definition values_query (rows : list (list Expr.t)) : Query :=
  {| body := SetExpr.Values rows; order_by := []; limit := None |}.

Definition simple_select (projection : list SelectItem.t) (tables : list string) : Select :=
  {| distinct := false; projection := projection;
     from := (λ tn, {| relation := TableFactor.Table [tn]; joins := [] |}) <$> tables;
     selection := None |}.

Definition select_query (projection : list SelectItem.t) (tables : list string) : Query :=
  {| body := SetExpr.Select (simple_select projection tables); order_by := []; limit := None |}.

(** [CREATE TABLE IF NOT EXISTS users (id bigint(20) PRIMARY KEY
    AUTO_INCREMENT, name VARCHAR(255) NOT NULL, password VARCHAR(255) NOT
    NULL)], as the generic dialect parses it. *)
Definition users_columns_def : list ColumnDef :=
  [ {| col_name := "id"; data_type := DataType.BigInt (Some 20%N);
       options := [plain_option (ColumnOption.Unique true);
                   plain_option (ColumnOption.DialectSpecific [Token.Word "AUTO_INCREMENT"])] |};
    {| col_name := "name"; data_type := DataType.Varchar (Some (CharacterLength.IntegerLength 255 None));
       options := [plain_option ColumnOption.NotNull] |};
    {| col_name := "password"; data_type := DataType.Varchar (Some (CharacterLength.IntegerLength 255 None));
       options := [plain_option ColumnOption.NotNull] |} ].

Definition create_users : Statement.t := Statement.CreateTable ["users"] users_columns_def [] true.

Definition hash_admin : string := "$2b$10$I6gmAyHE0r3TGZEnDP0O5efjsuBXVT36M.HLyZDm4cuJFyJcqXdG.".
Definition hash_armando : string := "$2b$10$qQEy7J/lN3XXP.Gp1wv3zO2SjpOp3NmsACA2TroekCYVUa55K6T8i".

(** [INSERT INTO users (id, name, password) VALUES (1, 'admin', ...),
    (2, 'armando', ...)], the first two rows of [main.rs]. *)
Definition insert_users : Statement.t :=
  Statement.Insert ["users"] ["id"; "name"; "password"]
    (Some (values_query
       [[Expr.Value (Value.Number "1" false); Expr.Value (Value.SingleQuotedString "admin");
         Expr.Value (Value.SingleQuotedString hash_admin)];
        [Expr.Value (Value.Number "2" false); Expr.Value (Value.SingleQuotedString "armando");
         Expr.Value (Value.SingleQuotedString hash_armando)]])).

Definition select_users : Statement.t := Statement.Query (select_query [SelectItem.Wildcard] ["users"]).

(** [INSERT INTO users (id, name, password) VALUES ...] with the given
    rows. *)
Definition insert_users_rows (rows : list (list Expr.t)) : Statement.t :=
  Statement.Insert ["users"] ["id"; "name"; "password"] (Some (values_query rows)).

Definition user_row (id name password : string) : list Expr.t :=
  [Expr.Value (Value.Number id false); Expr.Value (Value.SingleQuotedString name);
   Expr.Value (Value.SingleQuotedString password)].

(** The rows a [DataFetched] answer decodes to with the LEB128 codec. *)
Definition fetched_rows (o : outcome SuccessStatus.t) : option Rows :=
  match o with
  | Ret (SuccessStatus.DataFetched bytes) => fst <$> dec_rows bytes
  | _ => None
  end.

(** A database holding the table [users] of [DataDescriptor.v]. *)
Definition users_db : DataBase.t := DataBase.create_table DataBase.new "users" ["id"] ["id"] users_columns.

(** ** [CREATE TABLE] *)

Lemma option_step_spec c a o :
  if option_panics o then ∃ m, option_step c a o = Panic m
  else ∃ a', option_step c a o = Ret a'
    ∧ a'.(acc_primary_keys) = a.(acc_primary_keys) ++ (if is_primary_option o then [c] else [])
    ∧ a'.(acc_indexes) = a.(acc_indexes) ++ (if is_unique_option o then [c] else []).
Proof.
  destruct o as [| | |[]|[]|?|[|[]]|?]; simpl; eauto; eexists; (split; [done|]); simpl;
    rewrite ?app_nil_r; auto; by rewrite <- app_assoc.
Qed.

(** The loop over one column's options panics exactly when one of them
    does, and otherwise adds the column's primary-key and index entries. *)
Lemma options_loop_spec c a opts :
  if existsb (λ od, option_panics od.(column_option)) opts then ∃ m, options_loop c a opts = Panic m
  else ∃ a', options_loop c a opts = Ret a'
    ∧ a'.(acc_primary_keys) = a.(acc_primary_keys)
        ++ ((λ _, c) <$> List.filter (λ od, is_primary_option od.(column_option)) opts)
    ∧ a'.(acc_indexes) = a.(acc_indexes)
        ++ ((λ _, c) <$> List.filter (λ od, is_unique_option od.(column_option)) opts).
Proof.
  revert a. induction opts as [|od opts IH]; intros a; simpl.
  - eexists. by rewrite !app_nil_r.
  - pose proof (option_step_spec c a od.(column_option)) as Hs.
    destruct (option_panics _); simpl.
    + destruct Hs as [m ->]. by eexists.
    + destruct Hs as (a1 & -> & Hp & Hi). simpl. specialize (IH a1).
      destruct (existsb _ opts); [done|]. destruct IH as (a' & -> & Hp' & Hi').
      exists a'. split; [done|]. rewrite Hp', Hi', Hp, Hi.
      split; [destruct (is_primary_option _)|destruct (is_unique_option _)];
        by rewrite <- ?app_assoc.
Qed.

(** The loop over the columns: it panics exactly when a column's options
    do; otherwise primary keys and indexes collect the entries of each
    column in order, and the schema maps each name to the type of its last
    column. *)
Lemma columns_loop_spec pks idx cp cols :
  if existsb column_panics cols then ∃ m, columns_loop pks idx cp cols = Panic m
  else ∃ cp', columns_loop pks idx cp cols = Ret (pks ++ mjoin (column_pk_names <$> cols),
                                                 idx ++ mjoin (column_index_names <$> cols), cp')
    ∧ ColumnInfo.type_name <$> cp' = column_types cols ∪ (ColumnInfo.type_name <$> cp)
    ∧ dom cp' = list_to_set (col_name <$> cols) ∪ dom cp.
Proof.
  revert pks idx cp. induction cols as [|col cols IH]; intros pks idx cp; simpl.
  - eexists. rewrite !app_nil_r. split; [done|]. unfold column_types. simpl.
    split; [by rewrite map_empty_union|set_solver].
  - pose proof (options_loop_spec col.(col_name) (mk_acc pks idx []) col.(options)) as Hs.
    unfold column_panics at 1. destruct (existsb _ col.(options)); simpl.
    + destruct Hs as [m ->]. simpl. by eexists.
    + destruct Hs as (a & -> & Hp & Hi). simpl in *.
      specialize (IH a.(acc_primary_keys) a.(acc_indexes)
                    (<[col.(col_name) := ColumnInfo.mk col.(data_type) a.(acc_props)]> cp)).
      destruct (existsb column_panics cols); [done|].
      destruct IH as (cp' & -> & Ht & Hd). exists cp'.
      rewrite Hp, Hi, <- !app_assoc. split; [by unfold column_pk_names, column_index_names|]. split.
      * rewrite Ht, fmap_insert. unfold column_types. simpl.
        rewrite reverse_cons, list_to_map_app. simpl.
        by rewrite insert_empty, <- map_union_assoc, <- insert_union_singleton_l.
      * rewrite Hd, dom_insert_L. set_solver.
Qed.

Section ExecutorProofs.
Context `{RowCodec}.

(** C6. [CREATE TABLE t (...)] whose column options do not panic
    answers [TableCreated t] and stores under [t] an empty table whose
    primary keys are the names of the columns with a [PRIMARY KEY] option
    (one entry per such option, in column order), whose indexes are those
    with [UNIQUE] or [PRIMARY KEY], and whose schema maps each column name
    to its declared type (the last declaration of a repeated name wins).
    The table-level constraints and [IF NOT EXISTS] play no part: a
    [PRIMARY KEY (a, b)] clause declares no key, and an existing table of
    that name is replaced.  The other tables are left as they were. *)
Theorem create_table_schema db tn rest cols constraints if_not_exists :
  existsb column_panics cols = false →
  let '(db', r) := execute db (Statement.CreateTable (tn :: rest) cols constraints if_not_exists) in
  r = Ret (SuccessStatus.TableCreated tn)
  ∧ (∃ tbl, DataBase.get_table_ref db' tn = Some tbl
       ∧ tbl.(TableInfo.table_name) = tn
       ∧ tbl.(TableInfo.primary_keys) = mjoin (column_pk_names <$> cols)
       ∧ tbl.(TableInfo.indexes) = mjoin (column_index_names <$> cols)
       ∧ ColumnInfo.type_name <$> tbl.(TableInfo.column_properies) = column_types cols
       ∧ TableInfo.find_all tbl SelectFields.WildCard = Ret [])
  ∧ ∀ n, n ≠ tn → DataBase.get_table_ref db' n = DataBase.get_table_ref db n.
Proof.
  intros Hp. pose proof (columns_loop_spec [] [] ∅ cols) as Hs. rewrite Hp in Hs.
  destruct Hs as (cp & Hrun & Ht & _). unfold execute, execute_create_table. cbn [head].
  rewrite Hrun. split; [done|]. split.
  - eexists. unfold DataBase.get_table_ref, DataBase.create_table. cbn [DataBase.tables].
    rewrite lookup_insert_eq. split; [done|]. split; [done|]. split; [done|]. split; [done|].
    split; [cbn [TableInfo.column_properies TableInfo.new]; by rewrite Ht, fmap_empty, map_union_empty|].
    unfold TableInfo.find_all, TableData.find_all. simpl. by rewrite map_to_list_empty.
  - intros n Hn. unfold DataBase.get_table_ref, DataBase.create_table. simpl.
    by rewrite lookup_insert_ne.
Qed.

(** C25. [CREATE TABLE] panics, leaving the database as it was, when the
    table name is empty or a column has a [REFERENCES] option without a
    table name or a dialect-specific option without tokens (the [expect]
    of line 60 and the [unwrap] of line 71). *)
Theorem create_table_panics db name cols constraints if_not_exists :
  name = [] ∨ existsb column_panics cols = true →
  ∃ m, execute db (Statement.CreateTable name cols constraints if_not_exists) = (db, Panic m).
Proof.
  intros Hpanic. unfold execute, execute_create_table.
  destruct name as [|tn rest]; cbn [head]; [by eexists|].
  destruct Hpanic as [|Hp]; [done|].
  pose proof (columns_loop_spec [] [] ∅ cols) as Hs. rewrite Hp in Hs.
  destruct Hs as [m ->]. by eexists.
Qed.

(** ** [INSERT] *)

(** C2. [INSERT INTO t ...] into an existing table [t] answers
    [DataInserted] whatever [insert_values] returned, errors included
    (line 105 drops its [Result]); the table becomes the one
    [insert_values] left, with the rows stored before an error. *)
Theorem insert_reports_success db tn rest cols q tbl :
  DataBase.get_table_ref db tn = Some tbl →
  execute db (Statement.Insert (tn :: rest) cols (Some q)) =
  (DataBase.put_table db tn (TableInfo.insert_values tbl cols (insert_rows_of q)).1,
   Ret SuccessStatus.DataInserted).
Proof.
  intros Htbl. unfold execute, execute_insert. cbn [head]. rewrite Htbl.
  pose proof (insert_values_no_panic tbl cols (insert_rows_of q)) as Hnp.
  by destruct (TableInfo.insert_values _ _ _) as [t' [| |]].
Qed.

(** C22. [INSERT INTO t ...] when no table [t] exists is the error
    ["No table named t exists"] and changes nothing. *)
Theorem insert_missing_table db tn rest cols q :
  DataBase.get_table_ref db tn = None →
  execute db (Statement.Insert (tn :: rest) cols (Some q)) = (db, Err (no_table_msg tn)).
Proof. intros Htbl. unfold execute, execute_insert. cbn [head]. by rewrite Htbl. Qed.

Lemma insert_values_no_rows tbl cols : (TableInfo.insert_values tbl cols []).1 = tbl.
Proof.
  unfold TableInfo.insert_values. by repeat case_match.
Qed.

Lemma put_table_same db tn tbl :
  DataBase.get_table_ref db tn = Some tbl → DataBase.put_table db tn tbl = db.
Proof. destruct db as [tables]. unfold DataBase.put_table. simpl. intros. by rewrite insert_id. Qed.

(** C23. An [INSERT] whose source is not a [VALUES] list (an
    [INSERT ... SELECT], say) inserts nothing, leaves the database as it
    was, and still answers [DataInserted]. *)
Theorem insert_non_values_noop db tn rest cols q tbl :
  DataBase.get_table_ref db tn = Some tbl →
  (∀ rows, q.(body) ≠ SetExpr.Values rows) →
  execute db (Statement.Insert (tn :: rest) cols (Some q)) = (db, Ret SuccessStatus.DataInserted).
Proof.
  intros Htbl Hbody. unfold execute, execute_insert. cbn [head]. rewrite Htbl.
  assert (insert_rows_of q = []) as ->.
  { unfold insert_rows_of. destruct (body q) as [| rows |]; [done| |done]. by destruct (Hbody rows). }
  pose proof (insert_values_no_rows tbl cols) as Hn. pose proof (insert_values_no_panic tbl cols []) as Hnp.
  destruct (TableInfo.insert_values _ _ _) as [t' r]. simpl in *. subst t'.
  rewrite put_table_same by done. by destruct r.
Qed.

(** C28. An [INSERT] into an existing table whose first row has the
    wrong number of values stores nothing and leaves the database as it
    was, yet is answered [DataInserted]: the arity error of
    [insert_values] (line 145), like its column-check errors, never
    reaches the caller, where the specification asks for an error. *)
Theorem insert_wrong_arity_silent db tn rest cols q tbl r rows :
  DataBase.get_table_ref db tn = Some tbl →
  insert_rows_of q = r :: rows → length r ≠ length cols →
  execute db (Statement.Insert (tn :: rest) cols (Some q)) = (db, Ret SuccessStatus.DataInserted).
Proof.
  intros Htbl Hq Hlen. unfold execute, execute_insert. cbn [head]. rewrite Htbl, Hq.
  assert (Hi : (TableInfo.insert_values tbl cols (r :: rows)).1 = tbl).
  { unfold TableInfo.insert_values. repeat case_match; try done. simpl.
    rewrite (proj2 (Nat.eqb_neq _ _)) by lia. done. }
  pose proof (insert_values_no_panic tbl cols (r :: rows)) as Hnp.
  destruct (TableInfo.insert_values _ _ _) as [t' res]. simpl in Hi. subst t'.
  rewrite put_table_same by done. by destruct res.
Qed.

(** ** [SELECT] *)

Lemma find_all_wildcard tbl : TableInfo.find_all tbl SelectFields.WildCard = Ret (wildcard_rows tbl).
Proof. done. Qed.

Lemma projections_loop_wildcards tbl k acc :
  projections_loop tbl (replicate k SelectItem.Wildcard) acc
  = Ret (acc ++ mjoin (encode_rows <$> replicate k (wildcard_rows tbl))).
Proof.
  revert acc. induction k as [|k IH]; intros acc; simpl; [by rewrite app_nil_r|].
  rewrite IH. by rewrite app_assoc.
Qed.

Lemma projections_loop_other tbl projection acc it :
  it ∈ projection → it ≠ SelectItem.Wildcard →
  projections_loop tbl projection acc = Err not_implemented_msg.
Proof.
  revert acc. induction projection as [|p ps IH]; intros acc Hin Hne; [by apply elem_of_nil in Hin|].
  destruct p; simpl; try done.
  apply elem_of_cons in Hin as [->|Hin]; [done|]. by apply IH.
Qed.

Lemma from_loop_wildcards db froms tbls k acc :
  Forall2 (from_table db) froms tbls →
  from_loop db (replicate k SelectItem.Wildcard) froms acc
  = Ret (acc ++ mjoin (encode_rows <$> mjoin ((λ tbl, replicate k (wildcard_rows tbl)) <$> tbls))).
Proof.
  intros Hf. revert acc. induction Hf as [|f tbl froms tbls (tn & rest & Hrel & Htbl) _ IH];
    intros acc; simpl; [by rewrite app_nil_r|].
  rewrite Hrel. simpl. rewrite Htbl, projections_loop_wildcards. simpl.
  by rewrite IH, fmap_app, join_app, app_assoc.
Qed.

Lemma length_join_replicate {A B} (f : A → B) k (l : list A) :
  length (mjoin ((λ x, replicate k (f x)) <$> l)) = length l * k.
Proof. induction l as [|x l IH]; csimpl; [done|]. rewrite length_app, length_replicate, IH. lia. Qed.

(** C5. [SELECT *, ..., * FROM t1, ..., tn] ([k] stars) over existing
    tables answers [DataFetched bytes] and leaves the database as it was;
    [bytes] holds one encoded result set per table and star, in [FROM]
    order, and the codec's decoder reads back, for each table, [k] copies
    of its rows in the order [find_all] lists them, with nothing left
    over.  [WHERE], [ORDER BY], [LIMIT], [DISTINCT] and joins play no
    part: every row of every table is returned. *)
Theorem select_wildcard_payload db q sel tbls k :
  q.(body) = SetExpr.Select sel →
  sel.(projection) = replicate k SelectItem.Wildcard →
  Forall2 (from_table db) sel.(from) tbls →
  ∃ bytes, execute db (Statement.Query q) = (db, Ret (SuccessStatus.DataFetched bytes))
    ∧ dec_many decode_rows (length tbls * k) bytes
      = Some (mjoin ((λ tbl, replicate k (wildcard_rows tbl)) <$> tbls), []).
Proof.
  intros Hbody Hproj Hfrom. simpl. unfold execute_query. rewrite Hbody, Hproj.
  rewrite (from_loop_wildcards db _ tbls) by done. simpl. eexists. split; [done|].
  rewrite <- (length_join_replicate wildcard_rows k tbls), <- (app_nil_r (mjoin (encode_rows <$> _))).
  apply dec_many_enc. intros. apply decode_encode_rows.
Qed.

(** C24. A [SELECT] whose projection lists anything but [*] (a column
    name, an expression, [t.*]) over existing tables is the error
    ["not yet implemented"]. *)
Theorem select_rejects_projection db q sel tbls it :
  q.(body) = SetExpr.Select sel →
  Forall2 (from_table db) sel.(from) tbls → sel.(from) ≠ [] →
  it ∈ sel.(projection) → it ≠ SelectItem.Wildcard →
  execute db (Statement.Query q) = (db, Err not_implemented_msg).
Proof.
  intros Hbody Hfrom Hne Hin Hit. simpl. unfold execute_query. rewrite Hbody.
  destruct Hfrom as [|f tbl froms tbls' (tn & rest & Hrel & Htbl) _]; [done|]. simpl.
  rewrite Hrel. simpl. rewrite Htbl. by rewrite (projections_loop_other _ _ _ it).
Qed.

(** ** The invariant of the reachable databases *)

Lemma insert_row_columns_dom self cols vals pk row pk' row' :
  TableInfo.insert_row_columns self cols vals pk row = Ret (pk', row') →
  dom row.(TableRowData.column_data) ⊆ dom self.(TableInfo.column_properies) →
  dom row'.(TableRowData.column_data) ⊆ dom self.(TableInfo.column_properies).
Proof.
  revert vals pk row. induction cols as [|c cs IH]; intros [|e es] pk row Hrun Hsub;
    simpl in Hrun; outcome_inv; try done.
  match goal with Hc : _ !! c = Some ?ci, H : context [match e with _ => _ end] |- _ =>
    destruct e as [v|]; [|done]; apply (IH _ _ _ H); apply elem_of_dom_2 in Hc;
    destruct (ColumnInfo.validate_value ci v); [|done] end.
  simpl. rewrite dom_insert_L. set_solver.
Qed.

Lemma store_row_wf n self pk row :
  table_wf n self →
  dom row.(TableRowData.column_data) ⊆ dom self.(TableInfo.column_properies) →
  table_wf n (TableInfo.store_row self pk row).
Proof.
  intros (? & ? & ? & ? & Hrows) Hsub. unfold TableInfo.store_row, table_wf. simpl.
  do 4 (split; [done|]). by apply map_Forall_insert_2.
Qed.

Lemma insert_values_wf n self cols vals :
  table_wf n self → table_wf n (TableInfo.insert_values self cols vals).1.
Proof.
  apply insert_values_preserves. intros t vs pk row Hwf Hrun.
  apply store_row_wf; [done|]. eapply insert_row_columns_dom; [done|]. simpl. set_solver.
Qed.

Lemma names_in_columns (f : ColumnDef → list string) cols :
  (∀ col, Forall (λ k, k = col.(col_name)) (f col)) →
  Forall (λ k, k ∈ col_name <$> cols) (mjoin (f <$> cols)).
Proof.
  intros Hf. induction cols as [|col cols IH]; csimpl; [done|]. apply Forall_app. split.
  - eapply Forall_impl; [apply Hf|]. intros k ->. set_solver.
  - eapply Forall_impl; [apply IH|]. set_solver.
Qed.

Lemma column_names_fmap_const col (p : ColumnOptionDef → bool) :
  Forall (λ k, k = col.(col_name)) ((λ _, col.(col_name)) <$> List.filter p col.(options)).
Proof. apply Forall_fmap, Forall_true. done. Qed.

Lemma new_table_wf tn cols cp :
  dom cp = list_to_set (col_name <$> cols) ∪ ∅ →
  table_wf tn (TableInfo.new tn (mjoin (column_pk_names <$> cols))
                 (mjoin (column_index_names <$> cols)) cp).
Proof.
  intros Hd. unfold table_wf. simpl. rewrite Hd. split; [done|].
  split; [|split; [|split; [done|apply map_Forall_empty]]];
    (eapply Forall_impl; [apply names_in_columns; intros; apply column_names_fmap_const|]);
    intros k Hk; apply elem_of_union_l, elem_of_list_to_set, Hk.
Qed.

(** A property of the stored tables that every new table has and that
    [insert_values] keeps holds after any statement. *)
Lemma execute_preserves (P : string → TableInfo.t → Prop) db st :
  (∀ tn cols pks idx cp, columns_loop [] [] ∅ cols = Ret (pks, idx, cp) →
     P tn (TableInfo.new tn pks idx cp)) →
  (∀ tn tbl cols vals, P tn tbl → P tn (TableInfo.insert_values tbl cols vals).1) →
  map_Forall P db.(DataBase.tables) → map_Forall P (execute db st).1.(DataBase.tables).
Proof.
  intros Hnew Hins Hdb. destruct st as [name cols cs ine|name cols src|q|w]; simpl; try done.
  - unfold execute_create_table. destruct name as [|tn rest]; simpl; [done|].
    destruct (columns_loop [] [] ∅ cols) as [[[pks idx] cp]| |] eqn:E; simpl; try done.
    apply map_Forall_insert_2; [by eapply Hnew|done].
  - unfold execute_insert. destruct name as [|tn rest]; simpl; [done|].
    destruct src as [q|]; [|done].
    destruct (DataBase.get_table_ref db tn) as [tbl|] eqn:Htbl; [|done].
    pose proof (Hins tn tbl cols (insert_rows_of q) (map_Forall_lookup_1 _ _ _ _ Hdb Htbl)).
    destruct (TableInfo.insert_values _ _ _) as [t' r]. by apply map_Forall_insert_2.
Qed.

Lemma execute_preserves_wf db st : db_wf db → db_wf (execute db st).1.
Proof.
  apply execute_preserves; [|intros; by apply insert_values_wf].
  intros tn cols pks idx cp Hrun. pose proof (columns_loop_spec [] [] ∅ cols) as Hs.
  destruct (existsb column_panics cols); destruct Hs as [? Hs]; [by rewrite Hs in Hrun|].
  destruct Hs as (Hs & _ & Hd). rewrite Hrun in Hs. simplify_eq. by apply new_table_wf.
Qed.

(** C1. Every database [main] can reach by executing statements from the
    empty one is well formed ([db_wf]): each table is stored under its own
    name, its primary keys and indexes are columns of its schema, its
    secondary index is empty, and every stored row holds values only for
    schema columns. *)
Theorem reachable_wf db : reachable db → db_wf db.
Proof.
  induction 1 as [|db st _ IH]; [apply map_Forall_empty|]. by apply execute_preserves_wf.
Qed.

(** C12. Every value stored in a database [main] can reach is well
    typed: it is the text of a literal that the validator of its column
    ([ColumnInfo::validate_value], hence [validate_value_for_col])
    accepted.  An invalid value is never stored: its column is left out
    of the row. *)
Theorem reachable_typed db : reachable db → db_typed db.
Proof.
  induction 1 as [|db st _ IH]; [apply map_Forall_empty|].
  apply execute_preserves; [|intros; by apply insert_values_typed|done].
  intros. apply map_Forall_empty.
Qed.

Lemma row_width_wf n tbl :
  table_wf n tbl →
  Forall (λ row, length row ≤ size tbl.(TableInfo.column_properies)) (wildcard_rows tbl).
Proof.
  intros (_ & _ & _ & _ & Hrows). unfold wildcard_rows. apply Forall_map, Forall_forall.
  intros [k row] Hin%elem_of_map_to_list. simpl.
  specialize (Hrows k row Hin). unfold TableRowData.get_wild_card.
  rewrite length_fmap, length_map_to_list, <- !size_dom. by apply subseteq_size.
Qed.

(** C27. In every reachable database, each row that [SELECT *] returns for
    a table has at most as many values as the table has columns. *)
Theorem reachable_row_width db tn tbl :
  reachable db → DataBase.get_table_ref db tn = Some tbl →
  Forall (λ row, length row ≤ size tbl.(TableInfo.column_properies)) (wildcard_rows tbl).
Proof.
  intros Hr Ht. apply (row_width_wf tn).
  assert (Hwf : db_wf db) by (clear Ht; induction Hr; [apply map_Forall_empty|by apply execute_preserves_wf]).
  exact (map_Forall_lookup_1 _ _ _ _ Hwf Ht).
Qed.

(** C26. A statement that panics leaves the database as it was: every
    [expect]/[unwrap] that can fail runs before a table is written or its
    lock taken, and [insert_values], which runs under the table's lock,
    never panics.  So no table's [Mutex] is ever poisoned, and the
    [lock().unwrap()] calls of the code never fail. *)
Theorem execute_panic_leaves_db db st m :
  (execute db st).2 = Panic m → (execute db st).1 = db.
Proof.
  destruct st as [name cols cs ine|name cols src|q|w]; simpl; try done.
  - unfold execute_create_table. destruct name as [|tn rest]; simpl; [done|].
    by destruct (columns_loop [] [] ∅ cols) as [[[pks idx] cp]| |].
  - unfold execute_insert. destruct name as [|tn rest]; simpl; [done|].
    destruct src as [q|]; [|done]. destruct (DataBase.get_table_ref db tn) as [tbl|]; [|done].
    pose proof (insert_values_no_panic tbl cols (insert_rows_of q)) as Hnp.
    by destruct (TableInfo.insert_values _ _ _) as [t' [| |]].
Qed.

(** ** Independence of statements on different tables *)

Lemma database_eq (db1 db2 : DataBase.t) :
  db1.(DataBase.tables) = db2.(DataBase.tables) → db1 = db2.
Proof. destruct db1, db2. simpl. by intros ->. Qed.

(** Frame: a statement leaves every table but the one it writes as it
    was. *)
Lemma execute_frame db st n :
  modified_table st ≠ Some n →
  (execute db st).1.(DataBase.tables) !! n = db.(DataBase.tables) !! n.
Proof.
  intros Hn. destruct st as [name cols cs ine|name cols src|q|w]; simpl in *; try done.
  - unfold execute_create_table. destruct name as [|tn rest]; simpl in *; [done|].
    destruct (columns_loop [] [] ∅ cols) as [[[pks idx] cp]| |]; simpl; [|done..].
    rewrite lookup_insert_ne; congruence.
  - unfold execute_insert. destruct name as [|tn rest]; simpl in *; [done|].
    destruct src as [q|]; [|done]. destruct (DataBase.get_table_ref db tn); [|done].
    destruct (TableInfo.insert_values _ _ _). simpl. rewrite lookup_insert_ne; congruence.
Qed.

(** Locality: what a statement answers and what it leaves in the table it
    writes depend on that table alone. *)
Lemma execute_local db1 db2 st t :
  modified_table st = Some t →
  db1.(DataBase.tables) !! t = db2.(DataBase.tables) !! t →
  (execute db1 st).2 = (execute db2 st).2
  ∧ (execute db1 st).1.(DataBase.tables) !! t = (execute db2 st).1.(DataBase.tables) !! t.
Proof.
  intros Ht Heq. destruct st as [name cols cs ine|name cols src|q|w]; simpl in *; try done.
  - unfold execute_create_table. destruct name as [|tn rest]; simpl in *; [done|].
    injection Ht as <-.
    destruct (columns_loop [] [] ∅ cols) as [[[pks idx] cp]| |]; simpl; [|done..].
    by rewrite !lookup_insert_eq.
  - unfold execute_insert. destruct name as [|tn rest]; simpl in *; [done|].
    injection Ht as <-. destruct src as [q|]; [|done].
    unfold DataBase.get_table_ref. rewrite Heq.
    destruct (DataBase.tables db2 !! tn) as [tbl|] eqn:E; [|simpl; by rewrite Heq, E].
    destruct (TableInfo.insert_values _ _ _). simpl. by rewrite !lookup_insert_eq.
Qed.

(** C8. Two statements that write different tables commute: run in
    either order, they leave the same database and give the same answers.
    This is what makes the per-table locks of the code sound: statements
    on different tables may run concurrently, and any interleaving of
    them is equivalent to running them one after the other. *)
Theorem execute_commute db st1 st2 t1 t2 :
  modified_table st1 = Some t1 → modified_table st2 = Some t2 → t1 ≠ t2 →
  (execute (execute db st1).1 st2).1 = (execute (execute db st2).1 st1).1
  ∧ (execute db st1).2 = (execute (execute db st2).1 st1).2
  ∧ (execute db st2).2 = (execute (execute db st1).1 st2).2.
Proof.
  intros H1 H2 Hne.
  assert (F21 : (execute db st2).1.(DataBase.tables) !! t1 = db.(DataBase.tables) !! t1)
    by (apply execute_frame; congruence).
  assert (F12 : (execute db st1).1.(DataBase.tables) !! t2 = db.(DataBase.tables) !! t2)
    by (apply execute_frame; congruence).
  destruct (execute_local db (execute db st2).1 st1 t1 H1 (eq_sym F21)) as [O1 L1].
  destruct (execute_local db (execute db st1).1 st2 t2 H2 (eq_sym F12)) as [O2 L2].
  split; [|split; done].
  apply database_eq, map_eq. intros k.
  destruct (decide (k = t1)) as [->|Hk1]; [|destruct (decide (k = t2)) as [->|Hk2]].
  - rewrite execute_frame by congruence. rewrite <- L1. done.
  - rewrite (execute_frame (execute db st2).1 st1 t2) by congruence. by rewrite <- L2.
  - rewrite !execute_frame by congruence. done.
Qed.

End ExecutorProofs.

(** ** [main.rs] end to end *)

(** ** Witnesses *)

Lemma create_table_schema_witness :
  existsb column_panics users_columns_def = false
  ∧ let '(db', r) := execute DataBase.new create_users in
    r = Ret (SuccessStatus.TableCreated "users")
    ∧ (∃ tbl, DataBase.get_table_ref db' "users" = Some tbl
         ∧ tbl.(TableInfo.table_name) = "users"
         ∧ tbl.(TableInfo.primary_keys) = mjoin (column_pk_names <$> users_columns_def)
         ∧ tbl.(TableInfo.indexes) = mjoin (column_index_names <$> users_columns_def)
         ∧ ColumnInfo.type_name <$> tbl.(TableInfo.column_properies) = column_types users_columns_def
         ∧ TableInfo.find_all tbl SelectFields.WildCard = Ret [])
    ∧ ∀ n, n ≠ "users" → DataBase.get_table_ref db' n = DataBase.get_table_ref DataBase.new n.
Proof. split; [reflexivity|]. apply (create_table_schema DataBase.new "users" [] users_columns_def [] true). reflexivity. Defined.

Lemma create_table_panics_witness :
  let cols := [{| col_name := "c"; data_type := DataType.Int None;
                  options := [plain_option (ColumnOption.DialectSpecific [])] |}] in
  existsb column_panics cols = true
  ∧ ∃ m, execute users_db (Statement.CreateTable ["t"] cols [] false) = (users_db, Panic m).
Proof. split; [reflexivity|]. apply create_table_panics. right. reflexivity. Defined.

Lemma insert_reports_success_witness :
  let bad := [[Expr.Value (Value.Number "7" false)]] in
  DataBase.get_table_ref users_db "users" = Some users
  ∧ (TableInfo.insert_values users ["id"; "name"] bad).2 = Err "wrong number of columns"
  ∧ execute users_db (Statement.Insert ["users"] ["id"; "name"] (Some (values_query bad)))
    = (DataBase.put_table users_db "users" (TableInfo.insert_values users ["id"; "name"] bad).1,
       Ret SuccessStatus.DataInserted).
Proof.
  split; [reflexivity|]. split; [reflexivity|]. apply insert_reports_success. reflexivity.
Defined.

Lemma insert_missing_table_witness :
  DataBase.get_table_ref users_db "orders" = None
  ∧ execute users_db (Statement.Insert ["orders"] ["id"] (Some (values_query [row_admin])))
    = (users_db, Err (no_table_msg "orders")).
Proof. split; [reflexivity|]. apply insert_missing_table. reflexivity. Defined.

Lemma insert_non_values_noop_witness :
  DataBase.get_table_ref users_db "users" = Some users
  ∧ execute users_db (Statement.Insert ["users"] ["id"; "name"] (Some (select_query [SelectItem.Wildcard] ["users"])))
    = (users_db, Ret SuccessStatus.DataInserted).
Proof.
  split; [reflexivity|]. apply (insert_non_values_noop _ _ _ _ _ users); [reflexivity|].
  intros rows. discriminate.
Defined.

Lemma select_wildcard_payload_witness :
  let db := (execute users_db (Statement.Insert ["users"] ["id"; "name"] (Some (values_query [row_admin; row_bob])))).1 in
  let tbl := (TableInfo.insert_values users ["id"; "name"] [row_admin; row_bob]).1 in
  Forall2 (from_table db) [{| relation := TableFactor.Table ["users"]; joins := [] |}] [tbl]
  ∧ ∃ bytes, execute db (Statement.Query (select_query [SelectItem.Wildcard; SelectItem.Wildcard] ["users"]))
             = (db, Ret (SuccessStatus.DataFetched bytes))
    ∧ dec_many decode_rows (length [tbl] * 2) bytes
      = Some (mjoin ((λ tbl, replicate 2 (wildcard_rows tbl)) <$> [tbl]), []).
Proof.
  assert (Forall2 (from_table (execute users_db (Statement.Insert ["users"] ["id"; "name"]
                     (Some (values_query [row_admin; row_bob])))).1)
            [{| relation := TableFactor.Table ["users"]; joins := [] |}]
            [(TableInfo.insert_values users ["id"; "name"] [row_admin; row_bob]).1]) as Hf.
  { constructor; [|constructor]. exists "users", []. split; reflexivity. }
  split; [exact Hf|]. apply (select_wildcard_payload _ _ (simple_select [SelectItem.Wildcard; SelectItem.Wildcard] ["users"]) _ 2); [reflexivity|reflexivity|exact Hf].
Defined.

Lemma select_rejects_projection_witness :
  let q := select_query [SelectItem.Wildcard; SelectItem.UnnamedExpr (Expr.Other "name")] ["users"] in
  Forall2 (from_table users_db) [{| relation := TableFactor.Table ["users"]; joins := [] |}] [users]
  ∧ execute users_db (Statement.Query q) = (users_db, Err not_implemented_msg).
Proof.
  assert (Forall2 (from_table users_db) [{| relation := TableFactor.Table ["users"]; joins := [] |}] [users]) as Hf.
  { constructor; [|constructor]. exists "users", []. split; reflexivity. }
  split; [exact Hf|].
  apply (select_rejects_projection _ _ (simple_select [SelectItem.Wildcard; SelectItem.UnnamedExpr (Expr.Other "name")] ["users"]) [users] (SelectItem.UnnamedExpr (Expr.Other "name")));
    [reflexivity|exact Hf|discriminate|simpl; set_solver|discriminate].
Defined.

Lemma reachable_wf_witness :
  reachable (execute (execute DataBase.new create_users).1 insert_users).1
  ∧ db_wf (execute (execute DataBase.new create_users).1 insert_users).1.
Proof.
  assert (reachable (execute (execute DataBase.new create_users).1 insert_users).1) as Hr.
  { repeat constructor. }
  split; [exact Hr|]. apply reachable_wf. exact Hr.
Defined.

Lemma insert_wrong_arity_silent_witness :
  DataBase.get_table_ref users_db "users" = Some users
  ∧ insert_rows_of (values_query [[Expr.Value (Value.Number "1" false)]]) = [[Expr.Value (Value.Number "1" false)]]
  ∧ length [Expr.Value (Value.Number "1" false)] ≠ length ["id"; "name"]
  ∧ execute users_db (Statement.Insert ["users"] ["id"; "name"] (Some (values_query [[Expr.Value (Value.Number "1" false)]])))
    = (users_db, Ret SuccessStatus.DataInserted).
Proof.
  assert (Ht : DataBase.get_table_ref users_db "users" = Some users) by reflexivity.
  assert (Hq : insert_rows_of (values_query [[Expr.Value (Value.Number "1" false)]])
               = [[Expr.Value (Value.Number "1" false)]] ++ []) by reflexivity.
  assert (Hl : length [Expr.Value (Value.Number "1" false)] ≠ length ["id"; "name"]) by (simpl; lia).
  split; [exact Ht|]. split; [exact Hq|]. split; [exact Hl|].
  exact (insert_wrong_arity_silent users_db "users" [] ["id"; "name"] _ users _ [] Ht Hq Hl).
Defined.

Lemma reachable_typed_witness :
  reachable (execute (execute DataBase.new create_users).1 insert_users).1
  ∧ db_typed (execute (execute DataBase.new create_users).1 insert_users).1.
Proof.
  assert (Hr : reachable (execute (execute DataBase.new create_users).1 insert_users).1)
    by repeat constructor.
  split; [exact Hr|]. exact (reachable_typed _ Hr).
Defined.

Lemma execute_commute_witness :
  let st1 := Statement.Insert ["users"] ["id"; "name"] (Some (values_query [row_admin])) in
  let st2 := Statement.CreateTable ["orders"] users_columns_def [] false in
  modified_table st1 = Some "users" ∧ modified_table st2 = Some "orders" ∧ "users" ≠ "orders"
  ∧ (execute (execute users_db st1).1 st2).1 = (execute (execute users_db st2).1 st1).1
  ∧ (execute users_db st1).2 = (execute (execute users_db st2).1 st1).2
  ∧ (execute users_db st2).2 = (execute (execute users_db st1).1 st2).2.
Proof.
  split; [reflexivity|]. split; [reflexivity|]. split; [discriminate|].
  apply (execute_commute _ _ _ "users" "orders"); [reflexivity|reflexivity|discriminate].
Defined.

Lemma reachable_row_width_witness :
  let db := (execute (execute DataBase.new create_users).1 insert_users).1 in
  let tbl := default users (DataBase.get_table_ref db "users") in
  reachable db ∧ DataBase.get_table_ref db "users" = Some tbl
  ∧ Forall (λ row, length row ≤ size tbl.(TableInfo.column_properies)) (wildcard_rows tbl).
Proof.
  assert (reachable (execute (execute DataBase.new create_users).1 insert_users).1) as Hr.
  { repeat constructor. }
  assert (DataBase.get_table_ref (execute (execute DataBase.new create_users).1 insert_users).1 "users"
          = Some (default users (DataBase.get_table_ref
                    (execute (execute DataBase.new create_users).1 insert_users).1 "users"))) as Ht.
  { vm_compute. reflexivity. }
  split; [exact Hr|]. split; [exact Ht|]. exact (reachable_row_width _ "users" _ Hr Ht).
Defined.

Lemma execute_panic_leaves_db_witness :
  let st := Statement.Insert ["users"] ["id"] None in
  (execute users_db st).2 = Panic no_values_msg ∧ (execute users_db st).1 = users_db.
Proof.
  split; [reflexivity|]. apply (execute_panic_leaves_db _ _ no_values_msg). reflexivity.
Defined.
