(* ===== verification/Main.v ===== *)
(** * The program ([src/src/main.rs])

    [main] builds one SQL text, parses it with [sqlparser]'s generic
    dialect, and executes the statements in order on a fresh database:

    - lines 11-31 build the text: a [CREATE TABLE IF NOT EXISTS users],
      an [INSERT] whose [VALUES] list holds rows [1] and [2] literally and
      then, in the loop [for n in 3..rows_to_insert], one row per [n]
      written with [format!], followed by [;] when [n + 1] is
      [rows_to_insert] and by [,] otherwise; then [SELECT * from users;].
      [build_sql] is that code with [rows_to_insert] as a parameter; the
      loop is [push_rows], the [i32] addition [n + 1] panics on overflow
      as in a debug build ([i32_add]), and [{}] on an [i32] is
      [i32_to_string];
    - lines 34-37 parse the text and [unwrap] the result; the parser is an
      external crate, so [main_with] takes it as an argument;
    - lines 39-52 run the statements ([Executor.run]).

    The theorems give the text for every [rows_to_insert] in the [i32]
    range (its [VALUES] list, or the dangling comma when the loop is
    empty), and the end-to-end behaviour: whenever the parser reads the
    text as the statements it spells, [main] creates the table, inserts
    every row and answers the [SELECT] with all [rows_to_insert - 1] of
    them. *)

From S2P Require Import Prelude SqlAst RustNum Chrono Validators DataDescriptor Codec Executor.
From Stdlib Require Import Ascii.

Local Open Scope Z_scope.

(** ** [i32] arithmetic and [Display] *)

Definition i32_min : Z := - 2 ^ 31.
Definition i32_max : Z := 2 ^ 31 - 1.

Definition add_overflow_msg : string := "attempt to add with overflow".

(** [a + b] on [i32] with overflow checks (a debug build). *)
Definition i32_add (a b : Z) : outcome Z :=
  if bool_decide (i32_min ≤ a + b ≤ i32_max) then Ret (a + b) else Panic add_overflow_msg.

(** The decimal digits of [n ≥ 0], most significant first: the digits of
    [n / 10], then the last one. *)
Fixpoint dec_digits (fuel : nat) (n : Z) : list ascii :=
  match fuel with
  | O => []
  | S f => (if n <? 10 then [] else dec_digits f (n / 10)) ++ [digit_char (n mod 10)]
  end.

(** One step per bit is more than one step per decimal digit. *)
Definition dec_fuel (n : Z) : nat := S (Z.to_nat (Z.log2 n)).

(** [format!("{}", n)] for [n : i32]. *)
Definition i32_to_string (n : Z) : string :=
  String.string_of_list_ascii
    (if n <? 0 then "-"%char :: dec_digits (dec_fuel (- n)) (- n) else dec_digits (dec_fuel n) n).

(** ** The SQL text (lines 11-31) *)

Definition rows_to_insert : Z := 1000000.

Definition create_sql : string := "CREATE TABLE IF NOT EXISTS users (
          id bigint(20) PRIMARY KEY AUTO_INCREMENT,
          name VARCHAR(255) NOT NULL,
          password VARCHAR(255) NOT NULL
        );
      ".

Definition insert_head : string := " INSERT INTO `users` (`id`, `name`, `password`) VALUES
    (1, 'admin', '$2b$10$I6gmAyHE0r3TGZEnDP0O5efjsuBXVT36M.HLyZDm4cuJFyJcqXdG.'),
    (2, 'armando', '$2b$10$qQEy7J/lN3XXP.Gp1wv3zO2SjpOp3NmsACA2TroekCYVUa55K6T8i'),".

Definition select_sql : string := " SELECT * from users;".

(** Line 24: [format!("({}, 'armando{}', '<hash>'){}", n, n, sep)]. *)
Definition row_sql (n : Z) (sep : string) : string :=
  "(" +:+ i32_to_string n +:+ ", 'armando" +:+ i32_to_string n +:+ "', '" +:+ hash_armando +:+ "')" +:+ sep.

(** Lines 23-30: [for n in 3..rows_to_insert], the separator chosen by
    [(n+1) == rows_to_insert]. *)
Fixpoint push_rows (sql : string) (rows_to_insert : Z) (ns : list Z) : outcome string :=
  match ns with
  | [] => Ret sql
  | n :: ns' =>
      n1 ← i32_add n 1;
      push_rows (sql +:+ row_sql n (if bool_decide (n1 = rows_to_insert) then ";" else ","))
        rows_to_insert ns'
  end.

Definition build_sql (rows_to_insert : Z) : outcome string :=
  sql ← push_rows (create_sql +:+ insert_head) rows_to_insert (seqZ 3 (rows_to_insert - 3));
  Ret (sql +:+ select_sql).

(** ** [main] (lines 10-55) *)

Definition unwrap_err_msg : string := "called `Result::unwrap()` on an `Err` value".

Section Program.
Context `{RowCodec}.

(** The text, parsed and unwrapped, then run statement by statement. *)
Definition main_with (parse_sql : string → option (list Statement.t)) (rows_to_insert : Z)
    : outcome (DataBase.t * list (outcome SuccessStatus.t)) :=
  sql ← build_sql rows_to_insert;
  ast ← expect (parse_sql sql) unwrap_err_msg;
  Ret (run DataBase.new ast).

Definition main (parse_sql : string → option (list Statement.t)) :=
  main_with parse_sql rows_to_insert.

End Program.

(** ** What the text spells *)

(** A [VALUES] tuple of number and single-quoted literals, as SQL. *)
Definition literal_sql (e : Expr.t) : string :=
  match e with
  | Expr.Value (Value.Number s _) => s
  | Expr.Value (Value.SingleQuotedString s) => "'" +:+ s +:+ "'"
  | _ => ""
  end.

Definition tuple_sql (row : list Expr.t) : string :=
  "(" +:+ String.concat ", " (literal_sql <$> row) +:+ ")".

(** The row the loop writes for [n]. *)
Definition main_row (n : Z) : list Expr.t :=
  user_row (i32_to_string n) ("armando" +:+ i32_to_string n) hash_armando.

(** The rows of the [INSERT]: rows 1 and 2, then one per [n] of the
    loop. *)
Definition main_rows (rows_to_insert : Z) : list (list Expr.t) :=
  user_row "1" "admin" hash_admin :: user_row "2" "armando" hash_armando
  :: (main_row <$> seqZ 3 (rows_to_insert - 3)).

Definition main_statements (rows_to_insert : Z) : list Statement.t :=
  [create_users; insert_users_rows (main_rows rows_to_insert); select_users].

(** [users] as [create_users] builds it: [id] is the primary key, with
    [AUTO_INCREMENT] read as [AutoIncrement]. *)
Definition id_info : ColumnInfo.t :=
  ColumnInfo.mk (DataType.BigInt (Some 20%N))
    [ColumnProperties.PriamryKey; ColumnProperties.Unique; ColumnProperties.AutoIncrement].

Definition text_info : ColumnInfo.t :=
  ColumnInfo.mk (DataType.Varchar (Some (CharacterLength.IntegerLength 255 None))) [ColumnProperties.NotNull].

Definition main_users_columns : gmap string ColumnInfo.t :=
  {[ "id" := id_info; "name" := text_info; "password" := text_info ]}.

Definition main_users : TableInfo.t := TableInfo.new "users" ["id"] ["id"] main_users_columns.

Definition users_cols : list string := ["id"; "name"; "password"].

(** ** Decimal printing *)

Lemma dec_digits_all f n : 0 ≤ n → Forall (λ c, is_digit c = true) (dec_digits f n).
Proof.
  revert n. induction f as [|f IH]; intros n Hn; simpl; [done|].
  apply Forall_app. split.
  - destruct (n <? 10); [done|]. apply IH, Z.div_pos; lia.
  - constructor; [|done]. apply is_digit_char. pose proof (Z.mod_pos_bound n 10). lia.
Qed.

Lemma dec_digits_value f n : 0 ≤ n < 10 ^ Z.of_nat f → digits_value 0 (dec_digits f n) = n.
Proof.
  revert n. induction f as [|f IH]; intros n Hn; simpl in *.
  - lia.
  - pose proof (Z.mod_pos_bound n 10). rewrite digits_value_app, digit_value_char by lia.
    destruct (Z.ltb_spec n 10); simpl.
    + rewrite Z.mod_small; lia.
    + rewrite Nat2Z.inj_succ, Z.pow_succ_r in Hn by lia.
      rewrite IH by (split; [apply Z.div_pos|apply Z.div_lt_upper_bound]; lia).
      pose proof (Z.div_mod n 10). lia.
Qed.

Lemma dec_digits_cons f n : f ≠ 0%nat → ∃ c l, dec_digits f n = c :: l.
Proof.
  destruct f as [|f]; [done|]. intros _. simpl.
  destruct (if n <? 10 then [] else dec_digits f (n / 10)) as [|c l]; simpl; eauto.
Qed.

Lemma dec_fuel_enough n : 0 ≤ n → n < 10 ^ Z.of_nat (dec_fuel n).
Proof.
  intros Hn. unfold dec_fuel. rewrite Nat2Z.inj_succ, Z2Nat.id by apply Z.log2_nonneg.
  destruct (Z.eq_dec n 0) as [->|Hn0]; [done|].
  pose proof (Z.log2_spec n ltac:(lia)) as [_ H2].
  assert (2 ^ Z.succ (Z.log2 n) ≤ 10 ^ Z.succ (Z.log2 n)).
  { apply Z.pow_le_mono_l. lia. }
  lia.
Qed.

(** The decimal text of [0 ≤ n ≤ u64::MAX] parses back to [n]: what
    [format!] writes, [str::parse::<u64>] reads. *)
Lemma parse_u64_i32_to_string n : 0 ≤ n ≤ u64_max → parse_u64 (i32_to_string n) = Some n.
Proof.
  intros Hn. rewrite parse_u64_spec. unfold int_value_spec, i32_to_string.
  rewrite (proj2 (Z.ltb_ge n 0)) by lia. rewrite String.list_ascii_of_string_of_list_ascii.
  pose proof (dec_digits_all (dec_fuel n) n ltac:(lia)) as Hd.
  destruct (dec_digits_cons (dec_fuel n) n ltac:(unfold dec_fuel; lia)) as (c & l & Hcl).
  rewrite Hcl in Hd |- *. apply Forall_cons in Hd as [Hc Hl].
  rewrite !digit_not_char by done. cbn [andb orb negb].
  rewrite bool_decide_false by done. cbn [orb].
  assert (Hall : forallb is_digit (c :: l) = true) by (simpl; rewrite Hc; clear Hcl; induction Hl as [|x l' Hx _ IH]; simpl; rewrite ?Hx; auto).
  rewrite Hall. simpl negb. rewrite <- Hcl, dec_digits_value by (split; [lia|apply dec_fuel_enough; lia]).
  unfold in_range. rewrite (proj2 (Z.leb_le 0 n)), (proj2 (Z.leb_le n u64_max)) by lia. done.
Qed.

Lemma i32_to_string_inj n m :
  0 ≤ n ≤ u64_max → 0 ≤ m ≤ u64_max → i32_to_string n = i32_to_string m → n = m.
Proof.
  intros Hn Hm Heq. apply (inj Some).
  by rewrite <- (parse_u64_i32_to_string n), <- (parse_u64_i32_to_string m), Heq.
Qed.

Lemma dec_digits_length_pow f n k :
  0 ≤ n < 10 ^ Z.of_nat k → (1 ≤ k)%nat → (length (dec_digits f n) ≤ k)%nat.
Proof.
  revert n k. induction f as [|f IH]; intros n k Hn Hk; simpl; [lia|].
  rewrite length_app. simpl. destruct (Z.ltb_spec n 10); simpl; [lia|].
  destruct k as [|[|k]]; [lia|simpl in Hn; lia|].
  rewrite (Nat2Z.inj_succ (S k)), Z.pow_succ_r in Hn by lia.
  assert (length (dec_digits f (n / 10)) ≤ S k)%nat; [|lia].
  apply IH; [split; [apply Z.div_pos|apply Z.div_lt_upper_bound]|]; lia.
Qed.

(** An [i32] that is not negative has at most ten digits. *)
Lemma length_i32_to_string n : 0 ≤ n ≤ i32_max → (String.length (i32_to_string n) ≤ 10)%nat.
Proof.
  intros Hn. unfold i32_to_string. rewrite (proj2 (Z.ltb_ge n 0)) by lia.
  rewrite length_string_of_list_ascii. apply dec_digits_length_pow; [|lia].
  unfold i32_max in Hn. simpl. lia.
Qed.

(** ** The text *)

Lemma push_rows_app sql R l1 l2 :
  push_rows sql R (l1 ++ l2) = (s ← push_rows sql R l1; push_rows s R l2).
Proof.
  revert sql. induction l1 as [|n l1 IH]; intros sql; simpl; [done|].
  destruct (i32_add n 1); simpl; [apply IH|done..].
Qed.

(** Every [n] of the loop but the last is followed by [,]. *)
Lemma push_rows_commas sql R l :
  R ≤ i32_max → Forall (λ n, i32_min ≤ n ∧ n + 1 < R) l →
  push_rows sql R l = Ret (foldl (λ s n, s +:+ row_sql n ",") sql l).
Proof.
  intros HR Hl. revert sql. induction Hl as [|n l [Hn1 Hn2] _ IH]; intros sql; simpl; [done|].
  unfold i32_add. rewrite bool_decide_true by (unfold i32_min, i32_max in *; lia). simpl.
  rewrite bool_decide_false by lia. apply IH.
Qed.

(** The last [n], [rows_to_insert - 1], is followed by [;]. *)
Lemma push_rows_last sql R :
  i32_min < R ≤ i32_max → push_rows sql R [R - 1] = Ret (sql +:+ row_sql (R - 1) ";").
Proof.
  intros HR. simpl. unfold i32_add.
  rewrite bool_decide_true by (unfold i32_min, i32_max in *; lia). simpl.
  by rewrite bool_decide_true by lia.
Qed.

Lemma foldl_sep_concat (g : Z → string → string) (t : Z → string) :
  (∀ n sep, g n sep = t n +:+ sep) →
  ∀ sql ts x, foldl (λ s n, s +:+ g n ",") sql ts +:+ g x ";"
              = sql +:+ String.concat "," (t <$> ts ++ [x]) +:+ ";".
Proof.
  intros Hg sql ts. revert sql. induction ts as [|n ts IH]; intros sql x; simpl.
  - by rewrite Hg.
  - rewrite IH, Hg. change (list_fmap Z string t (ts ++ [x])) with (t <$> ts ++ [x]).
    destruct (t <$> ts ++ [x]) as [|s r] eqn:E; [by destruct ts|].
    by rewrite !str_app_assoc.
Qed.

Lemma row_sql_tuple n sep : row_sql n sep = tuple_sql (main_row n) +:+ sep.
Proof. unfold row_sql, tuple_sql, main_row, user_row. cbn. by rewrite !str_app_assoc. Qed.

(** C13. For every [rows_to_insert] in the [i32] range the loop's
    [n + 1] does not overflow and the text [main] builds is the
    [CREATE TABLE], the [INSERT] head with rows 1 and 2, the tuples of
    rows [3 .. rows_to_insert - 1] joined by [,] and closed by [;], and
    the [SELECT].  When the loop is empty ([rows_to_insert ≤ 3]) nothing
    closes the [VALUES] list: the comma after row 2 runs into the
    [SELECT], a text the parser rejects, so the [unwrap] panics. *)
Theorem build_sql_text R :
  i32_min ≤ R ≤ i32_max →
  build_sql R =
  Ret (create_sql +:+ insert_head +:+
       (if bool_decide (4 ≤ R)
        then String.concat "," ((λ n, tuple_sql (main_row n)) <$> seqZ 3 (R - 3)) +:+ ";"
        else "")
       +:+ select_sql).
Proof.
  intros HR. unfold build_sql. case_bool_decide as H4.
  - replace (R - 3) with ((R - 4) + 1) by lia.
    rewrite seqZ_app, push_rows_app, push_rows_commas by
      (try apply Forall_forall; intros; rewrite ?elem_of_seqZ in *; unfold i32_min, i32_max in *; lia).
    assert (Hl : seqZ (3 + (R - 4)) 1 = [R - 1]) by (rewrite seqZ_cons, seqZ_nil by lia; f_equal; lia).
    rewrite Hl. cbn [mbind outcome_bind].
    rewrite push_rows_last by (unfold i32_min in *; lia). cbn [mbind outcome_bind].
    rewrite (foldl_sep_concat row_sql (λ n, tuple_sql (main_row n))) by apply row_sql_tuple.
    by rewrite !str_app_assoc.
  - rewrite seqZ_nil by lia. simpl. by rewrite !str_app_assoc.
Qed.

Lemma push_rows_ret sql R l :
  Forall (λ n, i32_min ≤ n + 1 ≤ i32_max) l → ∃ s, push_rows sql R l = Ret s.
Proof.
  intros Hl. revert sql. induction Hl as [|n l Hn _ IH]; intros sql; simpl; [eauto|].
  unfold i32_add. rewrite bool_decide_true by done. apply IH.
Qed.

(** ** The statements, run *)

Lemma users_cols_ok c : c ∈ users_cols → is_Some (main_users.(TableInfo.column_properies) !! c).
Proof.
  intros Hc. repeat (apply elem_of_cons in Hc as [->|Hc]; [by eexists|]). by apply elem_of_nil in Hc.
Qed.

Lemma users_cols_NoDup : NoDup users_cols.
Proof. by_decide. Qed.

Lemma user_row_key id name pw : row_key main_users users_cols (user_row id name pw) = id.
Proof. reflexivity. Qed.

(** A row every column of [users] accepts: an id [u64::parse] reads,
    of at most 21 digits, and a name and password of at most 255
    bytes. *)
Definition user_row_valid (r : list Expr.t) : Prop :=
  ∃ id name pw, r = user_row id name pw ∧ is_ok (parse_u64 id) = true
    ∧ (len64 id ≤ 21)%N ∧ (len64 name ≤ 255)%N ∧ (len64 pw ≤ 255)%N.

Lemma validate_id id :
  is_ok (parse_u64 id) = true → (len64 id ≤ 21)%N →
  ColumnInfo.validate_value id_info (Value.Number id false) = true.
Proof.
  intros Hid Hl. unfold ColumnInfo.validate_value. cbn -[parse_u64 len64].
  rewrite Hid. cbn -[len64]. by rewrite (proj2 (N.ltb_ge _ _)) by lia.
Qed.

Lemma validate_text s :
  (len64 s ≤ 255)%N → ColumnInfo.validate_value text_info (Value.SingleQuotedString s) = true.
Proof. intros Hl. unfold ColumnInfo.validate_value. cbn -[len64]. by apply N.leb_le. Qed.

Lemma user_row_entries id name pw :
  is_ok (parse_u64 id) = true → (len64 id ≤ 21)%N → (len64 name ≤ 255)%N → (len64 pw ≤ 255)%N →
  row_entries main_users users_cols (user_row id name pw)
  = [("id", Some id); ("name", Some name); ("password", Some pw)].
Proof.
  intros Hid Hl Hn Hp.
  assert (Hi : main_users.(TableInfo.column_properies) !! "id" = Some id_info) by reflexivity.
  assert (Hna : main_users.(TableInfo.column_properies) !! "name" = Some text_info) by reflexivity.
  assert (Hpa : main_users.(TableInfo.column_properies) !! "password" = Some text_info) by reflexivity.
  unfold row_entries, column_entry, users_cols, user_row. cbn [zip zip_with fst snd omap list_omap].
  rewrite Hi, Hna, Hpa, validate_id, !validate_text by done. done.
Qed.

Lemma user_row_wild_card r :
  user_row_valid r →
  TableRowData.get_wild_card (spec_row main_users users_cols r) ≡ₚ expr_raw <$> r.
Proof.
  intros (id & name & pw & -> & Hid & Hl & Hn & Hp).
  unfold TableRowData.get_wild_card, spec_row. rewrite user_row_entries by done. cbn [TableRowData.column_data].
  rewrite map_to_list_to_map; [done|]. apply users_cols_NoDup.
Qed.

Lemma user_row_wf id name pw : row_well_formed users_cols (user_row id name pw).
Proof. split; [done|repeat constructor]. Qed.

Lemma main_rows_valid R : R ≤ i32_max → Forall user_row_valid (main_rows R).
Proof.
  intros HR. constructor; [|constructor].
  - exists "1", "admin", hash_admin. split_and!; [done|reflexivity|by_decide..].
  - exists "2", "armando", hash_armando. split_and!; [done|reflexivity|by_decide..].
  - apply Forall_fmap, Forall_forall. intros n Hn%elem_of_seqZ.
    pose proof (length_i32_to_string n ltac:(lia)).
    exists (i32_to_string n), ("armando" +:+ i32_to_string n), hash_armando.
    split_and!; [done| |unfold len64; lia|unfold len64; rewrite rust_len_app; simpl; lia|by_decide].
    rewrite parse_u64_i32_to_string; [done|]. unfold u64_max, i32_max in *. lia.
Qed.

Lemma main_rows_wf R : R ≤ i32_max → Forall (row_well_formed users_cols) (main_rows R).
Proof.
  intros HR. eapply Forall_impl; [by apply main_rows_valid|].
  intros r (id & name & pw & -> & _). apply user_row_wf.
Qed.

(** The rows are stored under the keys ["1"], ["2"], ...,
    [rows_to_insert - 1], all distinct. *)
Lemma main_rows_keys R :
  3 ≤ R → (λ r, row_key main_users users_cols r) <$> main_rows R = i32_to_string <$> seqZ 1 (R - 1).
Proof.
  intros HR. rewrite (seqZ_cons 1 (R - 1)), (seqZ_cons (Z.succ 1)) by lia.
  replace (Z.pred (Z.pred (R - 1))) with (R - 3) by lia. change (Z.succ (Z.succ 1)) with 3.
  unfold main_rows. cbn [fmap list_fmap]. rewrite <- list_fmap_compose. by f_equal.
Qed.

Lemma main_keys_NoDup R : R ≤ i32_max → NoDup (i32_to_string <$> seqZ 1 (R - 1)).
Proof.
  intros HR. apply NoDup_fmap_2_strong; [|apply NoDup_seqZ].
  intros x y Hx%elem_of_seqZ Hy%elem_of_seqZ. apply i32_to_string_inj; unfold u64_max, i32_max in *; lia.
Qed.

(** [users] after the [INSERT]: each row of the statement under its key. *)
Definition main_table (R : Z) : TableInfo.t :=
  TableInfo.mk "users" ["id"] ["id"] main_users_columns
    (TableData.mk (foldl (λ m r, <[row_key main_users users_cols r := spec_row main_users users_cols r]> m)
                     ∅ (main_rows R)) ∅).

Lemma main_table_rows R :
  3 ≤ R ≤ i32_max →
  wildcard_rows (main_table R)
  ≡ₚ (λ r, TableRowData.get_wild_card (spec_row main_users users_cols r)) <$> main_rows R.
Proof.
  intros HR. unfold wildcard_rows, main_table. cbn [TableInfo.data TableData.row_data].
  rewrite map_to_list_foldl_insert by (rewrite main_rows_keys by lia; apply main_keys_NoDup; lia).
  change (map ?f ?l) with (f <$> l). by rewrite <- list_fmap_compose.
Qed.

Lemma length_main_rows R : 3 ≤ R → length (main_rows R) = Z.to_nat (R - 1).
Proof. intros HR. simpl. rewrite length_fmap, length_seqZ. lia. Qed.

Section Run.
Context `{RowCodec}.

Lemma create_users_ok :
  execute DataBase.new create_users =
  (DataBase.create_table DataBase.new "users" ["id"] ["id"] main_users_columns,
   Ret (SuccessStatus.TableCreated "users")).
Proof. reflexivity. Qed.

Lemma insert_main_rows R :
  3 ≤ R ≤ i32_max →
  let db := DataBase.create_table DataBase.new "users" ["id"] ["id"] main_users_columns in
  execute db (insert_users_rows (main_rows R))
  = (DataBase.put_table db "users" (main_table R), Ret SuccessStatus.DataInserted).
Proof.
  intros HR db. unfold execute, execute_insert, insert_users_rows. cbn [head].
  assert (Ht : DataBase.get_table_ref db "users" = Some main_users) by reflexivity. rewrite Ht.
  change (insert_rows_of (values_query (main_rows R))) with (main_rows R).
  rewrite insert_values_checked; [|done|apply users_cols_NoDup|apply users_cols_ok].
  rewrite insert_rows_ok; [|apply users_cols_NoDup|apply users_cols_ok|apply main_rows_wf; lia].
  by rewrite store_rows_foldl.
Qed.

Lemma select_users_ok db tbl :
  DataBase.get_table_ref db "users" = Some tbl →
  execute db select_users = (db, Ret (SuccessStatus.DataFetched (encode_rows (wildcard_rows tbl)))).
Proof.
  intros Ht. unfold execute, select_users, execute_query, select_query, simple_select.
  cbn [body projection from].
  change [SelectItem.Wildcard] with (replicate 1 SelectItem.Wildcard).
  rewrite (from_loop_wildcards db _ [tbl]); [by cbn; rewrite app_nil_r|].
  constructor; [|constructor]. by exists "users", [].
Qed.

(** C11. End to end: for every [rows_to_insert] from 4 to [i32::MAX], if
    the parser reads the text [main] builds as the statements it spells,
    [main] answers [TableCreated "users"], [DataInserted] and
    [DataFetched bytes], where the codec reads [bytes] back as exactly
    [rows_to_insert - 1] rows (ids 1 to [rows_to_insert - 1], not
    [rows_to_insert] rows): up to the order of the rows and of the values
    in a row ([HashMap] order), these are the inserted literals, every
    one of them, since all ids differ and every value is valid for its
    column. *)
Theorem main_inserts_all_rows parse_sql R :
  4 ≤ R ≤ i32_max →
  (∀ sql, build_sql R = Ret sql → parse_sql sql = Some (main_statements R)) →
  ∃ db bytes rs,
    main_with parse_sql R
    = Ret (db, [Ret (SuccessStatus.TableCreated "users"); Ret SuccessStatus.DataInserted;
                Ret (SuccessStatus.DataFetched bytes)])
    ∧ decode_rows bytes = Some (rs, [])
    ∧ length rs = Z.to_nat (R - 1)
    ∧ ∃ rs' : Rows, rs ≡ₚ rs'
      ∧ Forall2 Permutation rs' ((λ r : list Expr.t, expr_raw <$> r) <$> main_rows R).
Proof.
  intros HR Hparse.
  destruct (push_rows_ret (create_sql +:+ insert_head) R (seqZ 3 (R - 3))) as [s Hs].
  { apply Forall_forall. intros n Hn%elem_of_seqZ. unfold i32_min, i32_max in *. lia. }
  assert (Hb : build_sql R = Ret (s +:+ select_sql)) by (unfold build_sql; by rewrite Hs).
  unfold main_with. rewrite Hb. cbn [mbind outcome_bind]. rewrite (Hparse _ Hb). cbn [expect mbind outcome_bind].
  unfold main_statements. cbn [run]. unfold execute_on, statement_execute. rewrite create_users_ok, insert_main_rows by lia.
  rewrite (select_users_ok _ (main_table R)) by apply lookup_insert_eq.
  do 3 eexists. split; [reflexivity|]. split.
  { rewrite <- (app_nil_r (encode_rows _)). apply decode_encode_rows. }
  pose proof (main_table_rows R ltac:(lia)) as Hp. split.
  - rewrite Hp, length_fmap. apply length_main_rows. lia.
  - eexists. split; [exact Hp|]. apply Forall2_fmap, Forall_Forall2_diag.
    eapply Forall_impl; [apply main_rows_valid; lia|]. apply user_row_wild_card.
Qed.

End Run.

(** ** Witnesses *)

Lemma build_sql_text_witness :
  i32_min ≤ 3 ≤ i32_max
  ∧ build_sql 3 =
    Ret (create_sql +:+ insert_head +:+
         (if bool_decide (4 ≤ 3)
          then String.concat "," ((λ n, tuple_sql (main_row n)) <$> seqZ 3 (3 - 3)) +:+ ";"
          else "")
         +:+ select_sql).
Proof.
  assert (H : i32_min ≤ 3 ≤ i32_max) by (unfold i32_min, i32_max; lia).
  split; [exact H|]. apply (build_sql_text 3 H).
Defined.

Lemma main_inserts_all_rows_witness :
  4 ≤ 5 ≤ i32_max
  ∧ (∀ sql, build_sql 5 = Ret sql → Some (main_statements 5) = Some (main_statements 5))
  ∧ ∃ db bytes rs,
      main_with (H := leb128_codec) (λ _, Some (main_statements 5)) 5
      = Ret (db, [Ret (SuccessStatus.TableCreated "users"); Ret SuccessStatus.DataInserted;
                  Ret (SuccessStatus.DataFetched bytes)])
      ∧ decode_rows bytes = Some (rs, [])
      ∧ length rs = Z.to_nat (5 - 1)
      ∧ ∃ rs' : Rows, rs ≡ₚ rs'
        ∧ Forall2 Permutation rs' ((λ r : list Expr.t, expr_raw <$> r) <$> main_rows 5).
Proof.
  assert (HR : 4 ≤ 5 ≤ i32_max) by (unfold i32_max; lia).
  assert (Hp : ∀ sql, build_sql 5 = Ret sql → Some (main_statements 5) = Some (main_statements 5))
    by done.
  split; [exact HR|]. split; [exact Hp|].
  exact (main_inserts_all_rows (λ _, Some (main_statements 5)) 5 HR Hp).
Defined.
